(** * DMS QA automation harness: a shallow embedding and its properties

    The development follows the layout of the repository:

    - [JS], [JSDate]: the fragment of JavaScript the helpers rely on
      (thrown errors, strict equality, string conversion, [padStart],
      [charAt], the rounded product of doubles, the ECMAScript date
      arithmetic);
    - [ApiClient], [ApiClientLifecycle]: [src/utils/apiClient.ts], the
      [DmsApiClient] class and the free assertion helpers;
    - [TestData], [Decoding]: the generators of [src/utils/testData.ts] and
      the reading back of what they generate;
    - [BasePage], [RepairOrdersPage], [AppointmentsPage], [PageLoad],
      [LoginPage], [RepairOrdersWorkflow], [AppointmentsWorkflow]: the page
      objects of [src/pages], over an abstract application under test that
      the automation engine drives, waiting for its elements;
    - [Models]: two small applications under test (a form, a page whose
      elements appear over time);
    - [Effects], [Traces]: the relations used to say what a method may
      change and which engine calls it makes.

    The properties follow the definitions, component by component.

    Asynchronous methods are awaited one after the other in the sources, so
    they are embedded as sequential state-passing programs whose result is
    either a value or a thrown error (a rejected promise). *)

From Stdlib Require Import ZArith List Lia Bool.
From Stdlib Require Import Ascii String.
From Stdlib Require Import Floats.SpecFloat.
From stdpp Require Import base strings gmap.

Local Open Scope Z_scope.
Local Open Scope string_scope.

(* ===================================================================== *)
(** * The JavaScript fragment                                             *)
(* ===================================================================== *)

Module JS.

(** A thrown value.  The sources only throw [Error] objects built with
    [new Error(message)]; the automation engine throws errors of its own
    (for instance [TimeoutError]).  [name] is the error's class name. *)
Record JSError : Type := mkError { name : string; message : string }.

Definition Error (msg : string) : JSError := mkError "Error" msg.
Definition TimeoutError (msg : string) : JSError := mkError "TimeoutError" msg.

(** Outcome of evaluating a statement or awaiting a promise. *)
Inductive Result (A : Type) : Type :=
| Ok (a : A)
| Throw (e : JSError).
Arguments Ok {A} a.
Arguments Throw {A} e.

Definition is_throw {A} (r : Result A) : bool :=
  match r with Ok _ => false | Throw _ => true end.

(** The double-quote character, which the message templates contain. *)
Definition dquote : string := String "034"%char EmptyString.

(** ** Numbers

    Integer-valued numbers print in decimal ([Number.prototype.toString]
    for integers of magnitude below 1e21). *)

Definition digit_char (d : Z) : ascii := ascii_of_nat (48 + Z.to_nat d).

Fixpoint digits_fuel (fuel : nat) (n : Z) (acc : string) : string :=
  match fuel with
  | O => acc
  | S fuel' =>
      let acc' := String (digit_char (n mod 10)) acc in
      if (n / 10 =? 0)%Z then acc' else digits_fuel fuel' (n / 10) acc'
  end.

Definition digits (n : Z) : string :=
  digits_fuel (S (Z.to_nat (Z.log2 n))) n EmptyString.

Definition Number_toString (n : Z) : string :=
  if (n <? 0)%Z then "-" +:+ digits (- n) else digits n.

(** *** Doubles

    A number is an IEEE 754 binary64 value.  The generators only meet
    finite, non-negative ones: such a double is [mant * 2 ^ expo] for a
    mantissa below [2 ^ 53] and an exponent from [-1074] (that of the
    smallest subnormal) to [971] (that of the largest double). *)
Record Double : Type := mkDouble { mant : Z; expo : Z }.

Definition is_double (d : Double) : Prop :=
  (0 <= mant d < 2 ^ 53)%Z /\ (-1074 <= expo d <= 971)%Z.

(** [d < 1]. *)
Definition below_one (d : Double) : Prop :=
  ((0 <= expo d -> mant d = 0)
   /\ (expo d < 0 -> mant d < 2 ^ (- expo d)))%Z.

(** What [Math.random()] returns: a double, at least 0 and below 1. *)
Definition unit_double (d : Double) : Prop := is_double d /\ below_one d.

(** The double nearest to [M * 2 ^ e], ties to the even mantissa (the
    default rounding of every arithmetic operation), for [0 <= M] and
    [-1074 <= e].  A mantissa of at most 53 bits is kept; a longer one loses
    its [s] low bits, and the kept part goes up by one when the lost part
    is above half a unit, or is half a unit and the kept part is odd; a
    kept part that reaches [2 ^ 53] is [2 ^ 52] at the next exponent. *)
Definition round_to_nearest_even (M e : Z) : Double :=
  let s := (Z.log2 M - 52)%Z in
  if (s <=? 0)%Z then mkDouble M e
  else
    let q := (M / 2 ^ s)%Z in
    let r := (M mod 2 ^ s)%Z in
    let half := (2 ^ (s - 1))%Z in
    let q' := if (r <? half)%Z then q
              else if (half <? r)%Z then (q + 1)%Z
              else if Z.even q then q else (q + 1)%Z in
    if (q' =? 2 ^ 53)%Z then mkDouble (2 ^ 52) (e + s + 1)
    else mkDouble q' (e + s).

(** [d * n] for an integer [n] below [2 ^ 53], which is a double itself:
    the exact product [(mant d * n) * 2 ^ expo d], rounded. *)
Definition Double_mul_Z (d : Double) (n : Z) : Double :=
  round_to_nearest_even (mant d * n) (expo d).

(** [Math.floor], which is exact. *)
Definition Math_floor (d : Double) : Z :=
  if (0 <=? expo d)%Z then (mant d * 2 ^ expo d)%Z
  else (mant d / 2 ^ (- expo d))%Z.

(** The double nearest to one third, and the largest double below one. *)
Definition oneThird : Double := mkDouble 6004799503160661 (-54).
Definition belowOne : Double := mkDouble 9007199254740991 (-53).

(** A double as a value of the Standard Library's specification of
    IEEE 754 arithmetic, whose multiplication at precision 53 and maximal
    exponent 1024 the rounding above is compared with. *)
Definition to_spec_float (d : Double) : spec_float :=
  match mant d with
  | Zpos m => S754_finite false m (expo d)
  | _ => S754_zero false
  end.

(** ** Strings *)

Fixpoint repeat_string (n : nat) (s : string) : string :=
  match n with
  | O => EmptyString
  | S n' => s +:+ repeat_string n' s
  end.

Fixpoint take (n : nat) (s : string) : string :=
  match n, s with
  | S n', String c s' => String c (take n' s')
  | _, _ => EmptyString
  end.

(** [s.padStart(targetLength, padString)]: when [s] is shorter than the
    target, the pad string is repeated and truncated to fill the gap. *)
Definition padStart (targetLength : nat) (padString : string) (s : string)
  : string :=
  let len := String.length s in
  if (targetLength <=? len)%nat then s
  else if (String.length padString =? 0)%nat then s
  else take (targetLength - len)
            (repeat_string (targetLength - len) padString) +:+ s.

(** [s.charAt(i)]: the one-character string at index [i], or the empty
    string when [i] is out of range. *)
Definition charAt (s : string) (i : Z) : string :=
  if (i <? 0)%Z then EmptyString
  else match String.get (Z.to_nat i) s with
       | Some c => String c EmptyString
       | None => EmptyString
       end.

(** [s.split(sep)[0]] for a one-character separator: the part of [s] before
    the first occurrence of [sep] (all of [s] when there is none). *)
Fixpoint split_head (sep : ascii) (s : string) : string :=
  match s with
  | EmptyString => EmptyString
  | String c s' => if Ascii.eqb c sep then EmptyString
                   else String c (split_head sep s')
  end.

(** [contains s t]: [t] occurs in [s] as a substring. *)
Definition contains (s t : string) : Prop :=
  exists pre suf, s = pre +:+ t +:+ suf.

(** ** Values

    Numbers are the integer-valued doubles and [NaN], the one value that is
    not strictly equal to itself.  Objects and arrays are compared by
    identity, so a value of object type is its reference. *)
Inductive JSNum : Type :=
| Finite (z : Z)
| NaN.

Inductive JSValue : Type :=
| JSUndefined
| JSNull
| JSBool (b : bool)
| JSNumber (n : JSNum)
| JSString (s : string)
| JSObjectRef (addr : nat).

(** [a === b]. *)
Definition strict_eq (a b : JSValue) : bool :=
  match a, b with
  | JSUndefined, JSUndefined => true
  | JSNull, JSNull => true
  | JSBool x, JSBool y => Bool.eqb x y
  | JSNumber (Finite x), JSNumber (Finite y) => (x =? y)%Z
  | JSString x, JSString y => String.eqb x y
  | JSObjectRef x, JSObjectRef y => (x =? y)%nat
  | _, _ => false
  end.

(** An object as the helpers see it: its own enumerable properties in the
    order [Object.entries] yields them, and the property tables of the
    objects on its prototype chain, nearest first. *)
Record JSObject : Type := Obj {
  own : list (string * JSValue);
  protoChain : list (list (string * JSValue))
}.

Definition Object_entries (o : JSObject) : list (string * JSValue) := own o.

Fixpoint assoc (key : string) (l : list (string * JSValue)) : option JSValue :=
  match l with
  | [] => None
  | (k, v) :: l' => if String.eqb k key then Some v else assoc key l'
  end.

Fixpoint lookup_chain (key : string) (tables : list (list (string * JSValue)))
  : JSValue :=
  match tables with
  | [] => JSUndefined
  | t :: rest => match assoc key t with
                 | Some v => v
                 | None => lookup_chain key rest
                 end
  end.

(** [o[key]]: an own property, else the prototype chain, else [undefined]. *)
Definition getProp (o : JSObject) (key : string) : JSValue :=
  lookup_chain key (own o :: protoChain o).

Section ToString.
(** String conversion of an object depends on the object's own
    [toString]; it is a parameter of the embedding. *)
Variable objectToString : nat -> string.

(** The conversion a template literal applies to an interpolated value. *)
Definition ToString (v : JSValue) : string :=
  match v with
  | JSUndefined => "undefined"
  | JSNull => "null"
  | JSBool true => "true"
  | JSBool false => "false"
  | JSNumber (Finite z) => Number_toString z
  | JSNumber NaN => "NaN"
  | JSString s => s
  | JSObjectRef a => objectToString a
  end.
End ToString.

(** A JavaScript truthiness test on an optional string property:
    [undefined] and the empty string are falsy. *)
Definition truthy (v : option string) : bool :=
  match v with
  | Some s => negb (String.eqb s EmptyString)
  | None => false
  end.

End JS.

(* ===================================================================== *)
(** * [src/utils/apiClient.ts]                                            *)
(* ===================================================================== *)

Module ApiClient.
Import JS.

(** ** The HTTP layer the client consumes

    A request as the request context receives it: the verb, the URL given
    to the verb method and the [data] option when there is one. *)
Inductive Verb : Type := GET | POST | PATCH | DELETE.

Record HttpRequest : Type := mkRequest {
  verb : Verb;
  url : string;
  data : option JSObject
}.

(** What the client reads of a response: [response.status()]. *)
Record APIResponse : Type := mkResponse { status : Z }.

(** The context [request.newContext] builds.  Every call builds a new
    object; [contextId] tells the contexts of a network apart. *)
Record APIRequestContext : Type := mkContext {
  contextId : nat;
  ctx_baseURL : string;
  extraHTTPHeaders : list (string * string);
  ignoreHTTPSErrors : bool
}.

(** The network: the requests issued so far, oldest first, the number of
    request contexts created and the contexts disposed of. *)
Record Network : Type := mkNetwork {
  issued : list HttpRequest;
  created : nat;
  disposed : list nat
}.

(** The fields of a [DmsApiClient] instance. *)
Record DmsApiClient : Type := mkClient {
  apiContext : option APIRequestContext;
  baseURL : string;
  authToken : string
}.

Section Client.
(** The system under test answers a request with a response, or the call
    fails (connection refused, timeout). *)
Variable server : APIRequestContext -> HttpRequest -> Result APIResponse.
(** [new URLSearchParams(filters).toString()]. *)
Variable URLSearchParams_toString : list (string * string) -> string.

(** What the engine throws when a request is made on a context that has
    been disposed of. *)
Variable contextDisposed : JSError.

Definition is_disposed (ctx : APIRequestContext) (net : Network) : bool :=
  existsb (Nat.eqb (contextId ctx)) (disposed net).

(** [context.get/post/patch/delete]: on a live context the request goes
    out, then the answer comes back; a disposed context rejects the call
    and nothing is sent. *)
Definition send (ctx : APIRequestContext) (r : HttpRequest) (net : Network)
  : Result APIResponse * Network :=
  if is_disposed ctx net then (Throw contextDisposed, net)
  else (server ctx r,
        mkNetwork (issued net ++ [r]) (created net) (disposed net)).

Definition constructor (auth_baseUrl auth_token : string) : DmsApiClient :=
  mkClient None auth_baseUrl auth_token.

Definition init (c : DmsApiClient) (net : Network)
  : DmsApiClient * Network :=
  (mkClient
     (Some (mkContext (created net) (baseURL c)
              [("Authorization", "Bearer " +:+ authToken c);
               ("Content-Type", "application/json")]
              true))
     (baseURL c) (authToken c),
   mkNetwork (issued net) (S (created net)) (disposed net)).

(** [dispose()]: the request context, when there is one, is disposed of;
    the field [apiContext] is left as it is. *)
Definition dispose (c : DmsApiClient) (net : Network)
  : DmsApiClient * Network :=
  match apiContext c with
  | Some context =>
      (c, mkNetwork (issued net) (created net)
            (disposed net ++ [contextId context]))
  | None => (c, net)
  end.

Definition getContext (c : DmsApiClient) : Result APIRequestContext :=
  match apiContext c with
  | None =>
      Throw (Error
        "API context not initialized. Call init() before making requests.")
  | Some ctx => Ok ctx
  end.

(** Every operation has the shape
    [const context = this.getContext(); return await context.verb(...)]. *)
Definition withContext (c : DmsApiClient) (r : HttpRequest) (net : Network)
  : Result APIResponse * Network :=
  match getContext c with
  | Throw e => (Throw e, net)
  | Ok context => send context r net
  end.

Definition getRepairOrders (c : DmsApiClient) :=
  withContext c (mkRequest GET "/repair-orders" None).

Definition getRepairOrderById (c : DmsApiClient) (orderId : string) :=
  withContext c (mkRequest GET ("/repair-orders/" +:+ orderId) None).

Definition createRepairOrder (c : DmsApiClient) (orderData : JSObject) :=
  withContext c (mkRequest POST "/repair-orders" (Some orderData)).

Definition updateRepairOrder (c : DmsApiClient) (orderId : string)
  (updateData : JSObject) :=
  withContext c
    (mkRequest PATCH ("/repair-orders/" +:+ orderId) (Some updateData)).

Definition deleteRepairOrder (c : DmsApiClient) (orderId : string) :=
  withContext c (mkRequest DELETE ("/repair-orders/" +:+ orderId) None).

Definition searchRepairOrders (c : DmsApiClient)
  (filters : list (string * string)) (net : Network) :=
  match getContext c with
  | Throw e => (Throw e, net)
  | Ok context =>
      let queryParams := URLSearchParams_toString filters in
      send context (mkRequest GET ("/repair-orders?" +:+ queryParams) None) net
  end.

Definition getAppointments (c : DmsApiClient) :=
  withContext c (mkRequest GET "/appointments" None).

Definition getAppointmentById (c : DmsApiClient) (appointmentId : string) :=
  withContext c (mkRequest GET ("/appointments/" +:+ appointmentId) None).

Definition createAppointment (c : DmsApiClient) (appointmentData : JSObject) :=
  withContext c (mkRequest POST "/appointments" (Some appointmentData)).

Definition updateAppointment (c : DmsApiClient) (appointmentId : string)
  (updateData : JSObject) :=
  withContext c
    (mkRequest PATCH ("/appointments/" +:+ appointmentId) (Some updateData)).

Definition cancelAppointment (c : DmsApiClient) (appointmentId : string) :=
  withContext c (mkRequest DELETE ("/appointments/" +:+ appointmentId) None).

Definition authenticate (c : DmsApiClient) (username password : string) :=
  withContext c
    (mkRequest POST "/auth/login"
       (Some (Obj [("username", JSString username);
                   ("password", JSString password)] []))).

Definition validateToken (c : DmsApiClient) :=
  withContext c (mkRequest GET "/auth/validate" None).

Definition get (c : DmsApiClient) (endpoint : string) :=
  withContext c (mkRequest GET endpoint None).

Definition post (c : DmsApiClient) (endpoint : string) (payload : JSObject) :=
  withContext c (mkRequest POST endpoint (Some payload)).

Definition patch (c : DmsApiClient) (endpoint : string) (payload : JSObject) :=
  withContext c (mkRequest PATCH endpoint (Some payload)).

Definition delete (c : DmsApiClient) (endpoint : string) :=
  withContext c (mkRequest DELETE endpoint None).

(** A call of one of the request-issuing methods, with its arguments. *)
Inductive ApiCall : Type :=
| GetRepairOrders
| GetRepairOrderById (orderId : string)
| CreateRepairOrder (orderData : JSObject)
| UpdateRepairOrder (orderId : string) (updateData : JSObject)
| DeleteRepairOrder (orderId : string)
| SearchRepairOrders (filters : list (string * string))
| GetAppointments
| GetAppointmentById (appointmentId : string)
| CreateAppointment (appointmentData : JSObject)
| UpdateAppointment (appointmentId : string) (updateData : JSObject)
| CancelAppointment (appointmentId : string)
| Authenticate (username password : string)
| ValidateToken
| Get (endpoint : string)
| Post (endpoint : string) (payload : JSObject)
| Patch (endpoint : string) (payload : JSObject)
| Delete (endpoint : string).

Definition invoke (c : DmsApiClient) (call : ApiCall)
  : Network -> Result APIResponse * Network :=
  match call with
  | GetRepairOrders => getRepairOrders c
  | GetRepairOrderById orderId => getRepairOrderById c orderId
  | CreateRepairOrder orderData => createRepairOrder c orderData
  | UpdateRepairOrder orderId updateData =>
      updateRepairOrder c orderId updateData
  | DeleteRepairOrder orderId => deleteRepairOrder c orderId
  | SearchRepairOrders filters => searchRepairOrders c filters
  | GetAppointments => getAppointments c
  | GetAppointmentById appointmentId => getAppointmentById c appointmentId
  | CreateAppointment appointmentData => createAppointment c appointmentData
  | UpdateAppointment appointmentId updateData =>
      updateAppointment c appointmentId updateData
  | CancelAppointment appointmentId => cancelAppointment c appointmentId
  | Authenticate username password => authenticate c username password
  | ValidateToken => validateToken c
  | Get endpoint => get c endpoint
  | Post endpoint payload => post c endpoint payload
  | Patch endpoint payload => patch c endpoint payload
  | Delete endpoint => delete c endpoint
  end.

End Client.

(** ** Response validation helpers *)

Definition assertStatus (response : APIResponse) (expectedStatus : Z)
  : Result unit :=
  let actualStatus := status response in
  if negb (actualStatus =? expectedStatus)%Z then
    Throw (Error ("Expected status " +:+ Number_toString expectedStatus
                  +:+ ", but got " +:+ Number_toString actualStatus))
  else Ok tt.

Section Contains.
Variable objectToString : nat -> string.

Definition mismatch_message (key : string) (expectedValue actualValue : JSValue)
  : string :=
  "Expected " +:+ key +:+ " to be " +:+ dquote
  +:+ ToString objectToString expectedValue +:+ dquote +:+ ", but got "
  +:+ dquote +:+ ToString objectToString actualValue +:+ dquote.

(** The [for ... of Object.entries(expectedData)] loop. *)
Fixpoint assertEntries (responseBody : JSObject)
  (entries : list (string * JSValue)) : Result unit :=
  match entries with
  | [] => Ok tt
  | (key, expectedValue) :: rest =>
      let actualValue := getProp responseBody key in
      if negb (strict_eq actualValue expectedValue) then
        Throw (Error (mismatch_message key expectedValue actualValue))
      else assertEntries responseBody rest
  end.

Definition assertResponseContains (responseBody expectedData : JSObject)
  : Result unit :=
  assertEntries responseBody (Object_entries expectedData).

End Contains.

(** The error [getContext] throws on a client that was not initialised. *)
Definition notInitialized : JSError :=
  Error "API context not initialized. Call init() before making requests.".

(** For the examples: a network on which nothing has happened yet, and an
    error for the engine to throw on a disposed context. *)
Definition quietNetwork : Network := mkNetwork [] 0 [].
Definition requestContextDisposed : JSError :=
  Error "Target page, context or browser has been closed".

(** The client of the test suites, initialised on the quiet network, the
    network as that leaves it, and the network after the client has then
    fetched the repair orders. *)
Definition testClient : DmsApiClient :=
  fst (init (constructor "https://api.example-dms.com/v1" "default-test-token")
         quietNetwork).
Definition networkAfterInit : Network :=
  snd (init (constructor "https://api.example-dms.com/v1" "default-test-token")
         quietNetwork).
Definition networkAfterOneCall : Network :=
  mkNetwork [mkRequest GET "/repair-orders" None] 1 [].

End ApiClient.

(* ===================================================================== *)
(** * ECMAScript dates                                                    *)
(* ===================================================================== *)

Module JSDate.
Import JS.

(** A [Date] holds a time value: milliseconds since 1970-01-01T00:00:00Z.
    The time values handled here stay inside the range of valid dates. *)
Definition msPerDay : Z := 86400000.

Definition Day (t : Z) : Z := t / msPerDay.
Definition TimeWithinDay (t : Z) : Z := t mod msPerDay.

(** 1970-01-01 was a Thursday; Sunday is 0. *)
Definition WeekDay (t : Z) : Z := (Day t + 4) mod 7.

(** The proleptic Gregorian calendar date (year, month 1..12, day 1..31) of
    a day number, and back. *)
Definition civil_from_days (days : Z) : Z * Z * Z :=
  let z := days + 719468 in
  let era := z / 146097 in
  let doe := z - era * 146097 in
  let yoe := (doe - doe / 1460 + doe / 36524 - doe / 146096) / 365 in
  let y := yoe + era * 400 in
  let doy := doe - (365 * yoe + yoe / 4 - yoe / 100) in
  let mp := (5 * doy + 2) / 153 in
  let d := doy - (153 * mp + 2) / 5 + 1 in
  let m := if (mp <? 10)%Z then mp + 3 else mp - 9 in
  (if (m <=? 2)%Z then y + 1 else y, m, d).

Definition days_from_civil (y m d : Z) : Z :=
  let y' := if (m <=? 2)%Z then y - 1 else y in
  let era := y' / 400 in
  let yoe := y' - era * 400 in
  let mp := if (2 <? m)%Z then m - 3 else m + 9 in
  let doy := (153 * mp + 2) / 5 + d - 1 in
  let doe := yoe * 365 + yoe / 4 - yoe / 100 + doy in
  era * 146097 + doe - 719468.

Definition YearFromTime (t : Z) : Z :=
  let '(y, _, _) := civil_from_days (Day t) in y.
(** Months are numbered from 0 (January). *)
Definition MonthFromTime (t : Z) : Z :=
  let '(_, m, _) := civil_from_days (Day t) in m - 1.
Definition DateFromTime (t : Z) : Z :=
  let '(_, _, d) := civil_from_days (Day t) in d.

Definition HourFromTime (t : Z) : Z := (t / 3600000) mod 24.
Definition MinFromTime (t : Z) : Z := (t / 60000) mod 60.
Definition SecFromTime (t : Z) : Z := (t / 1000) mod 60.
Definition msFromTime (t : Z) : Z := t mod 1000.

(** [MakeDay(year, month, date)] and [MakeDate(day, time)]. *)
Definition MakeDay (year month date : Z) : Z :=
  let ym := year + month / 12 in
  let mn := month mod 12 in
  days_from_civil ym (mn + 1) 1 + date - 1.

Definition MakeDate (day time : Z) : Z := day * msPerDay + time.

Definition pad (width : nat) (n : Z) : string :=
  padStart width "0" (Number_toString n).

(** [Date.prototype.toISOString]: the UTC date and time; years outside
    0..9999 print with a sign and six digits. *)
Definition isoYear (y : Z) : string :=
  if ((0 <=? y) && (y <=? 9999))%Z then pad 4 y
  else if (y <? 0)%Z then "-" +:+ pad 6 (- y)
  else "+" +:+ pad 6 y.

Definition toISOString (t : Z) : string :=
  isoYear (YearFromTime t) +:+ "-" +:+ pad 2 (MonthFromTime t + 1)
  +:+ "-" +:+ pad 2 (DateFromTime t)
  +:+ "T" +:+ pad 2 (HourFromTime t) +:+ ":" +:+ pad 2 (MinFromTime t)
  +:+ ":" +:+ pad 2 (SecFromTime t) +:+ "." +:+ pad 3 (msFromTime t) +:+ "Z".

Section Local.
(** [LocalTZA(t, isUTC)]: the offset of local time from UTC, in
    milliseconds, at the instant [t]. *)
Variable LocalTZA : Z -> bool -> Z.

Definition LocalTime (t : Z) : Z := t + LocalTZA t true.
Definition UTC (t : Z) : Z := t - LocalTZA t false.

Definition getDay (d : Z) : Z := WeekDay (LocalTime d).
Definition getDate (d : Z) : Z := DateFromTime (LocalTime d).
Definition getFullYear (d : Z) : Z := YearFromTime (LocalTime d).

(** [d.setDate(date)]: the day of the month is replaced in local time. *)
Definition setDate (d : Z) (date : Z) : Z :=
  let t := LocalTime d in
  let newDate :=
    MakeDate (MakeDay (YearFromTime t) (MonthFromTime t) date)
             (TimeWithinDay t) in
  UTC newDate.
End Local.

End JSDate.

(* ===================================================================== *)
(** * [src/utils/testData.ts]                                             *)
(* ===================================================================== *)

Module TestData.
Import JS JSDate.

Section Generators.
(** The runtime the generators read: the time zone, the instant
    [new Date()] observes, and the values successive calls of
    [Math.random()] return. *)
Variable LocalTZA : Z -> bool -> Z.
Variable now : Z.
Variable random : nat -> Double.

(** [Math.random()], the state being the number of values drawn so far.
    Each value is a double, at least 0 and below 1. *)
Definition Math_random (drawn : nat) : Double * nat :=
  (random drawn, S drawn).

Definition getNextBusinessDay : string :=
  let today := now in
  let daysToAdd := 1 in
  let daysToAdd := if (getDay LocalTZA today =? 5)%Z then 3 else daysToAdd in
  let daysToAdd := if (getDay LocalTZA today =? 6)%Z then 2 else daysToAdd in
  let nextDay := today in
  let nextDay :=
    setDate LocalTZA nextDay (getDate LocalTZA today + daysToAdd) in
  split_head "T"%char (toISOString nextDay).

Definition chars : string := "ABCDEFGHJKLMNPRSTUVWXYZ0123456789".

(** The body of [for (let i = 0; i < 17; i++)], [iterations] times. *)
Fixpoint vin_loop (iterations : nat) (vin : string) (drawn : nat)
  : string * nat :=
  match iterations with
  | O => (vin, drawn)
  | S iterations' =>
      let '(r, drawn') := Math_random drawn in
      let vin' :=
        vin +:+ charAt chars
                  (Math_floor
                     (Double_mul_Z r (Z.of_nat (String.length chars))))
      in
      vin_loop iterations' vin' drawn'
  end.

Definition generateRandomVIN (drawn : nat) : string * nat :=
  vin_loop 17 EmptyString drawn.

Definition generateOrderNumber (drawn : nat) : string * nat :=
  let year := getFullYear LocalTZA now in
  let '(r, drawn') := Math_random drawn in
  let random :=
    padStart 5 "0" (Number_toString (Math_floor (Double_mul_Z r 99999))) in
  ("RO-" +:+ Number_toString year +:+ "-" +:+ random, drawn').

End Generators.

(** ** What the specification asks of the generated values *)

Definition is_digit (c : ascii) : bool :=
  let n := nat_of_ascii c in ((48 <=? n) && (n <=? 57))%nat.

Definition is_upper (c : ascii) : bool :=
  let n := nat_of_ascii c in ((65 <=? n) && (n <=? 90))%nat.

(** The character class [[A-HJ-NPR-Z0-9]]. *)
Definition vin_legal (c : ascii) : bool :=
  let n := nat_of_ascii c in
  is_digit c
  || (((65 <=? n) && (n <=? 72)) || ((74 <=? n) && (n <=? 78))
      || (n =? 80) || ((82 <=? n) && (n <=? 90)))%nat.

Fixpoint all_chars (p : ascii -> bool) (s : string) : bool :=
  match s with
  | EmptyString => true
  | String c s' => p c && all_chars p s'
  end.

(** A matcher for the anchored regular expression [^RO-\d{4}-\d{5}$]. *)
Fixpoint match_digits (n : nat) (s : string) : option string :=
  match n with
  | O => Some s
  | S n' => match s with
            | String c s' => if is_digit c then match_digits n' s' else None
            | EmptyString => None
            end
  end.

Definition match_literal (lit s : string) : option string :=
  if String.prefix lit s
  then Some (String.substring (String.length lit)
               (String.length s - String.length lit) s)
  else None.

Definition matches_order_number (s : string) : bool :=
  match match_literal "RO-" s with
  | Some s1 =>
      match match_digits 4 s1 with
      | Some s2 =>
          match match_literal "-" s2 with
          | Some s3 =>
              match match_digits 5 s3 with
              | Some EmptyString => true
              | _ => false
              end
          | None => false
          end
      | None => false
      end
  | None => false
  end.

(** Spec side of the next-business-day helper: the local calendar date
    that is [n] days after the local date of [t], as YYYY-MM-DD. *)
Definition dateString (date : Z * Z * Z) : string :=
  let '(y, m, d) := date in
  isoYear y +:+ "-" +:+ pad 2 m +:+ "-" +:+ pad 2 d.

Definition local_date_plus (LocalTZA : Z -> bool -> Z) (t n : Z) : string :=
  dateString (civil_from_days (Day (LocalTime LocalTZA t) + n)).

(** The characters other than the separator of date and time. *)
Definition not_T (c : ascii) : bool := negb (Ascii.eqb c "T"%char).

(** The following Monday after a Friday or a Saturday, tomorrow
    otherwise. *)
Definition spec_nextBusinessDay (LocalTZA : Z -> bool -> Z) (t : Z) : string :=
  let wd := WeekDay (LocalTime LocalTZA t) in
  local_date_plus LocalTZA t
    (if (wd =? 5)%Z then 3 else if (wd =? 6)%Z then 2 else 1).

(** ** Time zones used in the examples *)

(** Five hours behind UTC (US Central daylight time). *)
Definition centralDaylight : Z -> bool -> Z := fun _ _ => -18000000.
(** Two hours ahead of UTC (Central European summer time). *)
Definition centralEuropeanSummer : Z -> bool -> Z := fun _ _ => 7200000.
Definition utc : Z -> bool -> Z := fun _ _ => 0.

End TestData.

(* ===================================================================== *)
(** * [src/pages/BasePage.ts]                                             *)
(* ===================================================================== *)

Module BasePage.
Import JS.

(** A locator is the selector it was built from; [parent.locator(child)]
    chains two selectors. *)
Definition Locator : Type := string.

Definition chain (parent child : Locator) : Locator :=
  parent +:+ " >> " +:+ child.

Inductive ElementState : Type := Absent | Hidden | Visible.

Definition is_visible (s : ElementState) : bool :=
  match s with Visible => true | _ => false end.

Definition attached (s : ElementState) : bool :=
  match s with Absent => false | _ => true end.

(** The application under test, as the automation engine drives and
    observes it.  Time is counted in milliseconds. *)
Class Application (A : Type) : Type := {
  (** presence and visibility of the element a locator resolves to *)
  state_of : Locator -> A -> ElementState;
  (** the element passes the engine's actionability checks *)
  actionable : Locator -> A -> bool;
  (** the application's reaction to the engine's actions *)
  on_click : Locator -> A -> A;
  on_fill : Locator -> string -> A -> A;
  on_select : Locator -> string -> A -> A;
  (** the application's own evolution while the test waits *)
  elapse : nat -> A -> A;
  (** [node.textContent], [null] being [None] *)
  text_of : Locator -> A -> option string;
  (** the engine's default timeout *)
  defaultTimeout : nat
}.

(** The calls a page object makes to the automation engine. *)
Inductive EngineCall : Type :=
| CallClick (l : Locator)
| CallFill (l : Locator) (text : string)
| CallSelectOption (l : Locator) (value : string)
| CallWaitFor (l : Locator) (timeout : nat)
| CallTextContent (l : Locator)
| CallWaitForTimeout (ms : nat)
| CallWaitForLoadState (state : string).

(** The browser a page object holds: the application and the engine calls
    made so far, oldest first. *)
Record Browser (A : Type) : Type := mkBrowser {
  app : A;
  calls : list EngineCall
}.
Arguments mkBrowser {A} app calls.
Arguments app {A} b.
Arguments calls {A} b.

(** An awaited asynchronous method. *)
Definition Async (A X : Type) : Type := Browser A -> Result X * Browser A.

Definition ret {A X} (x : X) : Async A X := fun b => (Ok x, b).

Definition bind {A X Y} (m : Async A X) (k : X -> Async A Y) : Async A Y :=
  fun b => match m b with
           | (Ok x, b') => k x b'
           | (Throw e, b') => (Throw e, b')
           end.

Definition throw {A X} (e : JSError) : Async A X := fun b => (Throw e, b).

(** [try { body } catch { handler }]. *)
Definition try_catch {A X} (body handler : Async A X) : Async A X :=
  fun b => match body b with
           | (Ok x, b') => (Ok x, b')
           | (Throw _, b') => handler b'
           end.

Definition record {A} (c : EngineCall) : Async A unit :=
  fun b => (Ok tt, mkBrowser (app b) (calls b ++ [c])).

Definition update {A} (f : A -> A) : Async A unit :=
  fun b => (Ok tt, mkBrowser (f (app b)) (calls b)).

Definition observe {A X} (f : A -> X) : Async A X :=
  fun b => (Ok (f (app b)), b).

Declare Scope async_scope.
Delimit Scope async_scope with async.
Notation "'const' x ':=' 'await' m ';' k" := (bind m (fun x => k))
  (at level 10, x name, m at level 100, k at level 200) : async_scope.
Notation "'await' m ';' k" := (bind m (fun _ => k))
  (at level 10, m at level 100, k at level 200) : async_scope.

Section Engine.
Context {A : Type} `{Application A}.
Local Open Scope async_scope.

(** ** The engine's primitives *)

(** The least delay [t <= timeout] after which the element is visible,
    searching upwards from [t]. *)
Fixpoint first_visible (l : Locator) (a : A) (t : nat) (fuel : nat)
  : option nat :=
  if is_visible (state_of l (elapse t a)) then Some t
  else match fuel with
       | O => None
       | S fuel' => first_visible l a (S t) fuel'
       end.

(** [locator.waitFor({ state: "visible", timeout })]. *)
Definition locator_waitFor_visible (l : Locator) (timeout : option nat)
  : Async A unit :=
  let limit := match timeout with
               | Some t => t
               | None => defaultTimeout
               end in
  await record (CallWaitFor l limit);
  const a := await observe (fun a => a);
  match first_visible l a 0 limit with
  | Some t => update (elapse t)
  | None =>
      await update (elapse limit);
      throw (TimeoutError "locator.waitFor: Timeout exceeded.")
  end.

(** The least delay [t], searching upwards from [t] for [fuel] more
    milliseconds, after which the application satisfies [p]. *)
Fixpoint first_instant (p : A -> bool) (a : A) (t : nat) (fuel : nat)
  : option nat :=
  if p (elapse t a) then Some t
  else match fuel with
       | O => None
       | S fuel' => first_instant p a (S t) fuel'
       end.

(** The engine's automatic wait for a condition on the page: it goes on at
    once when the condition holds at the instant of the call, and else
    after the least delay of at most [limit] that makes it hold.  The
    result is the application as the wait leaves it, or [None] when the
    condition does not hold at any instant up to [limit]. *)
Definition wait_until (p : A -> bool) (a : A) (limit : nat) : option A :=
  if p a then Some a
  else match limit with
       | O => None
       | S fuel =>
           match first_instant p a 1 fuel with
           | Some t => Some (elapse t a)
           | None => None
           end
       end.

(** An action waits for the element to be actionable and fails when it
    does not become so within the timeout. *)
Definition acting (l : Locator) (c : EngineCall) (effect : A -> A)
  (what : string) : Async A unit :=
  await record c;
  const a := await observe (fun a => a);
  match wait_until (actionable l) a defaultTimeout with
  | Some ready => update (fun _ => effect ready)
  | None =>
      await update (elapse defaultTimeout);
      throw (TimeoutError (what +:+ ": Timeout exceeded."))
  end.

Definition locator_click (l : Locator) : Async A unit :=
  acting l (CallClick l) (on_click l) "locator.click".

Definition locator_fill (l : Locator) (text : string) : Async A unit :=
  acting l (CallFill l text) (on_fill l text) "locator.fill".

Definition locator_selectOption (l : Locator) (value : string)
  : Async A unit :=
  acting l (CallSelectOption l value) (on_select l value)
    "locator.selectOption".

(** [locator.textContent()] waits for the element to be attached. *)
Definition locator_textContent (l : Locator) : Async A (option string) :=
  await record (CallTextContent l);
  const a := await observe (fun a => a);
  match wait_until (fun a => attached (state_of l a)) a defaultTimeout with
  | Some ready =>
      await update (fun _ => ready);
      observe (text_of l)
  | None =>
      await update (elapse defaultTimeout);
      throw (TimeoutError "locator.textContent: Timeout exceeded.")
  end.

Definition page_waitForTimeout (ms : nat) : Async A unit :=
  await record (CallWaitForTimeout ms);
  update (elapse ms).

(** ** The methods of [BasePage] *)

Definition waitForElement (locator : Locator) (timeout : option nat)
  : Async A unit :=
  locator_waitFor_visible locator timeout.

Definition isVisible (locator : Locator) : Async A bool :=
  try_catch
    (await locator_waitFor_visible locator (Some 5000%nat); ret true)
    (ret false).

Definition click (locator : Locator) : Async A unit :=
  locator_click locator.

Definition fill (locator : Locator) (text : string) : Async A unit :=
  locator_fill locator text.

Definition selectDropdown (locator : Locator) (value : string)
  : Async A unit :=
  locator_selectOption locator value.

(** The text content, or the empty string when it is [null] or empty. *)
Definition getText (locator : Locator) : Async A string :=
  const t := await locator_textContent locator;
  ret (if truthy t then default EmptyString t else EmptyString).

Definition wait (milliseconds : nat) : Async A unit :=
  page_waitForTimeout milliseconds.

End Engine.

(** The element an engine call acts on, and the text a write carries. *)
Definition written (c : EngineCall) : option (Locator * string) :=
  match c with
  | CallFill l text => Some (l, text)
  | CallSelectOption l value => Some (l, value)
  | _ => None
  end.

End BasePage.

(* ===================================================================== *)
(** * [src/pages/RepairOrdersPage.ts]                                     *)
(* ===================================================================== *)

Module RepairOrdersPage.
Import JS BasePage.

(** [tag[attr="value"]] *)
Definition attr_selector (tag attr value : string) : string :=
  tag +:+ "[" +:+ attr +:+ "=" +:+ dquote +:+ value +:+ dquote +:+ "]".

(** The locators of the create/edit form, as the constructor builds them. *)
Definition customerNameInput : Locator :=
  attr_selector "input" "name" "customerName".
Definition vehicleVinInput : Locator :=
  attr_selector "input" "name" "vehicleVin".
Definition vehicleMakeInput : Locator :=
  attr_selector "input" "name" "vehicleMake".
Definition vehicleModelInput : Locator :=
  attr_selector "input" "name" "vehicleModel".
Definition vehicleYearInput : Locator :=
  attr_selector "input" "name" "vehicleYear".
Definition descriptionInput : Locator :=
  attr_selector "textarea" "name" "description".
Definition estimatedCostInput : Locator :=
  attr_selector "input" "name" "estimatedCost".
Definition statusDropdown : Locator :=
  attr_selector "select" "name" "status".

(** The argument of [fillRepairOrderForm]: every property is optional. *)
Record OrderData : Type := mkOrderData {
  customerName : option string;
  vehicleVin : option string;
  vehicleMake : option string;
  vehicleModel : option string;
  vehicleYear : option string;
  description : option string;
  estimatedCost : option string;
  status : option string
}.

Section Methods.
Context {A : Type} `{Application A}.
Local Open Scope async_scope.

(** [if (v) { await action(v); }] on an optional string property. *)
Definition if_truthy (v : option string) (action : string -> Async A unit)
  : Async A unit :=
  if truthy v then action (default EmptyString v) else ret tt.

Definition fillRepairOrderForm (orderData : OrderData) : Async A unit :=
  await if_truthy (customerName orderData) (fill customerNameInput);
  await if_truthy (vehicleVin orderData) (fill vehicleVinInput);
  await if_truthy (vehicleMake orderData) (fill vehicleMakeInput);
  await if_truthy (vehicleModel orderData) (fill vehicleModelInput);
  await if_truthy (vehicleYear orderData) (fill vehicleYearInput);
  await if_truthy (description orderData) (fill descriptionInput);
  await if_truthy (estimatedCost orderData) (fill estimatedCostInput);
  if_truthy (status orderData) (selectDropdown statusDropdown).

End Methods.

(** The fields of the form, to speak of "every field". *)
Inductive Field : Type :=
| CustomerName | VehicleVin | VehicleMake | VehicleModel
| VehicleYear | Description | EstimatedCost | Status.

Definition supplied (orderData : OrderData) (f : Field) : option string :=
  match f with
  | CustomerName => customerName orderData
  | VehicleVin => vehicleVin orderData
  | VehicleMake => vehicleMake orderData
  | VehicleModel => vehicleModel orderData
  | VehicleYear => vehicleYear orderData
  | Description => description orderData
  | EstimatedCost => estimatedCost orderData
  | Status => status orderData
  end.

Definition locator_of (f : Field) : Locator :=
  match f with
  | CustomerName => customerNameInput
  | VehicleVin => vehicleVinInput
  | VehicleMake => vehicleMakeInput
  | VehicleModel => vehicleModelInput
  | VehicleYear => vehicleYearInput
  | Description => descriptionInput
  | EstimatedCost => estimatedCostInput
  | Status => statusDropdown
  end.

End RepairOrdersPage.

(* ===================================================================== *)
(** * [src/pages/AppointmentsPage.ts]                                     *)
(* ===================================================================== *)

Module AppointmentsPage.
Import JS BasePage.

Definition attr_selector := RepairOrdersPage.attr_selector.

(** Calendar locators. *)
Definition calendar : Locator :=
  ".calendar, " +:+ attr_selector EmptyString "role" "calendar".
Definition currentMonthLabel : Locator :=
  chain calendar ".month-label, .current-month".
Definition nextMonthButton : Locator :=
  chain calendar
    ("button:has-text(" +:+ dquote +:+ "Next" +:+ dquote +:+ "), .next-month").
Definition previousMonthButton : Locator :=
  chain calendar
    ("button:has-text(" +:+ dquote +:+ "Previous" +:+ dquote
     +:+ "), .prev-month").

(** Form locators. *)
Definition customerNameInput : Locator :=
  attr_selector "input" "name" "customerName".
Definition phoneNumberInput : Locator :=
  attr_selector "input" "name" "phoneNumber" +:+ ", "
  +:+ attr_selector "input" "type" "tel".
Definition emailInput : Locator :=
  attr_selector "input" "name" "email" +:+ ", "
  +:+ attr_selector "input" "type" "email".
Definition serviceTypeDropdown : Locator :=
  attr_selector "select" "name" "serviceType".
Definition vehicleVinInput : Locator :=
  attr_selector "input" "name" "vehicleVin".
Definition preferredDateInput : Locator :=
  attr_selector "input" "name" "preferredDate" +:+ ", "
  +:+ attr_selector "input" "type" "date".
Definition preferredTimeDropdown : Locator :=
  attr_selector "select" "name" "preferredTime".
Definition notesTextarea : Locator :=
  attr_selector "textarea" "name" "notes".

Record AppointmentData : Type := mkAppointmentData {
  customerName : option string;
  phoneNumber : option string;
  email : option string;
  serviceType : option string;
  vehicleVin : option string;
  preferredDate : option string;
  preferredTime : option string;
  notes : option string
}.

Section Methods.
Context {A : Type} `{Application A}.
Local Open Scope async_scope.

Definition if_truthy (v : option string) (action : string -> Async A unit)
  : Async A unit :=
  RepairOrdersPage.if_truthy v action.

Definition getCurrentMonth : Async A string :=
  getText currentMonthLabel.

Definition goToNextMonth : Async A unit :=
  await click nextMonthButton;
  wait 500.

Definition goToPreviousMonth : Async A unit :=
  await click previousMonthButton;
  wait 500.

Definition fillAppointmentForm (appointmentData : AppointmentData)
  : Async A unit :=
  await if_truthy (customerName appointmentData) (fill customerNameInput);
  await if_truthy (phoneNumber appointmentData) (fill phoneNumberInput);
  await if_truthy (email appointmentData) (fill emailInput);
  await if_truthy (serviceType appointmentData)
          (selectDropdown serviceTypeDropdown);
  await if_truthy (vehicleVin appointmentData) (fill vehicleVinInput);
  await if_truthy (preferredDate appointmentData) (fill preferredDateInput);
  await if_truthy (preferredTime appointmentData)
          (selectDropdown preferredTimeDropdown);
  if_truthy (notes appointmentData) (fill notesTextarea).

End Methods.

Inductive Field : Type :=
| CustomerName | PhoneNumber | Email | ServiceType
| VehicleVin | PreferredDate | PreferredTime | Notes.

Definition supplied (appointmentData : AppointmentData) (f : Field)
  : option string :=
  match f with
  | CustomerName => customerName appointmentData
  | PhoneNumber => phoneNumber appointmentData
  | Email => email appointmentData
  | ServiceType => serviceType appointmentData
  | VehicleVin => vehicleVin appointmentData
  | PreferredDate => preferredDate appointmentData
  | PreferredTime => preferredTime appointmentData
  | Notes => notes appointmentData
  end.

Definition locator_of (f : Field) : Locator :=
  match f with
  | CustomerName => customerNameInput
  | PhoneNumber => phoneNumberInput
  | Email => emailInput
  | ServiceType => serviceTypeDropdown
  | VehicleVin => vehicleVinInput
  | PreferredDate => preferredDateInput
  | PreferredTime => preferredTimeDropdown
  | Notes => notesTextarea
  end.

End AppointmentsPage.

(* ===================================================================== *)
(** * Applications under test                                             *)
(* ===================================================================== *)

Module Models.
Import JS BasePage.

(** ** A passive form

    Every locator names one form control; a control holds a value and may
    be disabled.  Writing to a control changes that control only. *)
Record Form : Type := mkForm {
  values : gmap string string;
  disabled : gset string
}.

Definition value_of (l : Locator) (f : Form) : option string :=
  values f !! l.

Definition form_write (l : Locator) (text : string) (f : Form) : Form :=
  mkForm (<[l := text]> (values f)) (disabled f).

#[export] Instance form_application : Application Form := {
  state_of := fun _ _ => Visible;
  actionable := fun l f => bool_decide (l ∉ disabled f);
  on_click := fun _ f => f;
  on_fill := form_write;
  on_select := form_write;
  elapse := fun _ f => f;
  text_of := fun _ _ => None;
  defaultTimeout := 30000
}.

(** ** An element with a visibility timeline

    The page holds one element per locator; [timeline l t] is its state
    [t] milliseconds after the page was opened, [clock] the time elapsed. *)
Record Timed : Type := mkTimed {
  timeline : string -> nat -> ElementState;
  clock : nat
}.

#[export] Instance timed_application : Application Timed := {
  state_of := fun l p => timeline p l (clock p);
  actionable := fun l p => is_visible (timeline p l (clock p));
  on_click := fun _ p => p;
  on_fill := fun _ _ p => p;
  on_select := fun _ _ p => p;
  elapse := fun t p => mkTimed (timeline p) (clock p + t);
  text_of := fun _ _ => None;
  defaultTimeout := 30000
}.

End Models.

(* ===================================================================== *)
(** * What a method may do to the browser                                 *)
(* ===================================================================== *)

Module Effects.
Import JS BasePage Models.

(** [respects R m]: running [m] relates the browser before to the browser
    after, whether [m] returns or throws. *)
Definition respects {A : Type} (R : Browser A -> Browser A -> Prop)
  {X : Type} (m : Async A X) : Prop :=
  forall b, R b (snd (m b)).

Section Allowed.
(** [allowed l text]: the method may write [text] to the control [l]. *)
Variable allowed : Locator -> string -> Prop.

(** The engine calls added are writes, and allowed ones. *)
Definition only_allowed_calls {A : Type} (b b' : Browser A) : Prop :=
  exists new : list EngineCall,
    calls b' = (calls b ++ new)%list
    /\ Forall (fun c => exists l text,
                   written c = Some (l, text) /\ allowed l text) new.

(** On a form, every control holds what it held, or a text the method may
    write there. *)
Definition only_allowed_values (b b' : Browser Form) : Prop :=
  forall l,
    value_of l (app b') = value_of l (app b)
    \/ exists text, allowed l text /\ value_of l (app b') = Some text.
End Allowed.

(** What [fillRepairOrderForm] may write: the text of a property of the
    payload that is present and not empty, to the control of that
    property. *)
Definition repairOrder_may_write (orderData : RepairOrdersPage.OrderData)
  (l : Locator) (text : string) : Prop :=
  exists f, l = RepairOrdersPage.locator_of f
            /\ RepairOrdersPage.supplied orderData f = Some text
            /\ text <> EmptyString.

Definition appointment_may_write
  (appointmentData : AppointmentsPage.AppointmentData)
  (l : Locator) (text : string) : Prop :=
  exists f, l = AppointmentsPage.locator_of f
            /\ AppointmentsPage.supplied appointmentData f = Some text
            /\ text <> EmptyString.

(** A repair-order form in which a VIN was typed already, and the payload
    of an incomplete submission. *)
Definition formWithVin : Browser Form :=
  mkBrowser
    (mkForm {[ RepairOrdersPage.vehicleVinInput := "1FADP3K29JL234567" ]} ∅)
    [].
Definition customerOnly : RepairOrdersPage.OrderData :=
  RepairOrdersPage.mkOrderData (Some "Jane Doe") None None None None None
    None None.
(** A payload that passes the empty string for the VIN. *)
Definition emptyVin : RepairOrdersPage.OrderData :=
  RepairOrdersPage.mkOrderData (Some "Jane Doe") (Some EmptyString) None None
    None None None None.
Definition formWithEmptyVin : Browser Form :=
  mkBrowser
    (mkForm {[ RepairOrdersPage.vehicleVinInput := EmptyString ]} ∅) [].

End Effects.

(* ===================================================================== *)
(** * The rest of [src/utils/apiClient.ts]                                *)
(* ===================================================================== *)

Module ApiClientLifecycle.
Import JS ApiClient.

(** [assertResponseTime], [now] being what [Date.now()] returns. *)
Definition assertResponseTime (now : Z) (startTime maxDuration : Z)
  : Result unit :=
  let duration := (now - startTime)%Z in
  if (maxDuration <? duration)%Z then
    Throw (Error ("Response took " +:+ Number_toString duration
                  +:+ "ms, expected under " +:+ Number_toString maxDuration
                  +:+ "ms"))
  else Ok tt.

(** The request an operation stands for: its verb, its path and its
    payload. *)
Definition request_of
  (URLSearchParams_toString : list (string * string) -> string)
  (call : ApiCall) : HttpRequest :=
  match call with
  | GetRepairOrders => mkRequest GET "/repair-orders" None
  | GetRepairOrderById orderId =>
      mkRequest GET ("/repair-orders/" +:+ orderId) None
  | CreateRepairOrder orderData =>
      mkRequest POST "/repair-orders" (Some orderData)
  | UpdateRepairOrder orderId updateData =>
      mkRequest PATCH ("/repair-orders/" +:+ orderId) (Some updateData)
  | DeleteRepairOrder orderId =>
      mkRequest DELETE ("/repair-orders/" +:+ orderId) None
  | SearchRepairOrders filters =>
      mkRequest GET ("/repair-orders?" +:+ URLSearchParams_toString filters)
        None
  | GetAppointments => mkRequest GET "/appointments" None
  | GetAppointmentById appointmentId =>
      mkRequest GET ("/appointments/" +:+ appointmentId) None
  | CreateAppointment appointmentData =>
      mkRequest POST "/appointments" (Some appointmentData)
  | UpdateAppointment appointmentId updateData =>
      mkRequest PATCH ("/appointments/" +:+ appointmentId) (Some updateData)
  | CancelAppointment appointmentId =>
      mkRequest DELETE ("/appointments/" +:+ appointmentId) None
  | Authenticate username password =>
      mkRequest POST "/auth/login"
        (Some (Obj [("username", JSString username);
                    ("password", JSString password)] []))
  | ValidateToken => mkRequest GET "/auth/validate" None
  | Get endpoint => mkRequest GET endpoint None
  | Post endpoint payload => mkRequest POST endpoint (Some payload)
  | Patch endpoint payload => mkRequest PATCH endpoint (Some payload)
  | Delete endpoint => mkRequest DELETE endpoint None
  end.

(** A test suite's use of a client: the calls are made one after the
    other, whatever they return. *)
Fixpoint invoke_all
  (server : APIRequestContext -> HttpRequest -> Result APIResponse)
  (URLSearchParams_toString : list (string * string) -> string)
  (contextDisposed : JSError)
  (c : DmsApiClient) (calls : list ApiCall) (net : Network)
  : list (Result APIResponse) * Network :=
  match calls with
  | [] => ([], net)
  | call :: rest =>
      let '(r, net') :=
        invoke server URLSearchParams_toString contextDisposed c call net in
      let '(rs, net'') :=
        invoke_all server URLSearchParams_toString contextDisposed c rest
          net' in
      (r :: rs, net'')
  end.

End ApiClientLifecycle.

(* ===================================================================== *)
(** * Reading generated values back                                      *)
(* ===================================================================== *)

Module Decoding.
Import JS.

(** The number a string of decimal digits denotes. *)
Definition digit_value (c : ascii) : Z := (Z.of_nat (nat_of_ascii c) - 48)%Z.

Fixpoint decimal_from (v : Z) (s : string) : Z :=
  match s with
  | EmptyString => v
  | String c s' => decimal_from (v * 10 + digit_value c)%Z s'
  end.

Definition decimal_value (s : string) : Z := decimal_from 0 s.

(** [s.indexOf(c)] for a character [c]. *)
Fixpoint indexOf (c : ascii) (s : string) : option nat :=
  match s with
  | EmptyString => None
  | String c' s' =>
      if Ascii.eqb c' c then Some 0%nat
      else match indexOf c s' with
           | Some i => Some (S i)
           | None => None
           end
  end.

(** The least multiple of [2 ^ -53] that is at least [k / 33]: a double
    whose product with 33 has floor [k], for [k] below 33. *)
Definition fraction_for (k : nat) : Double :=
  mkDouble ((Z.of_nat k * 2 ^ 53 + 32) / 33) (-53).

(** A sequence of [Math.random()] values under which [generateRandomVIN],
    started with no value drawn, builds the string [vin]. *)
Definition random_for (vin : string) (i : nat) : Double :=
  match String.get i vin with
  | Some c =>
      match indexOf c TestData.chars with
      | Some k => fraction_for k
      | None => mkDouble 0 (-53)
      end
  | None => mkDouble 0 (-53)
  end.

(** A matcher for the anchored regular expression [^\d{4}-\d{2}-\d{2}$]. *)
Definition matches_iso_date (s : string) : bool :=
  match TestData.match_digits 4 s with
  | Some s1 =>
      match TestData.match_literal "-" s1 with
      | Some s2 =>
          match TestData.match_digits 2 s2 with
          | Some s3 =>
              match TestData.match_literal "-" s3 with
              | Some s4 =>
                  match TestData.match_digits 2 s4 with
                  | Some EmptyString => true
                  | _ => false
                  end
              | None => false
              end
          | None => false
          end
      | None => false
      end
  | None => false
  end.

(** The day of the week of a day number, Sunday being 0. *)
Definition weekDayOfDay (day : Z) : Z :=
  JSDate.WeekDay (day * JSDate.msPerDay).

End Decoding.

(* ===================================================================== *)
(** * Page workflows                                                      *)
(* ===================================================================== *)

Module PageLoad.
Import JS BasePage.

Section PageLoad.
Context {A : Type} `{Application A}.
(** The time after which the network is idle, [None] when it is not idle
    within the engine's timeout. *)
Variable networkIdleAfter : A -> option nat.

(** [page.waitForLoadState(state)] for the state [networkidle]: a call to
    the engine, which addresses no element and returns once the network is
    idle. *)
Definition page_waitForLoadState (state : string) : Async A unit :=
  bind (record (CallWaitForLoadState state)) (fun _ =>
  bind (observe (fun a => a)) (fun a =>
  match networkIdleAfter a with
  | Some t => update (elapse t)
  | None =>
      bind (update (elapse defaultTimeout)) (fun _ =>
      throw (TimeoutError "page.waitForLoadState: Timeout exceeded."))
  end)).

Definition waitForPageLoad : Async A unit :=
  page_waitForLoadState "networkidle".

End PageLoad.

(** [tag:has-text("text")] *)
Definition has_text (tag text : string) : string :=
  tag +:+ ":has-text(" +:+ dquote +:+ text +:+ dquote +:+ ")".

End PageLoad.

(** The second half of [src/pages/RepairOrdersPage.ts]: the login page. *)
Module LoginPage.
Import JS BasePage PageLoad.

Definition usernameInput : Locator :=
  RepairOrdersPage.attr_selector "input" "name" "username".
Definition passwordInput : Locator :=
  RepairOrdersPage.attr_selector "input" "name" "password".
Definition loginButton : Locator :=
  RepairOrdersPage.attr_selector "button" "type" "submit".
Definition logoutButton : Locator := has_text "button" "Logout".
Definition errorMessage : Locator := ".error-message, .alert-danger".

Section Methods.
Context {A : Type} `{Application A}.
Variable networkIdleAfter : A -> option nat.
Local Open Scope async_scope.

Definition login (username password : string) : Async A unit :=
  await fill usernameInput username;
  await fill passwordInput password;
  await click loginButton;
  waitForPageLoad networkIdleAfter.

Definition enterUsername (username : string) : Async A unit :=
  fill usernameInput username.

Definition enterPassword (password : string) : Async A unit :=
  fill passwordInput password.

Definition clickLogin : Async A unit := click loginButton.

Definition logout : Async A unit :=
  await click logoutButton;
  waitForPageLoad networkIdleAfter.

Definition hasErrorMessage : Async A bool := isVisible errorMessage.

Definition getErrorMessage : Async A string := getText errorMessage.

Definition isLoggedIn : Async A bool := isVisible logoutButton.

Definition clearForm : Async A unit :=
  await fill usernameInput EmptyString;
  fill passwordInput EmptyString.

End Methods.

End LoginPage.

Module RepairOrdersWorkflow.
Import JS BasePage PageLoad.

Definition createNewButton : Locator :=
  has_text "button" "Create New" +:+ ", "
  +:+ has_text "button" "New Repair Order".
Definition saveButton : Locator :=
  has_text "button" "Save" +:+ ", "
  +:+ RepairOrdersPage.attr_selector "button" "type" "submit".
Definition resultsTable : Locator :=
  "table, " +:+ RepairOrdersPage.attr_selector EmptyString "role" "table"
  +:+ ", .results-table".
Definition tableRows : Locator :=
  chain resultsTable
    ("tbody tr, " +:+ RepairOrdersPage.attr_selector EmptyString "role" "row").

Section Methods.
Context {A : Type} `{Application A}.
Variable networkIdleAfter : A -> option nat.
(** [locator.all()]: one locator per element matching now. *)
Variable rows_of : Locator -> A -> list Locator.
(** [String.prototype.trim]. *)
Variable String_trim : string -> string.
Local Open Scope async_scope.

Definition locator_all (l : Locator) : Async A (list Locator) :=
  observe (rows_of l).

(** The body of [for (const row of rows)], over the rows left. *)
Fixpoint collectOrderNumbers (rows : list Locator)
  (orderNumbers : list string) : Async A (list string) :=
  match rows with
  | [] => ret orderNumbers
  | row :: rest =>
      const orderNumber :=
        await locator_textContent (chain row "td:first-child");
      collectOrderNumbers rest
        (if truthy orderNumber
         then (orderNumbers
               ++ [String_trim (default EmptyString orderNumber)])%list
         else orderNumbers)
  end.

Definition getAllOrderNumbers : Async A (list string) :=
  const rows := await locator_all tableRows;
  collectOrderNumbers rows [].

(** [orderNumbers.includes(orderNumber)] *)
Definition hasOrderNumber (orderNumber : string) : Async A bool :=
  const orderNumbers := await getAllOrderNumbers;
  ret (existsb (String.eqb orderNumber) orderNumbers).

Definition clickCreateNew : Async A unit :=
  await click createNewButton;
  wait 500.

Definition saveForm : Async A unit :=
  await click saveButton;
  waitForPageLoad networkIdleAfter.

Definition createRepairOrder (orderData : RepairOrdersPage.OrderData)
  : Async A unit :=
  await clickCreateNew;
  await RepairOrdersPage.fillRepairOrderForm orderData;
  saveForm.

End Methods.

(** The writes [fillRepairOrderForm] makes when nothing fails: one per
    property that is present and not empty, in the order of the source. *)
Definition guarded (v : option string) (call : string -> EngineCall)
  : list EngineCall :=
  if truthy v then [call (default EmptyString v)] else [].

Definition writes (orderData : RepairOrdersPage.OrderData) : list EngineCall :=
  (guarded (RepairOrdersPage.customerName orderData)
     (CallFill RepairOrdersPage.customerNameInput)
   ++ guarded (RepairOrdersPage.vehicleVin orderData)
        (CallFill RepairOrdersPage.vehicleVinInput)
   ++ guarded (RepairOrdersPage.vehicleMake orderData)
        (CallFill RepairOrdersPage.vehicleMakeInput)
   ++ guarded (RepairOrdersPage.vehicleModel orderData)
        (CallFill RepairOrdersPage.vehicleModelInput)
   ++ guarded (RepairOrdersPage.vehicleYear orderData)
        (CallFill RepairOrdersPage.vehicleYearInput)
   ++ guarded (RepairOrdersPage.description orderData)
        (CallFill RepairOrdersPage.descriptionInput)
   ++ guarded (RepairOrdersPage.estimatedCost orderData)
        (CallFill RepairOrdersPage.estimatedCostInput)
   ++ guarded (RepairOrdersPage.status orderData)
        (CallSelectOption RepairOrdersPage.statusDropdown))%list.

End RepairOrdersWorkflow.

Module AppointmentsWorkflow.
Import JS BasePage PageLoad.

Definition scheduleNewButton : Locator :=
  has_text "button" "Schedule New" +:+ ", "
  +:+ has_text "button" "New Appointment".
Definition saveButton : Locator := RepairOrdersWorkflow.saveButton.

Section Methods.
Context {A : Type} `{Application A}.
Variable networkIdleAfter : A -> option nat.
Local Open Scope async_scope.

Definition clickScheduleNew : Async A unit :=
  await click scheduleNewButton;
  wait 500.

Definition saveAppointment : Async A unit :=
  await click saveButton;
  waitForPageLoad networkIdleAfter.

Definition scheduleAppointment
  (appointmentData : AppointmentsPage.AppointmentData) : Async A unit :=
  await clickScheduleNew;
  await AppointmentsPage.fillAppointmentForm appointmentData;
  saveAppointment.

End Methods.

Definition writes (appointmentData : AppointmentsPage.AppointmentData)
  : list EngineCall :=
  (RepairOrdersWorkflow.guarded (AppointmentsPage.customerName appointmentData)
     (CallFill AppointmentsPage.customerNameInput)
   ++ RepairOrdersWorkflow.guarded
        (AppointmentsPage.phoneNumber appointmentData)
        (CallFill AppointmentsPage.phoneNumberInput)
   ++ RepairOrdersWorkflow.guarded (AppointmentsPage.email appointmentData)
        (CallFill AppointmentsPage.emailInput)
   ++ RepairOrdersWorkflow.guarded
        (AppointmentsPage.serviceType appointmentData)
        (CallSelectOption AppointmentsPage.serviceTypeDropdown)
   ++ RepairOrdersWorkflow.guarded
        (AppointmentsPage.vehicleVin appointmentData)
        (CallFill AppointmentsPage.vehicleVinInput)
   ++ RepairOrdersWorkflow.guarded
        (AppointmentsPage.preferredDate appointmentData)
        (CallFill AppointmentsPage.preferredDateInput)
   ++ RepairOrdersWorkflow.guarded
        (AppointmentsPage.preferredTime appointmentData)
        (CallSelectOption AppointmentsPage.preferredTimeDropdown)
   ++ RepairOrdersWorkflow.guarded (AppointmentsPage.notes appointmentData)
        (CallFill AppointmentsPage.notesTextarea))%list.

End AppointmentsWorkflow.

(** ** Traces and forms *)

Module Traces.
Import JS BasePage Models.

(** [adds_on_success m new]: whenever [m] returns, the engine calls it has
    made are exactly [new], in that order. *)
Definition adds_on_success {A X : Type} (m : Async A X) (new : list EngineCall)
  : Prop :=
  forall b x b', m b = (Ok x, b') -> calls b' = (calls b ++ new)%list.

(** [extends b b']: the engine calls of [b'] are those of [b] followed by
    further ones. *)
Definition extends {A : Type} (b b' : Browser A) : Prop :=
  exists rest, calls b' = (calls b ++ rest)%list.

(** [starts_with m c]: whatever happens, the first engine call [m] makes
    is [c]. *)
Definition starts_with {A X : Type} (m : Async A X) (c : EngineCall) : Prop :=
  forall b, exists rest, calls (snd (m b)) = (calls b ++ c :: rest)%list.

(** [never_within p a limit]: the application [a] satisfies [p] neither
    at the instant of the call nor at any of the [limit] milliseconds that
    follow. *)
Definition never_within {A : Type} `{Application A} (p : A -> bool) (a : A)
  (limit : nat) : Prop :=
  p a = false
  /\ forall t, (1 <= t <= limit)%nat -> p (elapse t a) = false.


(** The texts of the first cells of the rows, as [getAllOrderNumbers]
    keeps them. *)
Definition kept_cells {A : Type} `{Application A}
  (String_trim : string -> string) (rows : list Locator) (a : A)
  : list string :=
  flat_map
    (fun row =>
       let t := text_of (chain row "td:first-child") a in
       if truthy t then [String_trim (default EmptyString t)] else [])
    rows.

(** A login form with both inputs empty, and one whose inputs hold a
    previous attempt. *)
Definition loginForm : Browser Form :=
  mkBrowser
    (mkForm {[ LoginPage.usernameInput := "old.user@example.com";
               LoginPage.passwordInput := "oldpassword" ]} ∅) [].

(** A rendered page that only shows text: the text content of the
    elements that are in the page, by locator. *)
Record Rendered : Type := mkRendered { texts : gmap string string }.

#[export] Instance rendered_application : Application Rendered := {
  state_of := fun l p => match texts p !! l with
                         | Some _ => Visible
                         | None => Absent
                         end;
  actionable := fun l p => bool_decide (is_Some (texts p !! l));
  on_click := fun _ p => p;
  on_fill := fun _ _ p => p;
  on_select := fun _ _ p => p;
  elapse := fun _ p => p;
  text_of := fun l p => texts p !! l;
  defaultTimeout := 30000
}.

(** A results table of two rows. *)
Definition twoRows : list Locator :=
  [RepairOrdersWorkflow.tableRows +:+ " >> nth=0";
   RepairOrdersWorkflow.tableRows +:+ " >> nth=1"].

Definition twoOrders : Browser Rendered :=
  mkBrowser
    (mkRendered
       {[ chain (RepairOrdersWorkflow.tableRows +:+ " >> nth=0")
            "td:first-child" := "RO-2024-001";
          chain (RepairOrdersWorkflow.tableRows +:+ " >> nth=1")
            "td:first-child" := "RO-2024-002" ]}) [].


(** A page on which the buttons that open the forms and the username
    input are disabled. *)
Definition lockedForm : Browser Form :=
  mkBrowser
    (mkForm ∅
       {[ RepairOrdersWorkflow.createNewButton;
          AppointmentsWorkflow.scheduleNewButton;
          LoginPage.usernameInput ]}) [].

(** The network is idle at once. *)
Definition idleAtOnce : Form -> option nat := fun _ => Some 0%nat.

(** An appointment payload with the customer's name only. *)
Definition aliceOnly : AppointmentsPage.AppointmentData :=
  AppointmentsPage.mkAppointmentData (Some "Alice Johnson") None None None
    None None None None.

(** A repair-order payload as the tests build it. *)
Definition newOrder : RepairOrdersPage.OrderData :=
  RepairOrdersPage.mkOrderData (Some "Jane Doe") (Some "1FADP3K29JL234567")
    (Some "Ford") (Some "Fusion") (Some "2024")
    (Some "Oil change and tire rotation") (Some "150.00") None.

End Traces.

(* ===================================================================== *)
(** * Properties of the API client                                        *)
(* ===================================================================== *)

Import JS Models Effects.

Section ApiClientProperties.
Import ApiClient.

Variable server : APIRequestContext -> HttpRequest -> Result APIResponse.
Variable URLSearchParams_toString : list (string * string) -> string.
Variable contextDisposed : JSError.

Lemma getContext_unset (c : DmsApiClient) :
  apiContext c = None -> getContext c = Throw notInitialized.
Proof. unfold getContext. now intros ->. Qed.

Lemma withContext_unset (c : DmsApiClient) (r : HttpRequest) (net : Network) :
  apiContext c = None ->
  withContext server contextDisposed c r net = (Throw notInitialized, net).
Proof. intros Hc. unfold withContext. now rewrite getContext_unset. Qed.

(** C1. Before [init()] the request context is unset, and every
    request-issuing operation of the client then fails with the
    not-initialized error while the list of issued HTTP requests stays as it
    was. *)
Theorem call_before_init_fails (c : DmsApiClient) (call : ApiCall)
  (net : Network) :
  apiContext c = None ->
  invoke server URLSearchParams_toString contextDisposed c call net
  = (Throw notInitialized, net).
Proof.
  intros Hc.
  destruct call; cbn [invoke];
    first [ now apply withContext_unset
          | unfold searchRepairOrders; now rewrite getContext_unset ].
Qed.

End ApiClientProperties.

(** A client that was constructed and never initialised, on a network
    where nothing was sent yet. *)
Lemma call_before_init_fails_witness :
  ApiClient.invoke (fun _ _ => Ok (ApiClient.mkResponse 200))
    (fun _ => EmptyString) ApiClient.requestContextDisposed
    (ApiClient.constructor "https://api.example-dms.com/v1"
       "default-test-token")
    (ApiClient.GetRepairOrderById "RO-2024-001")
    ApiClient.quietNetwork
  = (Throw ApiClient.notInitialized, ApiClient.quietNetwork).
Proof. apply call_before_init_fails. reflexivity. Defined.

(** After [init()] the same call does reach the network. *)
Example call_after_init_sends :
  ApiClient.issued
    (snd (ApiClient.invoke (fun _ _ => Ok (ApiClient.mkResponse 200))
            (fun _ => EmptyString) ApiClient.requestContextDisposed
            ApiClient.testClient (ApiClient.GetRepairOrderById "RO-2024-001")
            ApiClient.networkAfterInit))
  = [ApiClient.mkRequest ApiClient.GET "/repair-orders/RO-2024-001" None].
Proof. reflexivity. Qed.

(** ** [assertStatus] *)

Lemma contains_intro (pre t suf : string) : contains (pre +:+ t +:+ suf) t.
Proof. now exists pre, suf. Qed.

Lemma append_cons (x : ascii) (a b : string) :
  String x a +:+ b = String x (a +:+ b).
Proof. reflexivity. Qed.

Lemma append_nil_l (a : string) : EmptyString +:+ a = a.
Proof. reflexivity. Qed.

Lemma append_assoc (a b c : string) : (a +:+ b) +:+ c = a +:+ (b +:+ c).
Proof.
  induction a as [|x a IH]; [reflexivity|].
  now rewrite !append_cons, IH.
Qed.

Lemma append_nil_r (a : string) : a +:+ EmptyString = a.
Proof.
  induction a as [|x a IH]; [reflexivity|]. now rewrite append_cons, IH.
Qed.

Lemma length_append (a b : string) :
  String.length (a +:+ b) = (String.length a + String.length b)%nat.
Proof.
  induction a as [|x a IH]; [reflexivity|].
  rewrite append_cons. cbn [String.length]. now rewrite IH.
Qed.

(** C4. [assertStatus] returns normally when the response's status is the
    expected code; otherwise it throws an [Error] whose message is
    "Expected status <expected>, but got <actual>", which contains the
    decimal form of both codes. *)
Theorem assertStatus_spec (response : ApiClient.APIResponse) (expected : Z) :
  (ApiClient.status response = expected ->
   ApiClient.assertStatus response expected = Ok tt)
  /\ (ApiClient.status response <> expected ->
      exists msg,
        ApiClient.assertStatus response expected = Throw (Error msg)
        /\ msg = "Expected status " +:+ Number_toString expected
                 +:+ ", but got "
                 +:+ Number_toString (ApiClient.status response)
        /\ contains msg (Number_toString expected)
        /\ contains msg (Number_toString (ApiClient.status response))).
Proof.
  unfold ApiClient.assertStatus. split.
  - intros ->. now rewrite Z.eqb_refl.
  - intros Hne. apply Z.eqb_neq in Hne. rewrite Hne. cbn [negb].
    eexists. split; [reflexivity|]. split; [reflexivity|]. split.
    + apply contains_intro.
    + exists ("Expected status " +:+ Number_toString expected
              +:+ ", but got "), EmptyString.
      now rewrite append_nil_r, !append_assoc.
Qed.

Lemma assertStatus_spec_witness :
  ApiClient.assertStatus (ApiClient.mkResponse 200) 200 = Ok tt
  /\ ApiClient.assertStatus (ApiClient.mkResponse 404) 200
     = Throw (Error "Expected status 200, but got 404").
Proof.
  split.
  - apply (proj1 (assertStatus_spec (ApiClient.mkResponse 200) 200)).
    reflexivity.
  - destruct (proj2 (assertStatus_spec (ApiClient.mkResponse 404) 200))
      as (msg & Hthrow & Hmsg & _); [discriminate|].
    rewrite Hthrow, Hmsg. reflexivity.
Defined.

(** ** [assertResponseContains] *)

Section ContainsProperties.
Import ApiClient.
Variable objectToString : nat -> string.

Lemma assertEntries_throw_inv (body : JSObject)
  (entries : list (string * JSValue)) (e : JSError) :
  assertEntries objectToString body entries = Throw e ->
  exists key expectedValue,
    In (key, expectedValue) entries
    /\ strict_eq (getProp body key) expectedValue = false
    /\ e = Error (mismatch_message objectToString key expectedValue
                    (getProp body key)).
Proof.
  induction entries as [|[k v] rest IH]; cbn [assertEntries]; [discriminate|].
  destruct (strict_eq (getProp body k) v) eqn:Heq; cbn [negb].
  - intros Hrest. destruct (IH Hrest) as (k' & v' & Hin & Hne & He).
    exists k', v'. auto using in_cons.
  - intros [= <-]. exists k, v. auto using in_eq.
Qed.

Lemma assertEntries_mismatch_throws (body : JSObject)
  (entries : list (string * JSValue)) (key : string) (expectedValue : JSValue) :
  In (key, expectedValue) entries ->
  strict_eq (getProp body key) expectedValue = false ->
  exists e, assertEntries objectToString body entries = Throw e.
Proof.
  induction entries as [|[k v] rest IH]; cbn [assertEntries In]; [tauto|].
  intros [[= -> ->]|Hin] Hne.
  - rewrite Hne. cbn [negb]. eauto.
  - destruct (strict_eq (getProp body k) v); cbn [negb]; eauto.
Qed.

Lemma assertEntries_ext (body body' : JSObject)
  (entries : list (string * JSValue)) :
  (forall key expectedValue,
      In (key, expectedValue) entries -> getProp body' key = getProp body key) ->
  assertEntries objectToString body' entries = assertEntries objectToString body entries.
Proof.
  induction entries as [|[k v] rest IH]; cbn [assertEntries]; [reflexivity|].
  intros Hagree. rewrite (Hagree k v (in_eq _ _)).
  destruct (strict_eq (getProp body k) v); cbn [negb]; [|reflexivity].
  apply IH. intros k' v' Hin. apply (Hagree k' v'). now apply in_cons.
Qed.

(** C3. [assertResponseContains] throws exactly when some entry of the
    expected data names a key whose value in the body is not strictly equal
    to the expected value; two bodies that agree on the keys named in the
    expected data give the same outcome, whatever else they hold; and the
    message of the thrown error is
    "Expected <key> to be <expected>, but got <actual>" with both values in
    double quotes, for a mismatching entry. *)
Theorem assertResponseContains_spec (body expected : JSObject) :
  ((exists e, assertResponseContains objectToString body expected = Throw e)
   <-> exists key expectedValue,
         In (key, expectedValue) (Object_entries expected)
         /\ strict_eq (getProp body key) expectedValue = false)
  /\ (forall body',
         (forall key expectedValue,
             In (key, expectedValue) (Object_entries expected) ->
             getProp body' key = getProp body key) ->
         assertResponseContains objectToString body' expected
         = assertResponseContains objectToString body expected)
  /\ (forall e,
         assertResponseContains objectToString body expected = Throw e ->
         exists key expectedValue,
           In (key, expectedValue) (Object_entries expected)
           /\ strict_eq (getProp body key) expectedValue = false
           /\ e = Error ("Expected " +:+ key +:+ " to be " +:+ dquote
                         +:+ ToString objectToString expectedValue
                         +:+ dquote +:+ ", but got " +:+ dquote
                         +:+ ToString objectToString (getProp body key)
                         +:+ dquote)).
Proof.
  unfold ApiClient.assertResponseContains. repeat split.
  - intros [e He]. apply assertEntries_throw_inv in He.
    destruct He as (k & v & Hin & Hne & _). eauto.
  - intros (k & v & Hin & Hne). eapply assertEntries_mismatch_throws; eauto.
  - intros body' Hagree. now apply assertEntries_ext.
  - intros e He. apply assertEntries_throw_inv in He. exact He.
Qed.

End ContainsProperties.

(** A body whose [status] differs from the expected one, with a field the
    expected data does not name. *)
Lemma assertResponseContains_spec_witness :
  exists key expectedValue,
    In (key, expectedValue) [("status", JSString "Completed")]
    /\ strict_eq
         (getProp (Obj [("id", JSNumber (Finite 7));
                        ("status", JSString "Pending")] [])
            key)
         expectedValue = false.
Proof.
  apply (proj1 (proj1 (assertResponseContains_spec (fun _ => "[object Object]")
                  (Obj [("id", JSNumber (Finite 7));
                        ("status", JSString "Pending")] [])
                  (Obj [("status", JSString "Completed")] [])))).
  eexists. reflexivity.
Defined.

Example assertResponseContains_message :
  ApiClient.assertResponseContains (fun _ => "[object Object]")
    (Obj [("id", JSNumber (Finite 7)); ("status", JSString "Pending")] [])
    (Obj [("status", JSString "Completed")] [])
  = Throw (Error ("Expected status to be " +:+ dquote +:+ "Completed"
                  +:+ dquote +:+ ", but got " +:+ dquote +:+ "Pending"
                  +:+ dquote)).
Proof. reflexivity. Qed.

(** [NaN] is never strictly equal to the expected value, not even to
    [NaN]. *)
Example assertResponseContains_nan :
  is_throw
    (ApiClient.assertResponseContains (fun _ => "[object Object]")
       (Obj [("cost", JSNumber NaN)] []) (Obj [("cost", JSNumber NaN)] []))
  = true.
Proof. reflexivity. Qed.

(* ===================================================================== *)
(** * Properties of the test-data generators                              *)
(* ===================================================================== *)

Section GeneratorProperties.
Import JSDate TestData.

(** ** [Math.floor(Math.random() * n)]

    The product of a double below 1 with [n] is rounded, and the rounded
    product may be above the exact one; it still stays below [n] when [n]
    is not a power of two, since half a unit in the last place of the
    product is then less than [n] times the distance of the double
    from 1. *)

Lemma round_to_nearest_even_bound (M e : Z) :
  (0 <= M)%Z ->
  exists s,
    (0 <= s)%Z
    /\ expo (round_to_nearest_even M e) = (e + s)%Z
    /\ (0 <= mant (round_to_nearest_even M e))%Z
    /\ (mant (round_to_nearest_even M e) * 2 ^ s
         <= M + (if Z.log2 M <=? 52 then 0 else 2 ^ (Z.log2 M - 53)))%Z.
Proof.
  intros HM. unfold round_to_nearest_even.
  destruct (Z.leb_spec (Z.log2 M - 52) 0) as [Hs | Hs].
  - exists 0%Z. cbn [mant expo]. rewrite Z.add_0_r.
    replace (Z.log2 M <=? 52)%Z with true by (symmetry; apply Z.leb_le; lia).
    change (2 ^ 0)%Z with 1%Z. lia.
  - replace (Z.log2 M <=? 52)%Z with false by (symmetry; apply Z.leb_gt; lia).
    replace (Z.log2 M - 53)%Z with (Z.log2 M - 52 - 1)%Z by lia.
    set (s := (Z.log2 M - 52)%Z) in *.
    assert (Hpow : (0 < 2 ^ s)%Z) by (apply Z.pow_pos_nonneg; lia).
    assert (Hhalf : (2 ^ s = 2 * 2 ^ (s - 1))%Z).
    { replace s with (Z.succ (s - 1)) at 1 by lia. apply Z.pow_succ_r. lia. }
    pose proof (Z.div_mod M (2 ^ s) ltac:(lia)) as Hdm.
    pose proof (Z.mod_pos_bound M (2 ^ s) Hpow) as Hr.
    assert (Hq : (0 <= M / 2 ^ s)%Z) by (apply Z.div_pos; lia).
    set (q := (M / 2 ^ s)%Z) in *. set (r := (M mod 2 ^ s)%Z) in *.
    set (h := (2 ^ (s - 1))%Z) in *.
    set (q' := if (r <? h)%Z then q
               else if (h <? r)%Z then (q + 1)%Z
               else if Z.even q then q else (q + 1)%Z).
    assert (Hq' : (0 <= q' /\ q' * 2 ^ s <= M + h)%Z).
    { subst q'.
      destruct (Z.ltb_spec r h);
        [|destruct (Z.ltb_spec h r); [|destruct (Z.even q)]]; nia. }
    destruct (Z.eqb_spec q' (2 ^ 53)) as [Hcarry | Hcarry]; cbn [mant expo].
    + exists (s + 1)%Z. rewrite Z.pow_add_r by lia.
      change (2 ^ 52 * (2 ^ s * 2 ^ 1))%Z with (2 ^ 52 * (2 ^ s * 2))%Z.
      rewrite Z.add_assoc. repeat split; lia.
    + exists s. repeat split; lia.
Qed.

Lemma floor_random_bound (r : Double) (n k : Z) :
  unit_double r -> (0 <= k)%Z -> (2 ^ k < n < 2 ^ (k + 1))%Z ->
  (0 <= Math_floor (Double_mul_Z r n) < n)%Z.
Proof.
  intros [[[Hm0 Hm53] _] [Hnonneg Hneg]] Hk [Hlo Hhi].
  assert (Hn : (0 < n)%Z) by (pose proof (Z.pow_pos_nonneg 2 k); lia).
  unfold Double_mul_Z.
  destruct (round_to_nearest_even_bound (mant r * n) (expo r) ltac:(nia))
    as (s & Hs & Hexpo & Hmant & Hle).
  set (p := round_to_nearest_even (mant r * n) (expo r)) in *.
  assert (Hpows : (0 < 2 ^ s)%Z) by (apply Z.pow_pos_nonneg; lia).
  destruct (Z.le_gt_cases 0 (expo r)) as [He | He].
  - (* the double is zero, and so is the product *)
    assert (Hzero : mant p = 0%Z).
    { rewrite (Hnonneg He), Z.mul_0_l in Hle.
      change (Z.log2 0 <=? 52)%Z with true in Hle. cbn iota in Hle.
      clear -Hle Hmant Hpows. nia. }
    unfold Math_floor. rewrite Hzero.
    destruct (0 <=? expo p)%Z; rewrite ?Z.mul_0_l, ?Zdiv_0_l;
      (split; [reflexivity | exact Hn]).
  - specialize (Hneg He).
    set (E := (- expo r)%Z) in *.
    assert (HE : (0 < E)%Z) by lia.
    assert (HpowE : (0 < 2 ^ E)%Z) by (apply Z.pow_pos_nonneg; lia).
    (* the rounded mantissa, scaled back, stays below n * 2^E *)
    assert (Hkey : (mant p * 2 ^ s < n * 2 ^ E)%Z).
    { destruct (Z.leb_spec (Z.log2 (mant r * n)) 52) as [Hexact | Hlong].
      - nia.
      - assert (HM : (0 < mant r * n)%Z).
        { destruct (Z.eq_dec (mant r * n) 0) as [Hz|]; [|nia].
          rewrite Hz in Hlong. change (Z.log2 0) with 0%Z in Hlong. lia. }
        assert (Hlt : (mant r * n < 2 ^ (k + 54))%Z).
        { replace (k + 54)%Z with (53 + (k + 1))%Z by lia.
          rewrite Z.pow_add_r by lia. nia. }
        apply Z.log2_lt_pow2 in Hlt; [|lia].
        assert (Hhalf : (2 ^ (Z.log2 (mant r * n) - 53) <= 2 ^ k)%Z)
          by (apply Z.pow_le_mono_r; lia).
        nia. }
    unfold Math_floor. rewrite Hexpo.
    destruct (Z.leb_spec 0 (expo r + s)) as [Hge | Hlt].
    + (* the product is an integer *)
      assert (Hsplit : (2 ^ s = 2 ^ (expo r + s) * 2 ^ E)%Z).
      { rewrite <- Z.pow_add_r by lia. f_equal. lia. }
      assert ((0 < 2 ^ (expo r + s))%Z) by (apply Z.pow_pos_nonneg; lia).
      split; [nia|]. rewrite Hsplit in Hkey. nia.
    + assert (Hsplit : (2 ^ E = 2 ^ (- (expo r + s)) * 2 ^ s)%Z).
      { rewrite <- Z.pow_add_r by lia. f_equal. lia. }
      assert ((0 < 2 ^ (- (expo r + s)))%Z) by (apply Z.pow_pos_nonneg; lia).
      split; [apply Z.div_pos; lia|].
      apply Z.div_lt_upper_bound; [lia|]. rewrite Hsplit in Hkey. nia.
Qed.

(** At the double nearest to one third the rounded products are the
    integers 11 and 33333, one above the floors of the exact products; at
    the largest double below 1 they stay below 33 and 99999. *)
Example Math_floor_oneThird :
  Math_floor (Double_mul_Z oneThird 33) = 11%Z
  /\ Math_floor (Double_mul_Z oneThird 99999) = 33333%Z
  /\ Math_floor (Double_mul_Z belowOne 33) = 32%Z
  /\ Math_floor (Double_mul_Z belowOne 99999) = 99998%Z.
Proof. vm_compute. repeat split. Qed.

(** *** The rounding and the Standard Library's binary64

    [SFmul 53 1024] is the Standard Library's specification of the
    multiplication of binary64 numbers.  It shifts the product of the
    mantissas to the right bit by bit, keeping a rounding bit and a sticky
    bit, rounds, and shifts once more when the mantissa has grown to 54
    bits; [round_to_nearest_even] is the same rounding by division. *)

Lemma iter_pos_nat {T : Type} (f : T -> T) (p : positive) (x : T) :
  SpecFloat.iter_pos f p x = Nat.iter (Pos.to_nat p) f x.
Proof.
  revert x. induction p as [p IH | p IH |]; intros x;
    cbn [SpecFloat.iter_pos].
  - rewrite !IH, Pos2Nat.inj_xI.
    replace (S (2 * Pos.to_nat p))
      with (Pos.to_nat p + (Pos.to_nat p + 1))%nat by lia.
    rewrite !Nat.iter_add. reflexivity.
  - rewrite !IH, Pos2Nat.inj_xO.
    replace (2 * Pos.to_nat p)%nat
      with (Pos.to_nat p + Pos.to_nat p)%nat by lia.
    rewrite Nat.iter_add. reflexivity.
  - reflexivity.
Qed.

Lemma shr_1_spec (m : Z) (r s : bool) :
  (0 <= m)%Z ->
  shr_1 (Build_shr_record m r s)
  = Build_shr_record (m / 2) (Z.odd m) (r || s).
Proof.
  intros Hm. rewrite <- Z.div2_div.
  destruct m as [|[p|p|]|p]; try reflexivity. lia.
Qed.

Lemma mod_pow2_succ (m n : Z) :
  (0 <= n)%Z ->
  (m mod 2 ^ (n + 1)
   = m mod 2 ^ n + 2 ^ n * (if Z.odd (m / 2 ^ n) then 1 else 0))%Z.
Proof.
  intros Hn. rewrite Z.pow_add_r by lia. change (2 ^ 1)%Z with 2%Z.
  rewrite Z.rem_mul_r; [|pose proof (Z.pow_pos_nonneg 2 n); lia | lia].
  now rewrite Zmod_odd.
Qed.

(** Shifting right [n + 1] times leaves the quotient by [2 ^ (n + 1)], the
    last bit shifted out and whether a bit shifted out before was set. *)
Lemma shr_iter (m : Z) (n : nat) :
  (0 <= m)%Z ->
  Nat.iter (S n) shr_1 (Build_shr_record m false false)
  = Build_shr_record (m / 2 ^ Z.of_nat (S n))
      (Z.odd (m / 2 ^ Z.of_nat n))
      (negb (m mod 2 ^ Z.of_nat n =? 0)%Z).
Proof.
  intros Hm. induction n as [|n IH].
  - cbn [Nat.iter]. rewrite shr_1_spec by lia.
    change (2 ^ Z.of_nat 1)%Z with 2%Z. change (2 ^ Z.of_nat 0)%Z with 1%Z.
    rewrite Z.div_1_r, Z.mod_1_r. reflexivity.
  - change (Nat.iter (S (S n)) shr_1 (Build_shr_record m false false))
      with (shr_1 (Nat.iter (S n) shr_1 (Build_shr_record m false false))).
    rewrite IH.
    assert (Hpn : (0 < 2 ^ Z.of_nat n)%Z) by (apply Z.pow_pos_nonneg; lia).
    assert (Hpsn : (0 < 2 ^ Z.of_nat (S n))%Z)
      by (apply Z.pow_pos_nonneg; lia).
    rewrite shr_1_spec by (apply Z.div_pos; lia).
    f_equal.
    + rewrite Z.div_div by lia. f_equal.
      rewrite (Nat2Z.inj_succ (S n)), Z.pow_succ_r by lia. lia.
    + replace (Z.of_nat (S n)) with (Z.of_nat n + 1)%Z by lia.
      rewrite mod_pow2_succ by lia.
      pose proof (Z.mod_pos_bound m (2 ^ Z.of_nat n) Hpn).
      destruct (Z.odd (m / 2 ^ Z.of_nat n)); cbn [orb].
      * symmetry. apply negb_true_iff, Z.eqb_neq. lia.
      * rewrite Z.mul_0_r, Z.add_0_r. reflexivity.
Qed.

Lemma Zdigits2_log2 (p : positive) :
  Zdigits2 (Zpos p) = (Z.log2 (Zpos p) + 1)%Z.
Proof.
  assert (Hsize : forall q, digits2_pos q = Pos.size q).
  { induction q as [q IH | q IH |]; cbn [digits2_pos Pos.size];
      now rewrite ?IH. }
  cbn [Zdigits2]. rewrite Hsize.
  destruct p; cbn [Z.log2 Pos.size]; lia.
Qed.

Lemma shr_fexp_exact (M : positive) (e : Z) :
  (-1074 <= e)%Z -> (Z.log2 (Zpos M) <= 52)%Z ->
  shr_fexp 53 1024 (Zpos M) e loc_Exact
  = (Build_shr_record (Zpos M) false false, e).
Proof.
  intros He Hlog. unfold shr_fexp, fexp, emin. rewrite Zdigits2_log2.
  cbn [shr_record_of_loc]. unfold shr.
  destruct (Z.max (Z.log2 (Z.pos M) + 1 + e - 53) (3 - 1024 - 53) - e)%Z
    eqn:Hn; try reflexivity. lia.
Qed.

Lemma shr_fexp_shift (M : positive) (e : Z) :
  (-1074 <= e)%Z -> (52 < Z.log2 (Zpos M))%Z ->
  shr_fexp 53 1024 (Zpos M) e loc_Exact
  = (Build_shr_record (Zpos M / 2 ^ (Z.log2 (Zpos M) - 52))
       (Z.odd (Zpos M / 2 ^ (Z.log2 (Zpos M) - 52 - 1)))
       (negb (Zpos M mod 2 ^ (Z.log2 (Zpos M) - 52 - 1) =? 0)%Z),
     (e + (Z.log2 (Zpos M) - 52))%Z).
Proof.
  intros He Hlog. unfold shr_fexp, fexp, emin. rewrite Zdigits2_log2.
  cbn [shr_record_of_loc]. unfold shr.
  replace (Z.max (Z.log2 (Z.pos M) + 1 + e - 53) (3 - 1024 - 53) - e)%Z
    with (Z.log2 (Zpos M) - 52)%Z by lia.
  destruct (Z.log2 (Zpos M) - 52)%Z as [|p|p] eqn:Hs; try lia.
  rewrite iter_pos_nat.
  destruct (Pos.to_nat p) as [|n] eqn:Hp; [lia|].
  rewrite shr_iter by lia.
  replace (Z.of_nat (S n)) with (Z.pos p) by lia.
  replace (Z.of_nat n) with (Z.pos p - 1)%Z by lia. reflexivity.
Qed.

(** The product of a double and a positive integer, as long as it does not
    overflow, is the product the Standard Library's binary64 gives. *)
Lemma Double_mul_Z_SpecFloat (d : Double) (n : positive) :
  (0 <= mant d)%Z -> (-1074 <= expo d)%Z ->
  (expo (Double_mul_Z d (Zpos n)) <= 971)%Z ->
  to_spec_float (Double_mul_Z d (Zpos n))
  = SFmul 53 1024 (to_spec_float d) (S754_finite false n 0).
Proof.
  intros Hm He Hmax. unfold Double_mul_Z in *.
  destruct d as [m e]. cbn [mant expo] in *.
  destruct m as [|m|m]; [reflexivity | | lia].
  unfold to_spec_float at 2. cbn [mant expo SFmul xorb].
  rewrite Z.add_0_r. change (Z.pos m * Z.pos n)%Z with (Z.pos (m * n)) in *.
  set (M := (m * n)%positive) in *.
  unfold binary_round_aux, round_to_nearest_even in *.
  destruct (Z.leb_spec (Z.log2 (Z.pos M) - 52) 0) as [Hs | Hs].
  - rewrite shr_fexp_exact by lia.
    cbn [shr_m loc_of_shr_record round_nearest_even].
    rewrite shr_fexp_exact by lia. cbn [shr_m].
    cbn [expo] in Hmax. unfold to_spec_float. cbn [mant expo].
    replace (e <=? 1024 - 53)%Z with true by (symmetry; apply Z.leb_le; lia).
    reflexivity.
  - rewrite shr_fexp_shift by lia.
    set (s := (Z.log2 (Z.pos M) - 52)%Z) in *.
    cbn [shr_m].
    assert (Hps : (0 < 2 ^ s)%Z) by (apply Z.pow_pos_nonneg; lia).
    assert (Hph : (0 < 2 ^ (s - 1))%Z) by (apply Z.pow_pos_nonneg; lia).
    assert (Hdec : (Z.pos M mod 2 ^ s
                    = Z.pos M mod 2 ^ (s - 1)
                      + 2 ^ (s - 1)
                        * (if Z.odd (Z.pos M / 2 ^ (s - 1)) then 1 else 0))%Z).
    { replace s with ((s - 1) + 1)%Z at 1 by lia.
      now rewrite mod_pow2_succ by lia. }
    pose proof (Z.mod_pos_bound (Z.pos M) (2 ^ (s - 1)) Hph) as Hlow.
    set (q := (Z.pos M / 2 ^ s)%Z) in *.
    assert (Hq : (2 ^ 52 <= q < 2 ^ 53)%Z).
    { pose proof (Z.log2_spec (Z.pos M) ltac:(lia)) as [Hlo Hhi].
      replace (Z.log2 (Z.pos M)) with (52 + s)%Z in Hlo by (subst s; lia).
      replace (Z.succ (Z.log2 (Z.pos M))) with (53 + s)%Z in Hhi
        by (subst s; lia).
      rewrite Z.pow_add_r in Hlo, Hhi by lia.
      subst q. split.
      - apply Z.div_le_lower_bound; lia.
      - apply Z.div_lt_upper_bound; lia. }
    set (q' := if (Z.pos M mod 2 ^ s <? 2 ^ (s - 1))%Z then q
               else if (2 ^ (s - 1) <? Z.pos M mod 2 ^ s)%Z then (q + 1)%Z
               else if Z.even q then q else (q + 1)%Z) in *.
    assert (Hround :
      round_nearest_even q
        (loc_of_shr_record
           (Build_shr_record q (Z.odd (Z.pos M / 2 ^ (s - 1)))
              (negb (Z.pos M mod 2 ^ (s - 1) =? 0)%Z))) = q').
    { subst q'. rewrite Hdec.
      destruct (Z.odd (Z.pos M / 2 ^ (s - 1))).
      - destruct (Z.eqb_spec (Z.pos M mod 2 ^ (s - 1)) 0) as [H0 | H0];
          cbn [negb loc_of_shr_record round_nearest_even].
        + rewrite H0.
          destruct (Z.ltb_spec (0 + 2 ^ (s - 1) * 1) (2 ^ (s - 1))); [lia|].
          destruct (Z.ltb_spec (2 ^ (s - 1)) (0 + 2 ^ (s - 1) * 1)); [lia|].
          reflexivity.
        + destruct (Z.ltb_spec (Z.pos M mod 2 ^ (s - 1) + 2 ^ (s - 1) * 1)
                      (2 ^ (s - 1))); [lia|].
          destruct (Z.ltb_spec (2 ^ (s - 1))
                      (Z.pos M mod 2 ^ (s - 1) + 2 ^ (s - 1) * 1)); [|lia].
          reflexivity.
      - destruct (Z.ltb_spec (Z.pos M mod 2 ^ (s - 1) + 2 ^ (s - 1) * 0)
                    (2 ^ (s - 1))); [|lia].
        destruct (Z.eqb_spec (Z.pos M mod 2 ^ (s - 1)) 0); reflexivity. }
    rewrite Hround.
    assert (Hq' : (2 ^ 52 <= q' <= 2 ^ 53)%Z).
    { subst q'.
      destruct (Z.pos M mod 2 ^ s <? 2 ^ (s - 1))%Z; [lia|].
      destruct (2 ^ (s - 1) <? Z.pos M mod 2 ^ s)%Z; [lia|].
      destruct (Z.even q); lia. }
    clearbody q'. clear Hround Hdec.
    destruct (Z.eqb_spec q' (2 ^ 53)) as [Hcarry | Hcarry];
      cbn [expo] in Hmax.
    + (* the mantissa has 54 bits and loses one *)
      rewrite Hcarry.
      assert (Hsh : shr_fexp 53 1024 (2 ^ 53) (e + s) loc_Exact
                    = (Build_shr_record (2 ^ 52) false false,
                       (e + s + 1)%Z)).
      { change (2 ^ 53)%Z with (Z.pos (2 ^ 53)).
        rewrite shr_fexp_shift; [reflexivity | lia | reflexivity]. }
      rewrite Hsh. cbn [shr_m]. change (2 ^ 52)%Z with (Z.pos (2 ^ 52)).
      replace (e + s + 1 <=? 1024 - 53)%Z with true
        by (symmetry; apply Z.leb_le; lia).
      reflexivity.
    + destruct q' as [|p'|p']; try lia.
      rewrite shr_fexp_exact.
      * cbn [shr_m].
        replace (e + s <=? 1024 - 53)%Z with true
          by (symmetry; apply Z.leb_le; lia).
        reflexivity.
      * lia.
      * assert (Hlt : (Z.pos p' < 2 ^ 53)%Z) by lia.
        apply Z.log2_lt_pow2 in Hlt; lia.
Qed.

(** In particular for the products the generators compute: that of a
    value of [Math.random()] and an integer. *)
Lemma Math_random_times_SpecFloat (r : Double) (n : positive) :
  unit_double r -> (Zpos n < 2 ^ 53)%Z ->
  to_spec_float (Double_mul_Z r (Zpos n))
  = SFmul 53 1024 (to_spec_float r) (S754_finite false n 0).
Proof.
  intros [[[Hm0 Hm53] [He Hemax]] [Hnonneg Hneg]] Hn.
  apply Double_mul_Z_SpecFloat; [exact Hm0 | exact He |].
  unfold Double_mul_Z, round_to_nearest_even.
  destruct (Z.le_gt_cases 0 (expo r)) as [Hge | Hlt].
  - rewrite (Hnonneg Hge), Z.mul_0_l.
    change (Z.log2 0 - 52 <=? 0)%Z with true. exact Hemax.
  - set (M := (mant r * Z.pos n)%Z).
    assert (HM : (0 <= M < 2 ^ 106)%Z).
    { change (2 ^ 106)%Z with (2 ^ 53 * 2 ^ 53)%Z. subst M. nia. }
    assert (Hlog : (Z.log2 M < 106)%Z).
    { destruct (Z.eq_dec M 0) as [-> | Hnz]; [reflexivity|].
      apply Z.log2_lt_pow2; lia. }
    destruct (Z.log2 M - 52 <=? 0)%Z; cbn [expo]; [lia|].
    match goal with
    | |- context [if ?c then _ else _] => destruct c
    end; cbn [expo]; lia.
Qed.

(** A third of three is one: a tie, which goes up to the even mantissa
    and to the next exponent. *)
Example Double_mul_Z_carry :
  Double_mul_Z oneThird 3 = mkDouble (2 ^ 52) (-52)
  /\ Math_floor (Double_mul_Z oneThird 3) = 1%Z.
Proof. vm_compute. split; reflexivity. Qed.

(** ** Strings of legal characters *)

Lemma all_chars_append (p : ascii -> bool) (a b : string) :
  all_chars p (a +:+ b) = all_chars p a && all_chars p b.
Proof.
  induction a as [|x a IH]; [reflexivity|].
  rewrite append_cons. cbn [all_chars]. now rewrite IH, andb_assoc.
Qed.

Lemma charAt_chars_legal (i : Z) :
  (0 <= i < 33)%Z ->
  exists c, charAt chars i = String c EmptyString /\ vin_legal c = true.
Proof.
  intros Hi.
  assert (Hall : forallb
            (fun n => match charAt chars (Z.of_nat n) with
                      | String c EmptyString => vin_legal c
                      | _ => false
                      end) (seq 0 33) = true) by (vm_compute; reflexivity).
  rewrite forallb_forall in Hall.
  specialize (Hall (Z.to_nat i)). rewrite Z2Nat.id in Hall by lia.
  destruct (charAt chars i) as [|c [|]] eqn:Hc;
    try (discriminate Hall; apply in_seq; lia).
  exists c. split; [reflexivity|]. apply Hall. apply in_seq. lia.
Qed.

Section WithRandom.
Variable random : nat -> Double.
Hypothesis random_unit : forall i, unit_double (random i).

Lemma vin_loop_spec (iterations : nat) (vin : string) (drawn : nat) :
  String.length (fst (vin_loop random iterations vin drawn))
  = (String.length vin + iterations)%nat
  /\ (all_chars vin_legal vin = true ->
      all_chars vin_legal (fst (vin_loop random iterations vin drawn)) = true)
  /\ snd (vin_loop random iterations vin drawn) = (drawn + iterations)%nat.
Proof.
  revert vin drawn.
  induction iterations as [|n IH]; intros vin drawn; cbn [vin_loop].
  - cbn [fst snd]. repeat split; [lia | auto | lia].
  - unfold Math_random.
    destruct (charAt_chars_legal
                (Math_floor
                   (Double_mul_Z (random drawn)
                      (Z.of_nat (String.length chars)))))
      as (c & Hc & Hlegal).
    { apply (floor_random_bound (random drawn) 33 5);
        [apply random_unit | lia | cbn; lia]. }
    rewrite Hc.
    destruct (IH (vin +:+ String c EmptyString) (S drawn)) as (Hlen & Hall & Hst).
    rewrite Hlen, Hst, length_append. cbn [String.length].
    repeat split; [lia | | lia].
    intros Hvin. apply Hall. rewrite all_chars_append, Hvin.
    cbn [all_chars]. now rewrite Hlegal.
Qed.

End WithRandom.

(** C7. Whatever doubles in [0, 1) [Math.random()] returns, the string
    [generateRandomVIN] builds has exactly 17 characters, each of them in
    [[A-HJ-NPR-Z0-9]]: a digit or an uppercase letter other than I, O
    and Q. *)
Theorem generateRandomVIN_spec (random : nat -> Double) (drawn : nat) :
  (forall i, unit_double (random i)) ->
  String.length (fst (generateRandomVIN random drawn)) = 17%nat
  /\ all_chars vin_legal (fst (generateRandomVIN random drawn)) = true.
Proof.
  intros Hr. unfold generateRandomVIN.
  destruct (vin_loop_spec random Hr 17 EmptyString drawn) as (Hlen & Hall & _).
  split; [exact Hlen | now apply Hall].
Qed.

(** The values [k / 32] for [k] = 0, 1, ..., 31, 0, 1, ... *)
Lemma generateRandomVIN_spec_witness :
  String.length
    (fst (generateRandomVIN (fun n => mkDouble (Z.of_nat (n mod 32)) (-5)) 0))
  = 17%nat
  /\ all_chars vin_legal
       (fst (generateRandomVIN
               (fun n => mkDouble (Z.of_nat (n mod 32)) (-5)) 0))
     = true.
Proof.
  apply generateRandomVIN_spec. intros i.
  pose proof (Nat.mod_upper_bound i 32 ltac:(lia)) as Hi.
  repeat split; cbn [mant expo]; lia.
Defined.

(** The character class excludes exactly I, O and Q among the uppercase
    letters, and accepts nothing but digits and uppercase letters. *)
Lemma vin_legal_class (c : ascii) :
  vin_legal c = true <->
  (is_digit c = true
   \/ (is_upper c = true /\ c <> "I"%char /\ c <> "O"%char /\ c <> "Q"%char)).
Proof.
  destruct c as [[] [] [] [] [] [] [] []]; vm_compute;
    intuition (try discriminate; try congruence).
Qed.

Example generateRandomVIN_sample :
  fst (generateRandomVIN (fun n => mkDouble (Z.of_nat (n mod 32)) (-5)) 0)
  = "ABCDEFGHJKLMNPRST"
  /\ fst (generateRandomVIN (fun _ => oneThird) 0) = "MMMMMMMMMMMMMMMMM"
  /\ fst (generateRandomVIN (fun _ => belowOne) 0) = "99999999999999999".
Proof. vm_compute. repeat split. Qed.

End GeneratorProperties.

(** ** Decimal digits *)

Section DigitProperties.
Import JSDate TestData.

Lemma digit_char_is_digit (d : Z) :
  (0 <= d < 10)%Z -> is_digit (digit_char d) = true.
Proof.
  intros Hd.
  assert (Hcases : (d = 0 \/ d = 1 \/ d = 2 \/ d = 3 \/ d = 4 \/ d = 5
                    \/ d = 6 \/ d = 7 \/ d = 8 \/ d = 9)%Z) by lia.
  repeat (destruct Hcases as [-> | Hcases]; [reflexivity|]).
  now subst d.
Qed.

(** With enough fuel, a number below [10^(k+1)] prints as at least one and
    at most [k+1] digits, and as exactly [k+1] digits from [10^k] on. *)
Lemma digits_fuel_spec (k : nat) :
  forall (fuel : nat) (n : Z) (acc : string),
    (1 <= fuel)%nat -> (0 <= n < 2 ^ Z.of_nat fuel)%Z ->
    (n < 10 ^ Z.of_nat (S k))%Z ->
    exists ds,
      digits_fuel fuel n acc = ds +:+ acc
      /\ all_chars is_digit ds = true
      /\ (1 <= String.length ds <= S k)%nat
      /\ ((10 ^ Z.of_nat k <= n)%Z -> String.length ds = S k).
Proof.
  induction k as [|k IH]; intros fuel n acc Hfuel Hn Hk;
    (destruct fuel as [|fuel]; [lia|]); cbn [digits_fuel].
  - assert (Hq : (n / 10 = 0)%Z) by (apply Z.div_small; lia).
    rewrite Hq. cbn [Z.eqb].
    exists (String (digit_char (n mod 10)) EmptyString).
    rewrite append_cons, append_nil_l. cbn [all_chars String.length].
    rewrite digit_char_is_digit by (apply Z.mod_pos_bound; lia).
    repeat split; auto; lia.
  - destruct (n / 10 =? 0)%Z eqn:Hq.
    + apply Z.eqb_eq in Hq.
      exists (String (digit_char (n mod 10)) EmptyString).
      rewrite append_cons, append_nil_l. cbn [all_chars String.length].
      rewrite digit_char_is_digit by (apply Z.mod_pos_bound; lia).
      repeat split; auto; try lia.
      intros Hbig. exfalso.
      assert (n < 10)%Z.
      { rewrite (Z.div_mod n 10), Hq by lia.
        pose proof (Z.mod_pos_bound n 10). lia. }
      assert (10 ^ 1 <= 10 ^ Z.of_nat (S k))%Z
        by (apply Z.pow_le_mono_r; lia).
      lia.
    + apply Z.eqb_neq in Hq.
      assert (Hpos : (0 < n / 10)%Z).
      { pose proof (Z.div_pos n 10). lia. }
      assert (Hpow2 : (2 ^ Z.of_nat (S fuel) = 2 * 2 ^ Z.of_nat fuel)%Z).
      { rewrite Nat2Z.inj_succ, Z.pow_succ_r by lia. reflexivity. }
      assert (Hdiv : (n / 10 < 2 ^ Z.of_nat fuel)%Z).
      { apply Z.div_lt_upper_bound; lia. }
      assert (Hfuel' : (1 <= fuel)%nat).
      { destruct fuel; [cbn in Hdiv; lia | lia]. }
      assert (Hpow10 : (10 ^ Z.of_nat (S (S k)) = 10 * 10 ^ Z.of_nat (S k))%Z).
      { rewrite (Nat2Z.inj_succ (S k)), Z.pow_succ_r by lia. reflexivity. }
      assert (Hk' : (n / 10 < 10 ^ Z.of_nat (S k))%Z).
      { apply Z.div_lt_upper_bound; lia. }
      destruct (IH fuel (n / 10)%Z (String (digit_char (n mod 10)) acc)
                  Hfuel' (conj (Z.lt_le_incl _ _ Hpos) Hdiv) Hk')
        as (ds & Heq & Hall & Hlen & Hexact).
      exists (ds +:+ String (digit_char (n mod 10)) EmptyString).
      rewrite Heq, append_assoc, append_cons, append_nil_l.
      rewrite all_chars_append, Hall, length_append.
      cbn [all_chars String.length].
      rewrite digit_char_is_digit by (apply Z.mod_pos_bound; lia).
      repeat split; auto; try lia.
      intros Hbig.
      rewrite Hexact; [lia|].
      rewrite (Nat2Z.inj_succ k), Z.pow_succ_r in Hbig by lia.
      apply Z.div_le_lower_bound; lia.
Qed.

Lemma digits_spec (k : nat) (n : Z) :
  (0 <= n < 10 ^ Z.of_nat (S k))%Z ->
  all_chars is_digit (digits n) = true
  /\ (1 <= String.length (digits n) <= S k)%nat
  /\ ((10 ^ Z.of_nat k <= n)%Z -> String.length (digits n) = S k).
Proof.
  intros Hn. unfold digits.
  destruct (digits_fuel_spec k (S (Z.to_nat (Z.log2 n))) n EmptyString)
    as (ds & Heq & Hall & Hlen & Hexact); [lia | | lia |].
  - split; [lia|].
    rewrite Nat2Z.inj_succ, Z2Nat.id by apply Z.log2_nonneg.
    destruct (Z.eq_dec n 0) as [->|Hnz]; [reflexivity|].
    apply Z.log2_spec. lia.
  - rewrite Heq, append_nil_r. auto.
Qed.

(** ** [padStart] with a one-character pad *)

Lemma take_repeat_zero (n : nat) :
  String.length (take n (repeat_string n "0")) = n
  /\ all_chars is_digit (take n (repeat_string n "0")) = true.
Proof.
  assert (Hgen : forall m k,
             String.length (take m (repeat_string (m + k) "0")) = m
             /\ all_chars is_digit (take m (repeat_string (m + k) "0")) = true).
  { induction m as [|m IH]; intros k; [split; reflexivity|].
    cbn [Nat.add repeat_string]. rewrite append_cons, append_nil_l.
    cbn [take String.length all_chars].
    destruct (IH k) as [Hl Ha]. rewrite Hl, Ha. split; reflexivity. }
  specialize (Hgen n 0%nat). now rewrite Nat.add_0_r in Hgen.
Qed.

Lemma padStart_zero_digits (width : nat) (s : string) :
  (String.length s <= width)%nat -> all_chars is_digit s = true ->
  String.length (padStart width "0" s) = width
  /\ all_chars is_digit (padStart width "0" s) = true.
Proof.
  intros Hlen Hall. unfold padStart.
  destruct (width <=? String.length s)%nat eqn:Hle.
  - apply Nat.leb_le in Hle. split; [lia | exact Hall].
  - apply Nat.leb_gt in Hle. cbn [String.length Nat.eqb].
    destruct (take_repeat_zero (width - String.length s)) as [Hl Ha].
    rewrite length_append, all_chars_append, Hl, Ha, Hall.
    split; [lia | reflexivity].
Qed.

(** ** The order-number pattern *)

Lemma match_digits_append (n : nat) (ds rest : string) :
  String.length ds = n -> all_chars is_digit ds = true ->
  match_digits n (ds +:+ rest) = Some rest.
Proof.
  revert ds. induction n as [|n IH]; intros [|c ds]; cbn [String.length];
    try discriminate; [reflexivity|].
  intros [= Hlen]. cbn [all_chars]. intros [Hc Hds]%andb_true_iff.
  rewrite append_cons. cbn [match_digits]. rewrite Hc. now apply IH.
Qed.

Lemma substring_all (s : string) :
  String.substring 0 (String.length s) s = s.
Proof.
  induction s as [|c s IH]; [reflexivity|].
  cbn [String.length String.substring]. now rewrite IH.
Qed.

Lemma match_literal_append (lit rest : string) :
  match_literal lit (lit +:+ rest) = Some rest.
Proof.
  unfold match_literal.
  assert (Hpre : String.prefix lit (lit +:+ rest) = true).
  { induction lit as [|c lit IH]; [now destruct rest|].
    rewrite append_cons. cbn [String.prefix].
    destruct (ascii_dec c c); [exact IH | congruence]. }
  rewrite Hpre, length_append. f_equal.
  replace (String.length lit + String.length rest - String.length lit)%nat
    with (String.length rest) by lia.
  induction lit as [|c lit IH]; [apply substring_all|].
  - rewrite append_cons. cbn [String.length String.substring]. apply IH.
    clear IH. revert Hpre. rewrite append_cons. cbn [String.prefix].
    now destruct (ascii_dec c c).
Qed.

Lemma matches_order_number_intro (year suffix : string) :
  String.length year = 4%nat -> all_chars is_digit year = true ->
  String.length suffix = 5%nat -> all_chars is_digit suffix = true ->
  matches_order_number ("RO-" +:+ year +:+ "-" +:+ suffix) = true.
Proof.
  intros Hy Hyd Hs Hsd. unfold matches_order_number.
  rewrite match_literal_append, (match_digits_append 4) by assumption.
  rewrite match_literal_append.
  rewrite <- (append_nil_r suffix) at 1.
  now rewrite (match_digits_append 5) by assumption.
Qed.

End DigitProperties.

(** ** The calendar arithmetic *)

Section DateProperties.
Import JSDate TestData.

Lemma civil_from_days_range (days : Z) :
  let '(y, m, d) := civil_from_days days in
  (1 <= m <= 12)%Z /\ (1 <= d <= 31)%Z.
Proof.
  unfold civil_from_days.
  set (z := (days + 719468)%Z).
  set (era := (z / 146097)%Z).
  set (doe := (z - era * 146097)%Z).
  set (yoe := ((doe - doe / 1460 + doe / 36524 - doe / 146096) / 365)%Z).
  set (doy := (doe - (365 * yoe + yoe / 4 - yoe / 100))%Z).
  set (mp := ((5 * doy + 2) / 153)%Z).
  assert (Hdoe : (0 <= doe < 146097)%Z).
  { subst doe era. pose proof (Z.mod_pos_bound z 146097).
    pose proof (Z.div_mod z 146097). lia. }
  assert (Hy : (0 <= yoe <= 399)%Z /\ (0 <= doy <= 365)%Z).
  { subst doy yoe. clearbody doe. clear -Hdoe. Z.div_mod_to_equations. lia. }
  assert (Hmp : (0 <= mp <= 11)%Z).
  { subst mp. clearbody doy. clear -Hy. Z.div_mod_to_equations. lia. }
  destruct (mp <? 10)%Z eqn:Hlt;
    [apply Z.ltb_lt in Hlt | apply Z.ltb_ge in Hlt];
    (split; [lia|]); subst mp; clearbody doy; clear -Hy;
    Z.div_mod_to_equations; lia.
Qed.

(** The two conversions are inverse: the date of a day number names that
    day. *)
Lemma days_from_civil_from_days (days : Z) :
  let '(y, m, d) := civil_from_days days in days_from_civil y m d = days.
Proof.
  unfold civil_from_days.
  set (z := (days + 719468)%Z).
  set (era := (z / 146097)%Z).
  set (doe := (z - era * 146097)%Z).
  set (yoe := ((doe - doe / 1460 + doe / 36524 - doe / 146096) / 365)%Z).
  set (doy := (doe - (365 * yoe + yoe / 4 - yoe / 100))%Z).
  set (mp := ((5 * doy + 2) / 153)%Z).
  assert (Hdoe : (0 <= doe < 146097)%Z).
  { subst doe era. pose proof (Z.mod_pos_bound z 146097).
    pose proof (Z.div_mod z 146097). lia. }
  assert (Hy : (0 <= yoe <= 399)%Z /\ (0 <= doy <= 365)%Z).
  { subst doy yoe. clearbody doe. clear -Hdoe. Z.div_mod_to_equations. lia. }
  assert (Hmp : (0 <= mp <= 11)%Z).
  { subst mp. clearbody doy. clear -Hy. Z.div_mod_to_equations. lia. }
  assert (He : ((yoe + era * 400) / 400 = era)%Z).
  { clearbody yoe era. clear -Hy. Z.div_mod_to_equations. lia. }
  unfold days_from_civil.
  destruct (mp <? 10)%Z eqn:Hlt;
    [apply Z.ltb_lt in Hlt | apply Z.ltb_ge in Hlt].
  - replace (mp + 3 <=? 2)%Z with false by (symmetry; apply Z.leb_gt; lia).
    replace (2 <? mp + 3)%Z with true by (symmetry; apply Z.ltb_lt; lia).
    replace (mp + 3 - 3)%Z with mp by lia.
    rewrite He.
    replace (yoe + era * 400 - era * 400)%Z with yoe by lia.
    subst doy doe z. lia.
  - replace (mp - 9 <=? 2)%Z with true by (symmetry; apply Z.leb_le; lia).
    replace (2 <? mp - 9)%Z with false by (symmetry; apply Z.ltb_ge; lia).
    replace (mp - 9 + 9)%Z with mp by lia.
    replace (yoe + era * 400 + 1 - 1)%Z with (yoe + era * 400)%Z by lia.
    rewrite He.
    replace (yoe + era * 400 - era * 400)%Z with yoe by lia.
    subst doy doe z. lia.
Qed.

Lemma days_from_civil_linear (y m d : Z) :
  (days_from_civil y m 1 + d - 1 = days_from_civil y m d)%Z.
Proof. unfold days_from_civil. lia. Qed.

(** With a constant offset from UTC, replacing the day of the month by
    itself plus [n] moves the instant by [n] days. *)
Lemma setDate_shift (tza t n : Z) :
  setDate (fun _ _ => tza) t (getDate (fun _ _ => tza) t + n)
  = (t + n * msPerDay)%Z.
Proof.
  unfold setDate, getDate, LocalTime, UTC, YearFromTime, MonthFromTime,
    DateFromTime, MakeDay, MakeDate.
  pose proof (civil_from_days_range (Day (t + tza))) as Hrange.
  pose proof (days_from_civil_from_days (Day (t + tza))) as Hround.
  destruct (civil_from_days (Day (t + tza))) as [[y m] d].
  replace ((m - 1) / 12)%Z with 0%Z by (symmetry; apply Z.div_small; lia).
  rewrite (Z.mod_small (m - 1) 12) by lia.
  replace (y + 0)%Z with y by lia.
  replace (m - 1 + 1)%Z with m by lia.
  replace (days_from_civil y m 1 + (d + n) - 1)%Z
    with (days_from_civil y m d + n)%Z
    by (rewrite <- (days_from_civil_linear y m d); lia).
  rewrite Hround. unfold Day, TimeWithinDay.
  pose proof (Z.div_mod (t + tza) msPerDay). unfold msPerDay in *. lia.
Qed.

End DateProperties.

(** ** The date part of an ISO string *)

Section IsoProperties.
Import JSDate TestData.

Lemma all_chars_impl (p q : ascii -> bool) (s : string) :
  (forall c, p c = true -> q c = true) ->
  all_chars p s = true -> all_chars q s = true.
Proof.
  intros Hpq. induction s as [|c s IH]; cbn [all_chars]; [reflexivity|].
  intros [Hc Hs]%andb_true_iff. now rewrite (Hpq c Hc), IH.
Qed.

Lemma is_digit_not_T (c : ascii) : is_digit c = true -> not_T c = true.
Proof. destruct c as [[] [] [] [] [] [] [] []]; vm_compute; congruence. Qed.

Lemma digits_all_digits (n : Z) :
  (0 <= n)%Z -> all_chars is_digit (digits n) = true.
Proof.
  intros Hn. apply (digits_spec (Z.to_nat n)). split; [exact Hn|].
  rewrite Nat2Z.inj_succ, Z2Nat.id, Z.pow_succ_r by lia.
  pose proof (Z.pow_gt_lin_r 10 n). lia.
Qed.

Lemma padStart_zero_all_digits (width : nat) (s : string) :
  all_chars is_digit s = true ->
  all_chars is_digit (padStart width "0" s) = true.
Proof.
  intros Hall. unfold padStart.
  destruct (width <=? String.length s)%nat; [exact Hall|].
  cbn [String.length Nat.eqb].
  rewrite all_chars_append, Hall.
  now rewrite (proj2 (take_repeat_zero _)).
Qed.

Lemma pad_not_T (width : nat) (n : Z) :
  (0 <= n)%Z -> all_chars not_T (pad width n) = true.
Proof.
  intros Hn. apply (all_chars_impl is_digit); [exact is_digit_not_T|].
  unfold pad, Number_toString.
  destruct (n <? 0)%Z eqn:Hneg; [apply Z.ltb_lt in Hneg; lia|].
  apply padStart_zero_all_digits. now apply digits_all_digits.
Qed.

Lemma isoYear_not_T (y : Z) : all_chars not_T (isoYear y) = true.
Proof.
  unfold isoYear.
  destruct ((0 <=? y)%Z && (y <=? 9999)%Z) eqn:Hrange.
  - apply andb_true_iff in Hrange. destruct Hrange as [H0 _].
    apply Z.leb_le in H0. now apply pad_not_T.
  - destruct (y <? 0)%Z eqn:Hneg.
    + apply Z.ltb_lt in Hneg. rewrite append_cons, append_nil_l.
      cbn [all_chars]. rewrite pad_not_T by lia. reflexivity.
    + apply Z.ltb_ge in Hneg. rewrite append_cons, append_nil_l.
      cbn [all_chars]. rewrite pad_not_T by lia. reflexivity.
Qed.

Lemma split_head_append (pre rest : string) :
  all_chars not_T pre = true ->
  split_head "T"%char (pre +:+ String "T"%char rest) = pre.
Proof.
  induction pre as [|c pre IH]; [reflexivity|].
  cbn [all_chars]. intros [Hc Hpre]%andb_true_iff.
  rewrite append_cons. cbn [split_head].
  unfold not_T in Hc. apply negb_true_iff in Hc. rewrite Hc.
  now rewrite IH.
Qed.

(** [toISOString().split("T")[0]] is the UTC calendar date. *)
Lemma toISOString_date (t : Z) :
  split_head "T"%char (toISOString t)
  = dateString (civil_from_days (Day t)).
Proof.
  unfold toISOString, dateString, YearFromTime, MonthFromTime, DateFromTime.
  pose proof (civil_from_days_range (Day t)) as Hrange.
  destruct (civil_from_days (Day t)) as [[y m] d].
  replace (m - 1 + 1)%Z with m by lia.
  match goal with
  | |- split_head _ (?a +:+ ?b +:+ ?c +:+ ?d +:+ ?e +:+ "T" +:+ ?rest) = _ =>
      replace (a +:+ b +:+ c +:+ d +:+ e +:+ "T" +:+ rest)
        with ((a +:+ b +:+ c +:+ d +:+ e) +:+ String "T"%char rest)
        by (now rewrite !append_assoc)
  end.
  apply split_head_append.
  rewrite !all_chars_append, isoYear_not_T, !pad_not_T by lia.
  reflexivity.
Qed.

(** What [getNextBusinessDay] returns, with a constant offset from UTC:
    the UTC date of the instant [n] days from now, [n] chosen from the
    local weekday. *)
Lemma getNextBusinessDay_value (tza now : Z) :
  getNextBusinessDay (fun _ _ => tza) now
  = dateString
      (civil_from_days
         (Day now
          + (if (WeekDay (now + tza) =? 5)%Z then 3
             else if (WeekDay (now + tza) =? 6)%Z then 2 else 1))).
Proof.
  unfold getNextBusinessDay.
  assert (Hn : (if (getDay (fun _ _ => tza) now =? 6)%Z then 2%Z
                else if (getDay (fun _ _ => tza) now =? 5)%Z then 3%Z
                     else 1%Z)
               = (if (WeekDay (now + tza) =? 5)%Z then 3%Z
                  else if (WeekDay (now + tza) =? 6)%Z then 2%Z else 1%Z)).
  { unfold getDay, LocalTime.
    destruct (WeekDay (now + tza) =? 5)%Z eqn:H5; [|reflexivity].
    apply Z.eqb_eq in H5. rewrite H5. reflexivity. }
  rewrite Hn, setDate_shift, toISOString_date. f_equal. f_equal.
  unfold Day. apply Z.div_add. unfold msPerDay. lia.
Qed.

(** Where the local and the UTC calendar show the same date, in
    particular when local time is UTC, [getNextBusinessDay] returns the
    date the specification asks for. *)
Lemma getNextBusinessDay_when_dates_agree (tza now : Z) :
  Day (now + tza) = Day now ->
  getNextBusinessDay (fun _ _ => tza) now
  = spec_nextBusinessDay (fun _ _ => tza) now.
Proof.
  intros Hsame. rewrite getNextBusinessDay_value.
  unfold spec_nextBusinessDay, local_date_plus, LocalTime.
  now rewrite Hsame.
Qed.

Lemma getNextBusinessDay_utc_correct (now : Z) :
  getNextBusinessDay utc now = spec_nextBusinessDay utc now.
Proof.
  apply (getNextBusinessDay_when_dates_agree 0 now).
  now rewrite Z.add_0_r.
Qed.

End IsoProperties.

Section OrderNumberProperties.
Import JSDate TestData.

(** C8. Whenever [Math.random()] returns a double in [0, 1), the string
    [generateOrderNumber] returns is "RO-", the current year in decimal,
    "-", and a suffix of exactly five decimal digits (the random number
    below 99999, padded with zeros on the left); with a current year of
    four digits the year part is four decimal digits and the whole string
    matches [RO-\d{4}-\d{5}]. *)
Theorem generateOrderNumber_spec (LocalTZA : Z -> bool -> Z) (now : Z)
  (random : nat -> Double) (drawn : nat) :
  unit_double (random drawn) ->
  exists suffix,
    fst (generateOrderNumber LocalTZA now random drawn)
    = "RO-" +:+ Number_toString (getFullYear LocalTZA now) +:+ "-" +:+ suffix
    /\ String.length suffix = 5%nat
    /\ all_chars is_digit suffix = true
    /\ ((1000 <= getFullYear LocalTZA now <= 9999)%Z ->
        String.length (Number_toString (getFullYear LocalTZA now)) = 4%nat
        /\ all_chars is_digit (Number_toString (getFullYear LocalTZA now))
           = true
        /\ matches_order_number
             (fst (generateOrderNumber LocalTZA now random drawn)) = true).
Proof.
  intros Hunit. unfold generateOrderNumber, Math_random. cbn [fst].
  set (year := getFullYear LocalTZA now) in *.
  set (n := Math_floor (Double_mul_Z (random drawn) 99999)).
  assert (Hn : (0 <= n < 99999)%Z)
    by (apply (floor_random_bound (random drawn) 99999 16);
        [exact Hunit | lia | cbn; lia]).
  assert (HS : String.length (padStart 5 "0" (Number_toString n)) = 5%nat
               /\ all_chars is_digit (padStart 5 "0" (Number_toString n))
                  = true).
  { unfold Number_toString.
    destruct (n <? 0)%Z eqn:Hneg; [apply Z.ltb_lt in Hneg; lia|].
    destruct (digits_spec 4 n) as (Hall & Hlen & _);
      [change (10 ^ Z.of_nat 5)%Z with 100000%Z; lia|].
    apply padStart_zero_digits; [lia | exact Hall]. }
  destruct HS as [HSl HSd].
  eexists. split; [reflexivity|]. split; [exact HSl|]. split; [exact HSd|].
  intros Hyear.
  assert (HY : String.length (Number_toString year) = 4%nat
               /\ all_chars is_digit (Number_toString year) = true).
  { unfold Number_toString.
    destruct (year <? 0)%Z eqn:Hneg; [apply Z.ltb_lt in Hneg; lia|].
    destruct (digits_spec 3 year) as (Hall & _ & Hexact);
      [change (10 ^ Z.of_nat 4)%Z with 10000%Z; lia|].
    split; [apply Hexact; change (10 ^ Z.of_nat 3)%Z with 1000%Z; lia
           | exact Hall]. }
  destruct HY as [HYl HYd]. split; [exact HYl|]. split; [exact HYd|].
  now apply matches_order_number_intro.
Qed.

(** 2024-06-15T04:00:00Z read five hours behind UTC, and the double
    nearest to one third. *)
Lemma generateOrderNumber_spec_witness :
  matches_order_number
    (fst (generateOrderNumber centralDaylight 1718424000000
            (fun _ => oneThird) 0)) = true.
Proof.
  destruct (generateOrderNumber_spec centralDaylight 1718424000000
              (fun _ => oneThird) 0) as (suffix & _ & _ & _ & Hyear).
  - repeat split; cbn [oneThird mant expo]; lia.
  - apply Hyear. vm_compute. split; discriminate.
Defined.

(** The year part is as wide as the year: in the year 10000 it has five
    digits. *)
Example generateOrderNumber_year_10000 :
  fst (generateOrderNumber utc 253402300800000 (fun _ => oneThird) 0)
  = "RO-10000-33333".
Proof. vm_compute. reflexivity. Qed.

Example generateOrderNumber_sample :
  fst (generateOrderNumber centralDaylight 1718424000000
         (fun _ => oneThird) 0) = "RO-2024-33333"
  /\ fst (generateOrderNumber centralDaylight 1718424000000
            (fun _ => mkDouble 1 (-10)) 0) = "RO-2024-00097"
  /\ fst (generateOrderNumber centralDaylight 1718424000000
            (fun _ => belowOne) 0) = "RO-2024-99998".
Proof. vm_compute. repeat split. Qed.

(** ** [getNextBusinessDay] and the time zone

    The weekday test and the day arithmetic run on the local calendar, but
    [toISOString] prints the UTC calendar date.  The two calendars show
    different dates during the hours that separate local midnight from UTC
    midnight. *)

(** C6, at Friday 2024-06-14 23:00 local time, five hours behind UTC
    (2024-06-15T04:00:00Z): today is a Friday on the local calendar and a
    Saturday on the UTC calendar, the following Monday is 2024-06-17 on
    either, and [getNextBusinessDay] returns 2024-06-18, a Tuesday. *)
Theorem getNextBusinessDay_friday_evening :
  getDay centralDaylight 1718424000000 = 5%Z
  /\ spec_nextBusinessDay centralDaylight 1718424000000 = "2024-06-17"
  /\ getDay utc 1718424000000 = 6%Z
  /\ spec_nextBusinessDay utc 1718424000000 = "2024-06-17"
  /\ getNextBusinessDay centralDaylight 1718424000000 = "2024-06-18"
  /\ WeekDay (days_from_civil 2024 6 18 * msPerDay) = 2%Z.
Proof. vm_compute. repeat split; reflexivity. Qed.

(** East of Greenwich the date falls short instead: at Monday 2024-06-17
    01:00 local time, two hours ahead of UTC, tomorrow is 2024-06-18 and the
    function returns 2024-06-17, today's date. *)
Example getNextBusinessDay_monday_night :
  getDay centralEuropeanSummer 1718578800000 = 1%Z
  /\ spec_nextBusinessDay centralEuropeanSummer 1718578800000 = "2024-06-18"
  /\ getNextBusinessDay centralEuropeanSummer 1718578800000 = "2024-06-17".
Proof. vm_compute. repeat split; reflexivity. Qed.

(** The same two instants read on a machine whose local time is UTC. *)
Example getNextBusinessDay_utc :
  getNextBusinessDay utc 1718424000000 = "2024-06-17"
  /\ getNextBusinessDay utc 1718578800000 = "2024-06-17".
Proof. vm_compute. split; reflexivity. Qed.

End OrderNumberProperties.

(* ===================================================================== *)
(** * Properties of the page objects                                      *)
(* ===================================================================== *)

Section EngineProperties.
Import BasePage.
Context {A : Type} `{Application A}.

Lemma first_visible_some (l : Locator) (a : A) (fuel t t' : nat) :
  first_visible l a t fuel = Some t' ->
  (t <= t' <= t + fuel)%nat /\ state_of l (elapse t' a) = Visible.
Proof.
  revert t. induction fuel as [|fuel IH]; intros t; cbn [first_visible];
    destruct (state_of l (elapse t a)) eqn:Hst; cbn [is_visible];
    try discriminate;
    try (intros [= <-]; split; [lia | exact Hst]);
    intros Hrec; apply IH in Hrec; (split; [lia | tauto]).
Qed.

Lemma first_visible_none (l : Locator) (a : A) (fuel t : nat) :
  first_visible l a t fuel = None ->
  forall t', (t <= t' <= t + fuel)%nat -> state_of l (elapse t' a) <> Visible.
Proof.
  revert t. induction fuel as [|fuel IH]; intros t; cbn [first_visible];
    destruct (state_of l (elapse t a)) eqn:Hst; cbn [is_visible];
    try discriminate; intros Hrec t' Ht';
    (destruct (Nat.eq_dec t' t) as [->|Hne];
     [rewrite Hst; discriminate | try lia; apply (IH _ Hrec); lia]).
Qed.

(** What [isVisible] computes: the bounded wait is recorded, time passes
    until the element is visible or the 5000 ms are over, and the outcome of
    the wait becomes a boolean. *)
Lemma isVisible_unfold (locator : Locator) (b : Browser A) :
  isVisible locator b
  = match first_visible locator (app b) 0 5000 with
    | Some t =>
        (Ok true,
         mkBrowser (elapse t (app b))
           (calls b ++ [CallWaitFor locator 5000]))
    | None =>
        (Ok false,
         mkBrowser (elapse 5000 (app b))
           (calls b ++ [CallWaitFor locator 5000]))
    end.
Proof.
  unfold isVisible, try_catch, locator_waitFor_visible, bind, record, observe,
    update, throw, ret. cbn [app calls].
  destruct (first_visible locator (app b) 0 5000); reflexivity.
Qed.

(** C9. [isVisible] never throws.  It returns [true] exactly when the
    element is visible at some instant of the 5000 ms wait, and [false]
    otherwise: in particular when the element stays absent, and when it is
    present but stays hidden. *)
Theorem isVisible_spec (locator : Locator) (b : Browser A) :
  exists v b',
    isVisible locator b = (Ok v, b')
    /\ (v = true <->
        exists t, (t <= 5000)%nat
                  /\ state_of locator (elapse t (app b)) = Visible)
    /\ ((forall t, (t <= 5000)%nat ->
                   state_of locator (elapse t (app b)) = Absent) ->
        v = false)
    /\ ((forall t, (t <= 5000)%nat ->
                   state_of locator (elapse t (app b)) = Hidden) ->
        v = false).
Proof.
  rewrite isVisible_unfold.
  destruct (first_visible locator (app b) 0 5000) as [t|] eqn:Hfirst.
  - apply first_visible_some in Hfirst. destruct Hfirst as [Ht Hvis].
    do 2 eexists. split; [reflexivity|]. split; [|split].
    + split; [intros _; exists t; split; [lia | exact Hvis] | reflexivity].
    + intros Habs. rewrite Habs in Hvis by lia. discriminate.
    + intros Hhid. rewrite Hhid in Hvis by lia. discriminate.
  - pose proof (first_visible_none _ _ _ _ Hfirst) as Hnone.
    do 2 eexists. split; [reflexivity|]. split; [|split]; try reflexivity.
    split; [discriminate|].
    intros (t & Ht & Hvis). exfalso. apply (Hnone t); [lia | exact Hvis].
Qed.

End EngineProperties.

(** A toast that is in the page but never shown: the probe answers
    [false]. *)
Lemma isVisible_spec_witness :
  exists v b',
    BasePage.isVisible ".success-notification, .toast-success"
      (BasePage.mkBrowser (Models.mkTimed (fun _ _ => BasePage.Hidden) 0) [])
    = (Ok v, b')
    /\ v = false.
Proof.
  destruct (isVisible_spec ".success-notification, .toast-success"
              (BasePage.mkBrowser
                 (Models.mkTimed (fun _ _ => BasePage.Hidden) 0) []))
    as (v & b' & Heq & _ & _ & Hhidden).
  exists v, b'. split; [exact Heq|].
  apply Hhidden. intros t _. reflexivity.
Defined.

(** An element that shows up after 1200 ms is seen. *)
Example isVisible_late_element :
  fst (BasePage.isVisible "table"
         (BasePage.mkBrowser
            (Models.mkTimed
               (fun _ t => if (t <? 1200)%nat then BasePage.Absent
                           else BasePage.Visible) 0) []))
  = Ok true.
Proof. vm_compute. reflexivity. Qed.

(** ** Sequencing *)

Section Sequencing.
Import BasePage.
Context {A : Type} `{Application A}.

Lemma respects_ret (R : Browser A -> Browser A -> Prop) {X : Type} (x : X) :
  (forall b, R b b) -> respects R (ret x).
Proof. intros Hrefl b. apply Hrefl. Qed.

Lemma respects_bind (R : Browser A -> Browser A -> Prop) {X Y : Type}
  (m : Async A X) (k : X -> Async A Y) :
  (forall b1 b2 b3, R b1 b2 -> R b2 b3 -> R b1 b3) ->
  respects R m -> (forall x, respects R (k x)) -> respects R (bind m k).
Proof.
  intros Htrans Hm Hk b. unfold bind.
  specialize (Hm b). destruct (m b) as [[x|e] b']; cbn [snd] in *.
  - eapply Htrans; [exact Hm | apply Hk].
  - exact Hm.
Qed.

(** On an application that does not change while the test waits, waiting
    for a condition is testing it. *)
Lemma first_instant_static (p : A -> bool) (a : A) :
  (forall t, elapse t a = a) ->
  forall fuel t, first_instant p a t fuel = if p a then Some t else None.
Proof.
  intros Hstatic. induction fuel as [|fuel IH]; intros t;
    cbn [first_instant]; rewrite Hstatic; [reflexivity|].
  rewrite IH. now destruct (p a).
Qed.

Lemma wait_until_static (p : A -> bool) (a : A) (limit : nat) :
  (forall t, elapse t a = a) ->
  wait_until p a limit = if p a then Some a else None.
Proof.
  intros Hstatic. unfold wait_until. destruct (p a) eqn:Hp; [reflexivity|].
  destruct limit as [|fuel]; [reflexivity|].
  now rewrite (first_instant_static p a Hstatic), Hp.
Qed.

Lemma wait_until_now (p : A -> bool) (a : A) (limit : nat) :
  p a = true -> wait_until p a limit = Some a.
Proof. intros Hp. unfold wait_until. now rewrite Hp. Qed.

(** An action records its call, then either takes effect on the
    application as the wait leaves it, or fails when the timeout is over. *)
Lemma acting_unfold (l : Locator) (c : EngineCall) (effect : A -> A)
  (what : string) (b : Browser A) :
  snd (acting l c effect what b)
  = mkBrowser (match wait_until (actionable l) (app b) defaultTimeout with
               | Some ready => effect ready
               | None => elapse defaultTimeout (app b)
               end)
      (calls b ++ [c]).
Proof.
  unfold acting, bind, record, observe, update, throw. cbn [app calls].
  destruct (wait_until (actionable l) (app b) defaultTimeout); reflexivity.
Qed.

Lemma if_truthy_respects (R : Browser A -> Browser A -> Prop)
  (v : option string) (action : string -> Async A unit) :
  (forall b, R b b) ->
  (forall text, v = Some text -> text <> EmptyString ->
                respects R (action text)) ->
  respects R (RepairOrdersPage.if_truthy v action).
Proof.
  intros Hrefl Haction. unfold RepairOrdersPage.if_truthy.
  destruct v as [text|]; cbn [truthy]; [|now apply respects_ret].
  destruct (String.eqb text EmptyString) eqn:Hempty; cbn [negb];
    [now apply respects_ret|].
  apply Haction; [reflexivity|]. now apply String.eqb_neq.
Qed.

(** *** The engine calls a form helper may add *)
Variable allowed : Locator -> string -> Prop.

Lemma only_allowed_calls_refl (b : Browser A) : only_allowed_calls allowed b b.
Proof. exists []. split; [now rewrite app_nil_r | constructor]. Qed.

Lemma only_allowed_calls_trans (b1 b2 b3 : Browser A) :
  only_allowed_calls allowed b1 b2 -> only_allowed_calls allowed b2 b3 ->
  only_allowed_calls allowed b1 b3.
Proof.
  intros (n1 & H1 & F1) (n2 & H2 & F2). exists (n1 ++ n2)%list. split.
  - now rewrite H2, H1, <- List.app_assoc.
  - apply Forall_app. now split.
Qed.

Lemma fill_only_allowed (l : Locator) (text : string) :
  allowed l text -> respects (only_allowed_calls allowed) (fill l text).
Proof.
  intros Hallowed b. unfold fill, locator_fill. rewrite acting_unfold.
  exists [CallFill l text]. split; [reflexivity|].
  constructor; [|constructor]. now exists l, text.
Qed.

Lemma selectDropdown_only_allowed (l : Locator) (value : string) :
  allowed l value -> respects (only_allowed_calls allowed) (selectDropdown l value).
Proof.
  intros Hallowed b. unfold selectDropdown, locator_selectOption.
  rewrite acting_unfold.
  exists [CallSelectOption l value]. split; [reflexivity|].
  constructor; [|constructor]. now exists l, value.
Qed.

End Sequencing.

(** *** The controls of a form a helper may change *)

Section FormFrame.
Import BasePage Models.
Variable allowed : Locator -> string -> Prop.

Lemma only_allowed_values_refl (b : Browser Form) : only_allowed_values allowed b b.
Proof. intros l. now left. Qed.

Lemma only_allowed_values_trans (b1 b2 b3 : Browser Form) :
  only_allowed_values allowed b1 b2 -> only_allowed_values allowed b2 b3 ->
  only_allowed_values allowed b1 b3.
Proof.
  intros H12 H23 l. destruct (H23 l) as [Heq|Hnew]; [|now right].
  rewrite Heq. apply H12.
Qed.

Lemma form_write_only_allowed (l : Locator) (text what : string)
  (c : EngineCall) (b : Browser Form) :
  allowed l text ->
  only_allowed_values allowed b (snd (acting l c (form_write l text) what b)).
Proof.
  intros Hallowed l'. rewrite acting_unfold. cbn [app].
  rewrite wait_until_static by reflexivity.
  destruct (actionable l (app b)); [|now left].
  unfold value_of, form_write. cbn [values].
  destruct (decide (l = l')) as [<-|Hne].
  - right. exists text. split; [exact Hallowed | apply lookup_insert_eq].
  - left. now apply lookup_insert_ne.
Qed.

Lemma fill_only_allowed_values (l : Locator) (text : string) :
  allowed l text -> respects (only_allowed_values allowed) (fill l text).
Proof. intros Hallowed b. now apply form_write_only_allowed. Qed.

Lemma selectDropdown_only_allowed_values (l : Locator) (value : string) :
  allowed l value -> respects (only_allowed_values allowed) (selectDropdown l value).
Proof. intros Hallowed b. now apply form_write_only_allowed. Qed.

End FormFrame.

(** ** The form helpers *)

(** Discharges [may_write payload l text] for the control [l] of the
    property just tested, trying the fields in turn. *)
Ltac field_witness Hsupplied Hnonempty :=
  first
    [ exists RepairOrdersPage.CustomerName; now repeat split
    | exists RepairOrdersPage.VehicleVin; now repeat split
    | exists RepairOrdersPage.VehicleMake; now repeat split
    | exists RepairOrdersPage.VehicleModel; now repeat split
    | exists RepairOrdersPage.VehicleYear; now repeat split
    | exists RepairOrdersPage.Description; now repeat split
    | exists RepairOrdersPage.EstimatedCost; now repeat split
    | exists RepairOrdersPage.Status; now repeat split
    | exists AppointmentsPage.CustomerName; now repeat split
    | exists AppointmentsPage.PhoneNumber; now repeat split
    | exists AppointmentsPage.Email; now repeat split
    | exists AppointmentsPage.ServiceType; now repeat split
    | exists AppointmentsPage.VehicleVin; now repeat split
    | exists AppointmentsPage.PreferredDate; now repeat split
    | exists AppointmentsPage.PreferredTime; now repeat split
    | exists AppointmentsPage.Notes; now repeat split ].

(** Walks through a form helper: a sequence of guarded writes. *)
Ltac form_steps Hrefl Htrans Hfill Hselect :=
  repeat (apply respects_bind; [exact Htrans | | intros _]);
  (apply if_truthy_respects; [exact Hrefl|]);
  intros text Hsupplied Hnonempty;
  first [apply Hfill | apply Hselect];
  field_witness Hsupplied Hnonempty.

Section FormHelpers.
Import BasePage.

Lemma repairOrder_locator_inj (f g : RepairOrdersPage.Field) :
  RepairOrdersPage.locator_of f = RepairOrdersPage.locator_of g -> f = g.
Proof. destruct f, g; vm_compute; congruence. Qed.

Lemma appointment_locator_inj (f g : AppointmentsPage.Field) :
  AppointmentsPage.locator_of f = AppointmentsPage.locator_of g -> f = g.
Proof. destruct f, g; vm_compute; congruence. Qed.

Lemma fillRepairOrderForm_calls {A : Type} `{Application A}
  (orderData : RepairOrdersPage.OrderData) :
  respects (only_allowed_calls (A := A) (repairOrder_may_write orderData))
    (RepairOrdersPage.fillRepairOrderForm orderData).
Proof.
  unfold RepairOrdersPage.fillRepairOrderForm.
  form_steps (only_allowed_calls_refl (A := A)
                (repairOrder_may_write orderData))
             (only_allowed_calls_trans (A := A)
                (repairOrder_may_write orderData))
             (fill_only_allowed (A := A) (repairOrder_may_write orderData))
             (selectDropdown_only_allowed (A := A)
                (repairOrder_may_write orderData)).
Qed.

Lemma fillAppointmentForm_calls {A : Type} `{Application A}
  (appointmentData : AppointmentsPage.AppointmentData) :
  respects (only_allowed_calls (A := A)
              (appointment_may_write appointmentData))
    (AppointmentsPage.fillAppointmentForm appointmentData).
Proof.
  unfold AppointmentsPage.fillAppointmentForm, AppointmentsPage.if_truthy.
  form_steps (only_allowed_calls_refl (A := A)
                (appointment_may_write appointmentData))
             (only_allowed_calls_trans (A := A)
                (appointment_may_write appointmentData))
             (fill_only_allowed (A := A)
                (appointment_may_write appointmentData))
             (selectDropdown_only_allowed (A := A)
                (appointment_may_write appointmentData)).
Qed.

Lemma fillRepairOrderForm_values (orderData : RepairOrdersPage.OrderData) :
  respects (only_allowed_values (repairOrder_may_write orderData))
    (RepairOrdersPage.fillRepairOrderForm orderData).
Proof.
  unfold RepairOrdersPage.fillRepairOrderForm.
  form_steps (only_allowed_values_refl (repairOrder_may_write orderData))
             (only_allowed_values_trans (repairOrder_may_write orderData))
             (fill_only_allowed_values (repairOrder_may_write orderData))
             (selectDropdown_only_allowed_values
                (repairOrder_may_write orderData)).
Qed.

Lemma fillAppointmentForm_values
  (appointmentData : AppointmentsPage.AppointmentData) :
  respects (only_allowed_values (appointment_may_write appointmentData))
    (AppointmentsPage.fillAppointmentForm appointmentData).
Proof.
  unfold AppointmentsPage.fillAppointmentForm, AppointmentsPage.if_truthy.
  form_steps (only_allowed_values_refl
                (appointment_may_write appointmentData))
             (only_allowed_values_trans
                (appointment_may_write appointmentData))
             (fill_only_allowed_values
                (appointment_may_write appointmentData))
             (selectDropdown_only_allowed_values
                (appointment_may_write appointmentData)).
Qed.

End FormHelpers.

Section FormClaims.
Import BasePage.

(** C2. [fillRepairOrderForm] and [fillAppointmentForm] write only to the
    form fields the payload supplies.  Every engine call either helper adds
    is a [fill] or [selectOption] of a field's control with the value the
    payload gives for that field; no call addresses the control of a field
    the payload leaves out; and on a form, where a write changes the
    addressed control only, every field the payload leaves out holds
    afterwards the value it held before, whether the helper completes or
    stops at a control that cannot be filled. *)
Theorem fill_forms_leave_unsupplied_fields :
  (forall (A : Type) (App : Application A)
          (orderData : RepairOrdersPage.OrderData) (b : Browser A),
      exists new : list EngineCall,
        calls (snd (RepairOrdersPage.fillRepairOrderForm orderData b))
        = (calls b ++ new)%list
        /\ (forall c, In c new ->
              exists f text,
                RepairOrdersPage.supplied orderData f = Some text
                /\ written c = Some (RepairOrdersPage.locator_of f, text))
        /\ (forall f, RepairOrdersPage.supplied orderData f = None ->
              forall c text,
                In c new ->
                written c <> Some (RepairOrdersPage.locator_of f, text)))
  /\ (forall (orderData : RepairOrdersPage.OrderData) (b : Browser Form) f,
         RepairOrdersPage.supplied orderData f = None ->
         value_of (RepairOrdersPage.locator_of f)
           (app (snd (RepairOrdersPage.fillRepairOrderForm orderData b)))
         = value_of (RepairOrdersPage.locator_of f) (app b))
  /\ (forall (A : Type) (App : Application A)
             (appointmentData : AppointmentsPage.AppointmentData)
             (b : Browser A),
         exists new : list EngineCall,
           calls (snd (AppointmentsPage.fillAppointmentForm appointmentData b))
           = (calls b ++ new)%list
           /\ (forall c, In c new ->
                 exists f text,
                   AppointmentsPage.supplied appointmentData f = Some text
                   /\ written c = Some (AppointmentsPage.locator_of f, text))
           /\ (forall f, AppointmentsPage.supplied appointmentData f = None ->
                 forall c text,
                   In c new ->
                   written c <> Some (AppointmentsPage.locator_of f, text)))
  /\ (forall (appointmentData : AppointmentsPage.AppointmentData)
             (b : Browser Form) f,
         AppointmentsPage.supplied appointmentData f = None ->
         value_of (AppointmentsPage.locator_of f)
           (app (snd (AppointmentsPage.fillAppointmentForm appointmentData b)))
         = value_of (AppointmentsPage.locator_of f) (app b)).
Proof.
  split; [|split; [|split]].
  - intros A App orderData b.
    destruct (fillRepairOrderForm_calls orderData b) as (new & Hcalls & Hnew).
    rewrite Stdlib.Lists.List.Forall_forall in Hnew.
    exists new. split; [exact Hcalls|]. split.
    + intros c Hc.
      destruct (Hnew c Hc) as (l & text & Hw & f & -> & Hf & _). eauto.
    + intros f Hnone c text Hc Hw.
      destruct (Hnew c Hc) as (l & text' & Hw' & g & -> & Hg & _).
      rewrite Hw' in Hw. injection Hw as Hloc _.
      apply repairOrder_locator_inj in Hloc. congruence.
  - intros orderData b f Hnone.
    destruct (fillRepairOrderForm_values orderData b
                (RepairOrdersPage.locator_of f))
      as [Hsame | (text & (g & Hloc & Hg & _) & _)]; [exact Hsame|].
    apply repairOrder_locator_inj in Hloc. congruence.
  - intros A App appointmentData b.
    destruct (fillAppointmentForm_calls appointmentData b)
      as (new & Hcalls & Hnew).
    rewrite Stdlib.Lists.List.Forall_forall in Hnew.
    exists new. split; [exact Hcalls|]. split.
    + intros c Hc.
      destruct (Hnew c Hc) as (l & text & Hw & f & -> & Hf & _). eauto.
    + intros f Hnone c text Hc Hw.
      destruct (Hnew c Hc) as (l & text' & Hw' & g & -> & Hg & _).
      rewrite Hw' in Hw. injection Hw as Hloc _.
      apply appointment_locator_inj in Hloc. congruence.
  - intros appointmentData b f Hnone.
    destruct (fillAppointmentForm_values appointmentData b
                (AppointmentsPage.locator_of f))
      as [Hsame | (text & (g & Hloc & Hg & _) & _)]; [exact Hsame|].
    apply appointment_locator_inj in Hloc. congruence.
Qed.

(** C10. In both helpers a field whose value is the empty string is
    treated like a field that is not supplied.  No engine call addresses the
    control of a field whose value is falsy (absent or empty), no write
    carries the empty string, and on a form a control holds the empty string
    afterwards only if it held it before: the helpers cannot clear a
    field. *)
Theorem fill_forms_skip_empty_values :
  (forall (A : Type) (App : Application A)
          (orderData : RepairOrdersPage.OrderData) (b : Browser A),
      exists new : list EngineCall,
        calls (snd (RepairOrdersPage.fillRepairOrderForm orderData b))
        = (calls b ++ new)%list
        /\ (forall f,
              truthy (RepairOrdersPage.supplied orderData f) = false ->
              forall c text,
                In c new ->
                written c <> Some (RepairOrdersPage.locator_of f, text))
        /\ (forall c l, In c new -> written c <> Some (l, EmptyString)))
  /\ (forall (orderData : RepairOrdersPage.OrderData) (b : Browser Form) l,
         value_of l
           (app (snd (RepairOrdersPage.fillRepairOrderForm orderData b)))
         = Some EmptyString ->
         value_of l (app b) = Some EmptyString)
  /\ (forall (A : Type) (App : Application A)
             (appointmentData : AppointmentsPage.AppointmentData)
             (b : Browser A),
         exists new : list EngineCall,
           calls (snd (AppointmentsPage.fillAppointmentForm appointmentData b))
           = (calls b ++ new)%list
           /\ (forall f,
                 truthy (AppointmentsPage.supplied appointmentData f) = false ->
                 forall c text,
                   In c new ->
                   written c <> Some (AppointmentsPage.locator_of f, text))
           /\ (forall c l, In c new -> written c <> Some (l, EmptyString)))
  /\ (forall (appointmentData : AppointmentsPage.AppointmentData)
             (b : Browser Form) l,
         value_of l
           (app (snd (AppointmentsPage.fillAppointmentForm appointmentData b)))
         = Some EmptyString ->
         value_of l (app b) = Some EmptyString).
Proof.
  split; [|split; [|split]].
  - intros A App orderData b.
    destruct (fillRepairOrderForm_calls orderData b) as (new & Hcalls & Hnew).
    rewrite Stdlib.Lists.List.Forall_forall in Hnew.
    exists new. split; [exact Hcalls|]. split.
    + intros f Hfalsy c text Hc Hw.
      destruct (Hnew c Hc) as (l & text' & Hw' & g & -> & Hg & Hne).
      rewrite Hw' in Hw. injection Hw as Hloc _.
      apply repairOrder_locator_inj in Hloc. subst g.
      rewrite Hg in Hfalsy. cbn [truthy] in Hfalsy.
      apply negb_false_iff, String.eqb_eq in Hfalsy. contradiction.
    + intros c l Hc Hw.
      destruct (Hnew c Hc) as (l' & text' & Hw' & g & _ & _ & Hne).
      congruence.
  - intros orderData b l Hempty.
    destruct (fillRepairOrderForm_values orderData b l)
      as [Hsame | (text & (g & _ & _ & Hne) & Hval)]; [congruence|].
    congruence.
  - intros A App appointmentData b.
    destruct (fillAppointmentForm_calls appointmentData b)
      as (new & Hcalls & Hnew).
    rewrite Stdlib.Lists.List.Forall_forall in Hnew.
    exists new. split; [exact Hcalls|]. split.
    + intros f Hfalsy c text Hc Hw.
      destruct (Hnew c Hc) as (l & text' & Hw' & g & -> & Hg & Hne).
      rewrite Hw' in Hw. injection Hw as Hloc _.
      apply appointment_locator_inj in Hloc. subst g.
      rewrite Hg in Hfalsy. cbn [truthy] in Hfalsy.
      apply negb_false_iff, String.eqb_eq in Hfalsy. contradiction.
    + intros c l Hc Hw.
      destruct (Hnew c Hc) as (l' & text' & Hw' & g & _ & _ & Hne).
      congruence.
  - intros appointmentData b l Hempty.
    destruct (fillAppointmentForm_values appointmentData b l)
      as [Hsame | (text & (g & _ & _ & Hne) & Hval)]; [congruence|].
    congruence.
Qed.

End FormClaims.

(** An incomplete payload leaves the VIN that was typed before. *)
Lemma fill_forms_leave_unsupplied_fields_witness :
  Models.value_of RepairOrdersPage.vehicleVinInput
    (BasePage.app
       (snd (RepairOrdersPage.fillRepairOrderForm customerOnly formWithVin)))
  = Models.value_of RepairOrdersPage.vehicleVinInput
      (BasePage.app formWithVin).
Proof.
  apply (proj1 (proj2 fill_forms_leave_unsupplied_fields) customerOnly
           formWithVin RepairOrdersPage.VehicleVin).
  reflexivity.
Defined.

Example fill_customer_only :
  BasePage.calls
    (snd (RepairOrdersPage.fillRepairOrderForm customerOnly formWithVin))
  = [BasePage.CallFill RepairOrdersPage.customerNameInput "Jane Doe"].
Proof. vm_compute. reflexivity. Qed.

(** Passing the empty string for the VIN does not clear the VIN: the only
    call made is the one for the customer name. *)
Example fill_empty_vin :
  BasePage.calls
    (snd (RepairOrdersPage.fillRepairOrderForm emptyVin formWithVin))
  = [BasePage.CallFill RepairOrdersPage.customerNameInput "Jane Doe"].
Proof. vm_compute. reflexivity. Qed.

Lemma fill_forms_skip_empty_values_witness :
  Models.value_of RepairOrdersPage.vehicleVinInput
    (BasePage.app formWithEmptyVin) = Some EmptyString.
Proof.
  apply (proj1 (proj2 fill_forms_skip_empty_values) emptyVin
           formWithEmptyVin RepairOrdersPage.vehicleVinInput).
  vm_compute. reflexivity.
Defined.

(* ===================================================================== *)
(** * Further properties of the API client                                *)
(* ===================================================================== *)

Section ApiClientLifecycleProperties.
Import ApiClient ApiClientLifecycle.

Variable server : APIRequestContext -> HttpRequest -> Result APIResponse.
Variable URLSearchParams_toString : list (string * string) -> string.
Variable contextDisposed : JSError.

Lemma invoke_with_context (c : DmsApiClient) (context : APIRequestContext)
  (call : ApiCall) (net : Network) :
  apiContext c = Some context ->
  invoke server URLSearchParams_toString contextDisposed c call net
  = send server contextDisposed context
      (request_of URLSearchParams_toString call) net.
Proof.
  intros Hc.
  destruct call; cbn [invoke request_of];
    unfold getRepairOrders, getRepairOrderById, createRepairOrder,
      updateRepairOrder, deleteRepairOrder, searchRepairOrders,
      getAppointments, getAppointmentById, createAppointment,
      updateAppointment, cancelAppointment, authenticate, validateToken,
      get, post, patch, delete, withContext, getContext;
    rewrite Hc; reflexivity.
Qed.

Lemma is_disposed_after_dispose (context other : APIRequestContext)
  (net : Network) :
  is_disposed other
    (mkNetwork (issued net) (created net)
       (disposed net ++ [contextId context]))
  = is_disposed other net || Nat.eqb (contextId other) (contextId context).
Proof.
  unfold is_disposed. cbn [disposed].
  rewrite existsb_app. cbn [existsb]. now rewrite orb_false_r.
Qed.

(** X1. On a client whose request context is set and has not been
    disposed of, a series of calls sends exactly one request per call, in
    the order of the calls and after the requests sent before, each with
    the verb, path and payload of its operation; every call returns what
    the server answered to its request, a failure included: nothing is
    retried and nothing is swallowed. *)
Theorem calls_on_live_context_send_one_request_each (c : DmsApiClient)
  (context : APIRequestContext) (calls : list ApiCall) (net : Network) :
  apiContext c = Some context ->
  is_disposed context net = false ->
  fst (invoke_all server URLSearchParams_toString contextDisposed c calls net)
  = map (fun call =>
           server context (request_of URLSearchParams_toString call)) calls
  /\ issued
       (snd (invoke_all server URLSearchParams_toString contextDisposed c
               calls net))
     = (issued net ++ map (request_of URLSearchParams_toString) calls)%list.
Proof.
  intros Hc. revert net.
  induction calls as [|call rest IH]; intros net Hlive; cbn [invoke_all map].
  - cbn [fst snd]. now rewrite app_nil_r.
  - rewrite (invoke_with_context c context call net Hc).
    unfold send. rewrite Hlive.
    specialize (IH (mkNetwork
                      (issued net
                       ++ [request_of URLSearchParams_toString call])
                      (created net) (disposed net)) Hlive).
    destruct (invoke_all server URLSearchParams_toString contextDisposed c
                rest _) as [rs net''].
    cbn [fst snd issued] in *. destruct IH as [IHr IHn].
    split; [now rewrite IHr|].
    now rewrite IHn, <- List.app_assoc.
Qed.

(** X2. [dispose()] on a client that was never initialised does nothing.
    On a client whose request context is set it disposes of that context
    and of no other, sends nothing and leaves the client's field set: a
    call made afterwards is not stopped by the initialisation guard, the
    disposed context rejects it with the engine's error and no request is
    sent. *)
Theorem call_after_dispose_is_rejected (c : DmsApiClient) (call : ApiCall)
  (net : Network) :
  (apiContext c = None -> dispose c net = (c, net))
  /\ (forall context,
        apiContext c = Some context ->
        fst (dispose c net) = c
        /\ issued (snd (dispose c net)) = issued net
        /\ (forall other,
              contextId other <> contextId context ->
              is_disposed other (snd (dispose c net))
              = is_disposed other net)
        /\ invoke server URLSearchParams_toString contextDisposed c call
             (snd (dispose c net))
           = (Throw contextDisposed, snd (dispose c net))).
Proof.
  unfold dispose. split; [now intros ->|].
  intros context Hc. rewrite Hc. cbn [fst snd issued].
  repeat split.
  - intros other Hother. rewrite is_disposed_after_dispose.
    apply Nat.eqb_neq in Hother. rewrite Hother. apply orb_false_r.
  - rewrite (invoke_with_context c context call _ Hc). unfold send.
    now rewrite is_disposed_after_dispose, Nat.eqb_refl, orb_true_r.
Qed.

End ApiClientLifecycleProperties.

(** A login followed by two reads on an initialised client. *)
Lemma calls_on_live_context_send_one_request_each_witness :
  ApiClient.issued
    (snd (ApiClientLifecycle.invoke_all
            (fun _ _ => Ok (ApiClient.mkResponse 200)) (fun _ => EmptyString)
            ApiClient.requestContextDisposed ApiClient.testClient
            [ApiClient.Authenticate "test.user@example.com" "password123";
             ApiClient.GetRepairOrders;
             ApiClient.GetRepairOrderById "RO-9999-999"]
            ApiClient.networkAfterInit))
  = (ApiClient.issued ApiClient.networkAfterInit
     ++ map (ApiClientLifecycle.request_of (fun _ => EmptyString))
          [ApiClient.Authenticate "test.user@example.com" "password123";
           ApiClient.GetRepairOrders;
           ApiClient.GetRepairOrderById "RO-9999-999"])%list.
Proof.
  apply (calls_on_live_context_send_one_request_each
           (fun _ _ => Ok (ApiClient.mkResponse 200)) (fun _ => EmptyString)
           ApiClient.requestContextDisposed ApiClient.testClient
           (ApiClient.mkContext 0 "https://api.example-dms.com/v1"
              [("Authorization", "Bearer default-test-token");
               ("Content-Type", "application/json")] true));
    reflexivity.
Defined.

(** A client that was initialised and used is disposed of and used again:
    the second call throws and the network has seen the first request
    only. *)
Lemma call_after_dispose_is_rejected_witness :
  ApiClient.invoke (fun _ _ => Ok (ApiClient.mkResponse 200))
    (fun _ => EmptyString) ApiClient.requestContextDisposed
    ApiClient.testClient ApiClient.GetAppointments
    (snd (ApiClient.dispose ApiClient.testClient
            ApiClient.networkAfterOneCall))
  = (Throw ApiClient.requestContextDisposed,
     snd (ApiClient.dispose ApiClient.testClient
            ApiClient.networkAfterOneCall)).
Proof.
  apply (proj2 (call_after_dispose_is_rejected
                  (fun _ _ => Ok (ApiClient.mkResponse 200))
                  (fun _ => EmptyString) ApiClient.requestContextDisposed
                  ApiClient.testClient ApiClient.GetAppointments
                  ApiClient.networkAfterOneCall)
           (ApiClient.mkContext 0 "https://api.example-dms.com/v1"
              [("Authorization", "Bearer default-test-token");
               ("Content-Type", "application/json")] true)).
  reflexivity.
Defined.

Example call_after_dispose_sends_nothing :
  ApiClient.invoke (fun _ _ => Ok (ApiClient.mkResponse 200))
    (fun _ => EmptyString) ApiClient.requestContextDisposed
    ApiClient.testClient ApiClient.GetRepairOrders ApiClient.networkAfterInit
  = (Ok (ApiClient.mkResponse 200), ApiClient.networkAfterOneCall)
  /\ snd (ApiClient.invoke (fun _ _ => Ok (ApiClient.mkResponse 200))
            (fun _ => EmptyString) ApiClient.requestContextDisposed
            ApiClient.testClient ApiClient.GetAppointments
            (snd (ApiClient.dispose ApiClient.testClient
                    ApiClient.networkAfterOneCall)))
     = ApiClient.mkNetwork
         [ApiClient.mkRequest ApiClient.GET "/repair-orders" None] 1 [0%nat].
Proof. split; reflexivity. Qed.

(** X3. [assertResponseTime] returns normally when the time elapsed since
    [startTime] is at most [maxDuration], the bound itself included, and
    otherwise throws an [Error] whose message gives the elapsed time and
    the bound in milliseconds. *)
Theorem assertResponseTime_spec (now startTime maxDuration : Z) :
  ((now - startTime <= maxDuration)%Z ->
   ApiClientLifecycle.assertResponseTime now startTime maxDuration = Ok tt)
  /\ ((maxDuration < now - startTime)%Z ->
      exists msg,
        ApiClientLifecycle.assertResponseTime now startTime maxDuration
        = Throw (Error msg)
        /\ msg = "Response took " +:+ Number_toString (now - startTime)
                 +:+ "ms, expected under " +:+ Number_toString maxDuration
                 +:+ "ms"
        /\ contains msg (Number_toString (now - startTime))
        /\ contains msg (Number_toString maxDuration)).
Proof.
  unfold ApiClientLifecycle.assertResponseTime. split.
  - intros Hle. apply Z.ltb_ge in Hle. now rewrite Hle.
  - intros Hlt. apply Z.ltb_lt in Hlt. rewrite Hlt.
    eexists. split; [reflexivity|]. split; [reflexivity|]. split.
    + apply contains_intro.
    + exists ("Response took " +:+ Number_toString (now - startTime)
              +:+ "ms, expected under "), "ms".
      now rewrite !append_assoc.
Qed.

(** A response that took exactly the 2000 ms allowed passes; one
    millisecond more fails. *)
Lemma assertResponseTime_spec_witness :
  ApiClientLifecycle.assertResponseTime 1718424002000 1718424000000 2000
  = Ok tt
  /\ ApiClientLifecycle.assertResponseTime 1718424002001 1718424000000 2000
     = Throw (Error "Response took 2001ms, expected under 2000ms").
Proof.
  split.
  - apply (proj1 (assertResponseTime_spec 1718424002000 1718424000000 2000)).
    vm_compute. discriminate.
  - destruct (proj2 (assertResponseTime_spec 1718424002001 1718424000000
                       2000)) as (msg & Hthrow & Hmsg & _);
      [reflexivity|].
    rewrite Hthrow, Hmsg. reflexivity.
Defined.

Section ContainsComposition.
Import ApiClient.
Variable objectToString : nat -> string.

(** X4. Checking the entries [e1] followed by [e2] is checking [e1] and,
    when that passes, checking [e2]: the first mismatch in the order of the
    entries is the one reported, an empty expectation always passes, and the
    prototype chain of the expected data plays no part. *)
Theorem assertResponseContains_append (body : JSObject)
  (e1 e2 : list (string * JSValue))
  (chain chain1 chain2 : list (list (string * JSValue))) :
  assertResponseContains objectToString body (Obj (e1 ++ e2) chain)
  = match assertResponseContains objectToString body (Obj e1 chain1) with
    | Ok _ => assertResponseContains objectToString body (Obj e2 chain2)
    | Throw e => Throw e
    end
  /\ assertResponseContains objectToString body (Obj [] chain) = Ok tt.
Proof.
  unfold assertResponseContains, Object_entries. cbn [own].
  split; [|reflexivity].
  induction e1 as [|[k v] e1 IH]; cbn [assertEntries app]; [reflexivity|].
  destruct (strict_eq (getProp body k) v); cbn [negb]; [exact IH|reflexivity].
Qed.

End ContainsComposition.

(* ===================================================================== *)
(** * Further properties of the test data                                 *)
(* ===================================================================== *)

Section NextBusinessDayProperties.
Import JSDate TestData Decoding.

Lemma pad_width (width : nat) (n : Z) :
  (0 <= n < 10 ^ Z.of_nat width)%Z -> (1 <= width)%nat ->
  String.length (pad width n) = width
  /\ all_chars is_digit (pad width n) = true.
Proof.
  intros Hn Hw. unfold pad, Number_toString.
  destruct (n <? 0)%Z eqn:Hneg; [apply Z.ltb_lt in Hneg; lia|].
  destruct width as [|k]; [lia|].
  destruct (digits_spec k n Hn) as (Hall & Hlen & _).
  apply padStart_zero_digits; [lia | exact Hall].
Qed.

Lemma dateString_matches (y m d : Z) :
  (0 <= y <= 9999)%Z -> (1 <= m <= 12)%Z -> (1 <= d <= 31)%Z ->
  matches_iso_date (dateString (y, m, d)) = true.
Proof.
  intros Hy Hm Hd. unfold dateString, isoYear.
  replace ((0 <=? y)%Z && (y <=? 9999)%Z) with true
    by (symmetry; apply andb_true_iff; split; apply Z.leb_le; lia).
  destruct (pad_width 4 y) as [Hyl Hyd];
    [change (10 ^ Z.of_nat 4)%Z with 10000%Z; lia | lia |].
  destruct (pad_width 2 m) as [Hml Hmd];
    [change (10 ^ Z.of_nat 2)%Z with 100%Z; lia | lia |].
  destruct (pad_width 2 d) as [Hdl Hdd];
    [change (10 ^ Z.of_nat 2)%Z with 100%Z; lia | lia |].
  unfold matches_iso_date.
  rewrite (match_digits_append 4) by assumption.
  rewrite match_literal_append, (match_digits_append 2) by assumption.
  rewrite match_literal_append.
  rewrite <- (append_nil_r (pad 2 d)).
  now rewrite (match_digits_append 2) by assumption.
Qed.

(** X5. With a constant offset between local time and UTC,
    [getNextBusinessDay] returns the UTC calendar date of the day that is
    three days after the UTC day of now when it is Friday in local time,
    two days after when it is Saturday in local time, and one day after
    otherwise; for a year between 0 and 9999 the string has the form
    YYYY-MM-DD. *)
Theorem getNextBusinessDay_format (tza now : Z) :
  exists n y m d,
    ((WeekDay (now + tza) = 5 /\ n = 3)
     \/ (WeekDay (now + tza) = 6 /\ n = 2)
     \/ (WeekDay (now + tza) <> 5 /\ WeekDay (now + tza) <> 6 /\ n = 1))%Z
    /\ civil_from_days (Day now + n) = (y, m, d)
    /\ getNextBusinessDay (fun _ _ => tza) now = dateString (y, m, d)
    /\ ((0 <= y <= 9999)%Z ->
        matches_iso_date (getNextBusinessDay (fun _ _ => tza) now) = true).
Proof.
  rewrite getNextBusinessDay_value.
  set (n := if (WeekDay (now + tza) =? 5)%Z then 3%Z
            else if (WeekDay (now + tza) =? 6)%Z then 2%Z else 1%Z).
  pose proof (civil_from_days_range (Day now + n)) as Hrange.
  destruct (civil_from_days (Day now + n)) as [[y m] d] eqn:Hcivil.
  exists n, y, m, d. split; [|split; [exact Hcivil|split; [reflexivity|]]].
  - subst n.
    destruct (WeekDay (now + tza) =? 5)%Z eqn:H5;
      [apply Z.eqb_eq in H5; now left | apply Z.eqb_neq in H5].
    destruct (WeekDay (now + tza) =? 6)%Z eqn:H6;
      [apply Z.eqb_eq in H6; right; now left | apply Z.eqb_neq in H6].
    right. right. auto.
  - intros Hy. now apply dateString_matches.
Qed.

Lemma getNextBusinessDay_format_witness :
  matches_iso_date (getNextBusinessDay centralDaylight 1718424000000) = true.
Proof.
  destruct (getNextBusinessDay_format (-18000000) 1718424000000)
    as (n & y & m & d & Hn & Hcivil & _ & Hmatch).
  apply Hmatch.
  destruct Hn as [[_ ->] | [[_ ->] | (_ & _ & ->)]];
    vm_compute in Hcivil; injection Hcivil as <- _ _; lia.
Defined.

Lemma weekDayOfDay_eq (day : Z) : weekDayOfDay day = ((day + 4) mod 7)%Z.
Proof.
  unfold weekDayOfDay, WeekDay, Day. rewrite Z.div_mul; [reflexivity|].
  unfold msPerDay. lia.
Qed.

(** X6. With a constant offset between local time and UTC, at an instant
    where the local and the UTC calendar show the same date,
    [getNextBusinessDay] returns the date of the next business day: a day
    after today and at most three days later, which is a Monday to Friday,
    every day between today and it being a Saturday or a Sunday. *)
Theorem getNextBusinessDay_is_next_business_day (tza now : Z) :
  Day (now + tza) = Day now ->
  exists day,
    getNextBusinessDay (fun _ _ => tza) now
    = dateString (civil_from_days day)
    /\ (Day (now + tza) < day <= Day (now + tza) + 3)%Z
    /\ (1 <= weekDayOfDay day <= 5)%Z
    /\ (forall between,
           (Day (now + tza) < between < day)%Z ->
           weekDayOfDay between = 6%Z \/ weekDayOfDay between = 0%Z).
Proof.
  intros Hsame. rewrite getNextBusinessDay_value.
  unfold WeekDay. rewrite Hsame.
  set (today := Day now).
  pose proof (Z.mod_pos_bound (today + 4) 7) as Hwd.
  eexists. split; [reflexivity|].
  destruct ((today + 4) mod 7 =? 5)%Z eqn:H5;
    [apply Z.eqb_eq in H5 | apply Z.eqb_neq in H5;
     destruct ((today + 4) mod 7 =? 6)%Z eqn:H6;
       [apply Z.eqb_eq in H6 | apply Z.eqb_neq in H6]];
    (split; [lia|]); (split; [rewrite weekDayOfDay_eq|]);
    try (intros between Hb; rewrite !weekDayOfDay_eq);
    Z.div_mod_to_equations; lia.
Qed.

(** Friday 2024-06-14 at noon UTC, read in UTC. *)
Lemma getNextBusinessDay_is_next_business_day_witness :
  exists day,
    getNextBusinessDay (fun _ _ => 0%Z) 1718366400000
    = dateString (civil_from_days day)
    /\ (1 <= weekDayOfDay day <= 5)%Z.
Proof.
  destruct (getNextBusinessDay_is_next_business_day 0 1718366400000)
    as (day & Hdate & _ & Hweek & _); [reflexivity|].
  exists day. split; [exact Hdate | exact Hweek].
Defined.

Example getNextBusinessDay_friday_noon_utc :
  getNextBusinessDay (fun _ _ => 0%Z) 1718366400000 = "2024-06-17".
Proof. vm_compute. reflexivity. Qed.

End NextBusinessDayProperties.

Section VinCoverage.
Import TestData Decoding.

Lemma indexOf_chars (c : ascii) :
  vin_legal c = true ->
  exists k, indexOf c chars = Some k
            /\ (k < 33)%nat
            /\ charAt chars (Z.of_nat k) = String c EmptyString.
Proof.
  destruct c as [[] [] [] [] [] [] [] []]; vm_compute; intros Hlegal;
    try discriminate Hlegal;
    (eexists; split; [reflexivity|]; split; [lia | reflexivity]).
Qed.

Lemma floor_of_fraction (k : nat) :
  (k < 33)%nat ->
  Math_floor (Double_mul_Z (fraction_for k) 33) = Z.of_nat k.
Proof.
  intros Hk.
  assert (Hall : forallb
            (fun k => (Math_floor (Double_mul_Z (fraction_for k) 33)
                       =? Z.of_nat k)%Z) (seq 0 33) = true)
    by (vm_compute; reflexivity).
  rewrite forallb_forall in Hall. apply Z.eqb_eq, Hall, in_seq. lia.
Qed.

Lemma fraction_for_unit (k : nat) :
  (k < 33)%nat -> unit_double (fraction_for k).
Proof.
  intros Hk. unfold fraction_for.
  assert (Hm : (0 <= (Z.of_nat k * 2 ^ 53 + 32) / 33 < 2 ^ 53)%Z).
  { change (2 ^ 53)%Z with 9007199254740992%Z. split.
    - apply Z.div_pos; lia.
    - apply Z.div_lt_upper_bound; lia. }
  repeat split; cbn [mant expo]; lia.
Qed.

Lemma indexOf_lt (c : ascii) (s : string) (k : nat) :
  indexOf c s = Some k -> (k < String.length s)%nat.
Proof.
  revert k. induction s as [|c' s IH]; cbn [indexOf String.length];
    [discriminate|].
  destruct (Ascii.eqb c' c); [intros k [= <-]; lia|].
  destruct (indexOf c s) as [i|]; [|discriminate].
  intros k [= <-]. specialize (IH i eq_refl). lia.
Qed.

Lemma random_for_unit (vin : string) (i : nat) :
  unit_double (random_for vin i).
Proof.
  unfold random_for.
  destruct (String.get i vin) as [c|];
    [|repeat split; cbn [mant expo]; lia].
  destruct (indexOf c chars) as [k|] eqn:Hk;
    [|repeat split; cbn [mant expo]; lia].
  apply indexOf_lt in Hk. change (String.length chars) with 33%nat in Hk.
  now apply fraction_for_unit.
Qed.

Lemma get_append_char (s : string) (c : ascii) (rest : string) :
  String.get (String.length s) (s +:+ String c rest) = Some c.
Proof.
  induction s as [|x s IH]; [reflexivity|].
  rewrite append_cons. cbn [String.length String.get]. exact IH.
Qed.

(** The loop started on the prefix [done] of the target, with as many
    values drawn as [done] is long, completes the target. *)
Lemma vin_loop_reaches (todo done : string) :
  all_chars vin_legal todo = true ->
  fst (vin_loop (random_for (done +:+ todo)) (String.length todo) done
         (String.length done))
  = done +:+ todo.
Proof.
  revert done. induction todo as [|c todo IH]; intros done;
    cbn [all_chars String.length vin_loop].
  - intros _. now rewrite append_nil_r.
  - intros [Hc Htodo]%andb_true_iff. unfold Math_random.
    destruct (indexOf_chars c Hc) as (k & Hk & Hlt & Hchar).
    assert (Hr : random_for (done +:+ String c todo) (String.length done)
                 = fraction_for k).
    { unfold random_for. now rewrite get_append_char, Hk. }
    rewrite Hr. change (Z.of_nat (String.length chars)) with 33%Z.
    rewrite (floor_of_fraction k Hlt), Hchar.
    replace (done +:+ String c todo)
      with ((done +:+ String c EmptyString) +:+ todo)
      by (now rewrite append_assoc).
    replace (S (String.length done))
      with (String.length (done +:+ String c EmptyString))
      by (rewrite length_append; cbn [String.length]; lia).
    now apply IH.
Qed.

(** X7. Every string of 17 characters of [[A-HJ-NPR-Z0-9]] can come out of
    [generateRandomVIN]: there are doubles in [0, 1) for [Math.random()]
    to return under which the generator builds exactly that string, so
    the generator covers the whole alphabet at every position. *)
Theorem generateRandomVIN_reaches_every_vin (vin : string) :
  String.length vin = 17%nat -> all_chars vin_legal vin = true ->
  (forall i, unit_double (random_for vin i))
  /\ fst (generateRandomVIN (random_for vin) 0) = vin.
Proof.
  intros Hlen Hall. split; [apply random_for_unit|].
  unfold generateRandomVIN. rewrite <- Hlen.
  apply (vin_loop_reaches vin EmptyString Hall).
Qed.

(** The VIN of the sample API payload. *)
Lemma generateRandomVIN_reaches_every_vin_witness :
  fst (generateRandomVIN (random_for "1HGCM82633A123456") 0)
  = "1HGCM82633A123456".
Proof.
  apply (generateRandomVIN_reaches_every_vin "1HGCM82633A123456");
    reflexivity.
Defined.

(** X8. [generateRandomVIN] draws exactly 17 values: its result depends on
    the 17 values of [Math.random()] that follow the ones already drawn and
    on nothing else, and the next generator starts after them. *)
Theorem generateRandomVIN_uses_seventeen_draws
  (random random' : nat -> Double) (drawn : nat) :
  (forall i, (drawn <= i < drawn + 17)%nat -> random i = random' i) ->
  fst (generateRandomVIN random drawn) = fst (generateRandomVIN random' drawn)
  /\ snd (generateRandomVIN random drawn) = (drawn + 17)%nat.
Proof.
  unfold generateRandomVIN. generalize EmptyString as vin.
  generalize 17%nat as n. intros n. revert drawn.
  induction n as [|n IH]; intros drawn vin Hsame; cbn [vin_loop].
  - cbn [fst snd]. split; [reflexivity | lia].
  - unfold Math_random. rewrite (Hsame drawn) by lia.
    destruct (IH (S drawn)
                (vin +:+ charAt chars
                           (Math_floor
                              (Double_mul_Z (random' drawn)
                                 (Z.of_nat (String.length chars))))))
      as [Hfst Hsnd]; [intros i Hi; apply Hsame; lia|].
    rewrite Hfst, Hsnd. split; [reflexivity | lia].
Qed.

(** Two sources that differ only after the twentieth value. *)
Lemma generateRandomVIN_uses_seventeen_draws_witness :
  fst (generateRandomVIN (fun i => mkDouble (Z.of_nat (i mod 20)) (-5)) 3)
  = fst (generateRandomVIN
           (fun i => if (i <? 20)%nat then mkDouble (Z.of_nat (i mod 20)) (-5)
                     else mkDouble 0 (-5)) 3)
  /\ snd (generateRandomVIN (fun i => mkDouble (Z.of_nat (i mod 20)) (-5)) 3)
     = (3 + 17)%nat.
Proof.
  apply generateRandomVIN_uses_seventeen_draws. intros i Hi.
  replace (i <? 20)%nat with true by (symmetry; apply Nat.ltb_lt; lia).
  reflexivity.
Defined.

End VinCoverage.

Section OrderNumberDecoding.
Import JSDate TestData Decoding.

Lemma digit_value_digit_char (d : Z) :
  (0 <= d < 10)%Z -> digit_value (digit_char d) = d.
Proof.
  intros Hd.
  assert (Hcases : (d = 0 \/ d = 1 \/ d = 2 \/ d = 3 \/ d = 4 \/ d = 5
                    \/ d = 6 \/ d = 7 \/ d = 8 \/ d = 9)%Z) by lia.
  repeat (destruct Hcases as [-> | Hcases]; [reflexivity|]).
  now subst d.
Qed.

Lemma decimal_from_append (v : Z) (a b : string) :
  decimal_from v (a +:+ b) = decimal_from (decimal_from v a) b.
Proof.
  revert v. induction a as [|c a IH]; intros v; [reflexivity|].
  rewrite append_cons. cbn [decimal_from]. apply IH.
Qed.

(** Reading the digits printed for [n] in front of [acc] is reading [acc]
    from [n]. *)
Lemma decimal_from_digits_fuel (fuel : nat) :
  forall (n : Z) (acc : string),
    (1 <= fuel)%nat -> (0 <= n < 2 ^ Z.of_nat fuel)%Z ->
    decimal_from 0 (digits_fuel fuel n acc) = decimal_from n acc.
Proof.
  induction fuel as [|fuel IH]; intros n acc Hfuel Hn; [lia|].
  cbn [digits_fuel].
  pose proof (Z.mod_pos_bound n 10) as Hmod.
  pose proof (Z.div_mod n 10 ltac:(lia)) as Hdm.
  destruct (n / 10 =? 0)%Z eqn:Hq.
  - apply Z.eqb_eq in Hq. cbn [decimal_from].
    rewrite digit_value_digit_char by lia. f_equal. clear -Hdm Hq. lia.
  - apply Z.eqb_neq in Hq.
    assert (Hpos : (0 < n / 10)%Z) by (pose proof (Z.div_pos n 10); lia).
    assert (Hpow2 : (2 ^ Z.of_nat (S fuel) = 2 * 2 ^ Z.of_nat fuel)%Z).
    { rewrite Nat2Z.inj_succ, Z.pow_succ_r by lia. reflexivity. }
    assert (Hdiv : (n / 10 < 2 ^ Z.of_nat fuel)%Z).
    { apply Z.div_lt_upper_bound; lia. }
    assert (Hfuel' : (1 <= fuel)%nat).
    { destruct fuel; [cbn in Hdiv; lia | lia]. }
    rewrite IH by lia. cbn [decimal_from].
    rewrite digit_value_digit_char by lia. f_equal. clear -Hdm. lia.
Qed.

Lemma decimal_value_digits (n : Z) :
  (0 <= n)%Z -> decimal_value (digits n) = n.
Proof.
  intros Hn. unfold decimal_value, digits.
  rewrite decimal_from_digits_fuel; [reflexivity | lia |].
  split; [lia|].
  rewrite Nat2Z.inj_succ, Z2Nat.id by apply Z.log2_nonneg.
  destruct (Z.eq_dec n 0) as [->|Hnz]; [reflexivity|].
  apply Z.log2_spec. lia.
Qed.

Lemma decimal_from_zeros (m k : nat) :
  decimal_from 0 (take m (repeat_string (m + k) "0")) = 0%Z.
Proof.
  induction m as [|m IH]; [reflexivity|].
  cbn [Nat.add repeat_string]. rewrite append_cons, append_nil_l.
  cbn [take decimal_from]. exact IH.
Qed.

Lemma decimal_value_padStart (width : nat) (s : string) :
  decimal_value (padStart width "0" s) = decimal_value s.
Proof.
  unfold padStart, decimal_value.
  destruct (width <=? String.length s)%nat; [reflexivity|].
  cbn [String.length Nat.eqb].
  rewrite decimal_from_append.
  pose proof (decimal_from_zeros (width - String.length s) 0) as Hz.
  rewrite Nat.add_0_r in Hz. now rewrite Hz.
Qed.

(** X9. The order number can be read back: the five-digit suffix denotes
    the number [Math.floor(Math.random() * 99999)], the floor of the
    rounded product, which lies between 0 and 99998, so that the suffix
    99999 is never generated; the year part denotes the current year when
    that is not negative; and exactly one value of [Math.random()] is
    drawn. *)
Theorem generateOrderNumber_decodes (LocalTZA : Z -> bool -> Z) (now : Z)
  (random : nat -> Double) (drawn : nat) :
  unit_double (random drawn) ->
  exists suffix,
    fst (generateOrderNumber LocalTZA now random drawn)
    = "RO-" +:+ Number_toString (getFullYear LocalTZA now) +:+ "-" +:+ suffix
    /\ decimal_value suffix = Math_floor (Double_mul_Z (random drawn) 99999)
    /\ (0 <= decimal_value suffix <= 99998)%Z
    /\ suffix <> "99999"
    /\ ((0 <= getFullYear LocalTZA now)%Z ->
        decimal_value (Number_toString (getFullYear LocalTZA now))
        = getFullYear LocalTZA now)
    /\ snd (generateOrderNumber LocalTZA now random drawn) = S drawn.
Proof.
  intros Hunit. unfold generateOrderNumber, Math_random. cbn [fst snd].
  set (n := Math_floor (Double_mul_Z (random drawn) 99999)).
  assert (Hn : (0 <= n < 99999)%Z)
    by (apply (floor_random_bound (random drawn) 99999 16);
        [exact Hunit | lia | cbn; lia]).
  assert (Hvalue : decimal_value (padStart 5 "0" (Number_toString n)) = n).
  { rewrite decimal_value_padStart. unfold Number_toString.
    destruct (n <? 0)%Z eqn:Hneg; [apply Z.ltb_lt in Hneg; lia|].
    apply decimal_value_digits. lia. }
  eexists. split; [reflexivity|]. split; [exact Hvalue|].
  split; [rewrite Hvalue; lia|]. split; [|split; [|reflexivity]].
  - intros Heq. rewrite Heq in Hvalue.
    change (decimal_value "99999") with 99999%Z in Hvalue. lia.
  - intros Hyear. unfold Number_toString.
    destruct (getFullYear LocalTZA now <? 0)%Z eqn:Hneg;
      [apply Z.ltb_lt in Hneg; lia|].
    now apply decimal_value_digits.
Qed.

(** At the double nearest to one third the suffix reads 33333. *)
Lemma generateOrderNumber_decodes_witness :
  exists suffix,
    fst (generateOrderNumber centralDaylight 1718424000000
           (fun _ => oneThird) 0)
    = "RO-" +:+ Number_toString (getFullYear centralDaylight 1718424000000)
      +:+ "-" +:+ suffix
    /\ decimal_value suffix = 33333%Z.
Proof.
  destruct (generateOrderNumber_decodes centralDaylight 1718424000000
              (fun _ => oneThird) 0) as (suffix & Hshape & Hvalue & _).
  - repeat split; cbn [oneThird mant expo]; lia.
  - exists suffix. split; [exact Hshape | exact Hvalue].
Defined.

End OrderNumberDecoding.

(* ===================================================================== *)
(** * Further properties of the page objects                              *)
(* ===================================================================== *)

Import Traces.

(** ** Traces of the workflows *)

Section TraceLemmas.
Import BasePage PageLoad.
Context {A : Type} `{Application A}.
Variable networkIdleAfter : A -> option nat.

Lemma extends_refl (b : Browser A) : extends b b.
Proof. exists []. now rewrite app_nil_r. Qed.

Lemma extends_trans (b1 b2 b3 : Browser A) :
  extends b1 b2 -> extends b2 b3 -> extends b1 b3.
Proof.
  intros [r1 H1] [r2 H2]. exists (r1 ++ r2)%list.
  now rewrite H2, H1, <- List.app_assoc.
Qed.

Lemma acting_extends (l : Locator) (c : EngineCall) (effect : A -> A)
  (what : string) :
  respects extends (acting l c effect what).
Proof. intros b. rewrite acting_unfold. now exists [c]. Qed.

Lemma wait_extends (ms : nat) : respects extends (wait (A := A) ms).
Proof. intros b. now exists [CallWaitForTimeout ms]. Qed.

Lemma waitForPageLoad_extends :
  respects extends (waitForPageLoad networkIdleAfter).
Proof.
  intros b. unfold waitForPageLoad, page_waitForLoadState, bind, record,
    observe, update, throw. cbn [app calls].
  destruct (networkIdleAfter (app b)); cbn [snd calls];
    now exists [CallWaitForLoadState "networkidle"].
Qed.

Lemma only_allowed_calls_extends (allowed : Locator -> string -> Prop)
  (b b' : Browser A) :
  only_allowed_calls allowed b b' -> extends b b'.
Proof. intros (new & Hnew & _). now exists new. Qed.

Lemma adds_ret {X : Type} (x : X) : adds_on_success (ret (A := A) x) [].
Proof. intros b y b' [= _ <-]. now rewrite app_nil_r. Qed.

Lemma adds_bind {X Y : Type} (m : Async A X) (k : X -> Async A Y)
  (new1 new2 : list EngineCall) :
  adds_on_success m new1 -> (forall x, adds_on_success (k x) new2) ->
  adds_on_success (bind m k) (new1 ++ new2).
Proof.
  intros Hm Hk b y b'. unfold bind.
  destruct (m b) as [[x|e] b1] eqn:Hmb; [|discriminate].
  intros Hkb. rewrite (Hk x b1 y b' Hkb), (Hm b x b1 Hmb).
  now rewrite <- List.app_assoc.
Qed.

Lemma adds_acting (l : Locator) (c : EngineCall) (effect : A -> A)
  (what : string) :
  adds_on_success (acting l c effect what) [c].
Proof.
  intros b x b'. unfold acting, bind, record, observe, update, throw.
  cbn [app calls].
  destruct (wait_until (actionable l) (app b) defaultTimeout); [|discriminate].
  now intros [= _ <-].
Qed.

Lemma adds_wait (ms : nat) :
  adds_on_success (wait (A := A) ms) [CallWaitForTimeout ms].
Proof. intros b x b' [= _ <-]. reflexivity. Qed.

Lemma adds_waitForPageLoad :
  adds_on_success (waitForPageLoad networkIdleAfter)
    [CallWaitForLoadState "networkidle"].
Proof.
  intros b x b'. unfold waitForPageLoad, page_waitForLoadState, bind,
    record, observe, update, throw. cbn [app calls].
  destruct (networkIdleAfter (app b)); [|discriminate].
  now intros [= _ <-].
Qed.

Lemma adds_if_truthy_fill (v : option string) (l : Locator) :
  adds_on_success (RepairOrdersPage.if_truthy v (fill l))
    (RepairOrdersWorkflow.guarded v (CallFill l)).
Proof.
  unfold RepairOrdersPage.if_truthy, RepairOrdersWorkflow.guarded.
  destruct (truthy v); [apply adds_acting | apply adds_ret].
Qed.

Lemma adds_if_truthy_select (v : option string) (l : Locator) :
  adds_on_success (RepairOrdersPage.if_truthy v (selectDropdown l))
    (RepairOrdersWorkflow.guarded v (CallSelectOption l)).
Proof.
  unfold RepairOrdersPage.if_truthy, RepairOrdersWorkflow.guarded.
  destruct (truthy v); [apply adds_acting | apply adds_ret].
Qed.

Lemma fillRepairOrderForm_adds (orderData : RepairOrdersPage.OrderData) :
  adds_on_success (RepairOrdersPage.fillRepairOrderForm orderData)
    (RepairOrdersWorkflow.writes orderData).
Proof.
  unfold RepairOrdersPage.fillRepairOrderForm, RepairOrdersWorkflow.writes.
  repeat (apply adds_bind; [|intros _]);
    first [apply adds_if_truthy_fill | apply adds_if_truthy_select].
Qed.

Lemma fillAppointmentForm_adds
  (appointmentData : AppointmentsPage.AppointmentData) :
  adds_on_success (AppointmentsPage.fillAppointmentForm appointmentData)
    (AppointmentsWorkflow.writes appointmentData).
Proof.
  unfold AppointmentsPage.fillAppointmentForm, AppointmentsWorkflow.writes,
    AppointmentsPage.if_truthy.
  repeat (apply adds_bind; [|intros _]);
    first [apply adds_if_truthy_fill | apply adds_if_truthy_select].
Qed.

Lemma first_instant_none (p : A -> bool) (a : A) (fuel : nat) :
  forall t,
    (forall u, (t <= u <= t + fuel)%nat -> p (elapse u a) = false) ->
    first_instant p a t fuel = None.
Proof.
  induction fuel as [|fuel IH]; intros t Hnever; cbn [first_instant];
    rewrite (Hnever t) by lia; [reflexivity|].
  apply IH. intros u Hu. apply Hnever. lia.
Qed.

Lemma wait_until_never (p : A -> bool) (a : A) (limit : nat) :
  never_within p a limit -> wait_until p a limit = None.
Proof.
  intros [Hnow Hlater]. unfold wait_until. rewrite Hnow.
  destruct limit as [|fuel]; [reflexivity|].
  rewrite first_instant_none; [reflexivity|].
  intros u Hu. apply Hlater. lia.
Qed.

Lemma click_result (l : Locator) (b : Browser A) :
  click l b
  = match wait_until (actionable l) (app b) defaultTimeout with
    | Some ready =>
        (Ok tt, mkBrowser (on_click l ready) (calls b ++ [CallClick l]))
    | None =>
        (Throw (TimeoutError ("locator.click" +:+ ": Timeout exceeded.")),
         mkBrowser (elapse defaultTimeout (app b)) (calls b ++ [CallClick l]))
    end.
Proof.
  unfold click, locator_click, acting, bind, record, observe, update, throw.
  cbn [app calls].
  destruct (wait_until (actionable l) (app b) defaultTimeout); reflexivity.
Qed.

Lemma fill_result (l : Locator) (text : string) (b : Browser A) :
  fill l text b
  = match wait_until (actionable l) (app b) defaultTimeout with
    | Some ready =>
        (Ok tt,
         mkBrowser (on_fill l text ready) (calls b ++ [CallFill l text]))
    | None =>
        (Throw (TimeoutError ("locator.fill" +:+ ": Timeout exceeded.")),
         mkBrowser (elapse defaultTimeout (app b))
           (calls b ++ [CallFill l text]))
    end.
Proof.
  unfold fill, locator_fill, acting, bind, record, observe, update, throw.
  cbn [app calls].
  destruct (wait_until (actionable l) (app b) defaultTimeout); reflexivity.
Qed.


(** A workflow that opens with a click: the click is its first call, and
    when the control does not become actionable within the timeout nothing
    else happens. *)
Lemma click_first {X : Type} (l : Locator) (k : Async A X) :
  respects extends k ->
  starts_with (bind (click l) (fun _ => k)) (CallClick l)
  /\ (forall b,
         never_within (actionable l) (app b) defaultTimeout ->
         bind (click l) (fun _ => k) b
         = (Throw (TimeoutError ("locator.click" +:+ ": Timeout exceeded.")),
            mkBrowser (elapse defaultTimeout (app b))
              (calls b ++ [CallClick l]))).
Proof.
  intros Hk. split.
  - intros b. unfold bind. rewrite click_result.
    destruct (wait_until (actionable l) (app b) defaultTimeout) as [ready|].
    + destruct (Hk (mkBrowser (on_click l ready) (calls b ++ [CallClick l])))
        as [rest Hrest].
      exists rest. cbn [calls] in Hrest.
      now rewrite Hrest, <- List.app_assoc.
    + exists []. reflexivity.
  - intros b Hno. unfold bind.
    now rewrite click_result, (wait_until_never _ _ _ Hno).
Qed.

End TraceLemmas.

Section WorkflowTraces.
Import BasePage PageLoad.
Context {A : Type} `{Application A}.
Variable networkIdleAfter : A -> option nat.

Lemma bind_assoc {X Y Z : Type} (m : Async A X) (f : X -> Async A Y)
  (g : Y -> Async A Z) (b : Browser A) :
  bind (bind m f) g b = bind m (fun x => bind (f x) g) b.
Proof. unfold bind. destruct (m b) as [[x|e] b']; reflexivity. Qed.

Lemma saveForm_extends :
  respects extends (RepairOrdersWorkflow.saveForm networkIdleAfter).
Proof.
  unfold RepairOrdersWorkflow.saveForm.
  apply respects_bind; [exact extends_trans | apply acting_extends|].
  intros _. apply waitForPageLoad_extends.
Qed.

(** X11. [createRepairOrder] is fail-fast and ordered.  Its first engine
    call is the click on the create button; when that control does not
    become actionable within the engine's timeout the workflow throws once
    the timeout is over, with nothing typed and nothing saved; and whenever
    it returns, the engine calls it has made are, in this order: the click
    on the create button, the 500 ms wait, one write for each property of
    the payload that is present and not empty, in the order of the form,
    the click on the save button and the wait for the network to be
    idle. *)
Theorem createRepairOrder_trace (orderData : RepairOrdersPage.OrderData) :
  adds_on_success
    (RepairOrdersWorkflow.createRepairOrder networkIdleAfter orderData)
    ([CallClick RepairOrdersWorkflow.createNewButton; CallWaitForTimeout 500]
     ++ RepairOrdersWorkflow.writes orderData
     ++ [CallClick RepairOrdersWorkflow.saveButton;
         CallWaitForLoadState "networkidle"])
  /\ starts_with
       (RepairOrdersWorkflow.createRepairOrder networkIdleAfter orderData)
       (CallClick RepairOrdersWorkflow.createNewButton)
  /\ (forall b,
         never_within (actionable RepairOrdersWorkflow.createNewButton)
           (app b) defaultTimeout ->
         RepairOrdersWorkflow.createRepairOrder networkIdleAfter orderData b
         = (Throw (TimeoutError "locator.click: Timeout exceeded."),
            mkBrowser (elapse defaultTimeout (app b))
              (calls b ++ [CallClick RepairOrdersWorkflow.createNewButton]))).
Proof.
  split.
  - unfold RepairOrdersWorkflow.createRepairOrder,
      RepairOrdersWorkflow.clickCreateNew, RepairOrdersWorkflow.saveForm.
    change ([CallClick RepairOrdersWorkflow.createNewButton;
             CallWaitForTimeout 500]
            ++ RepairOrdersWorkflow.writes orderData
            ++ [CallClick RepairOrdersWorkflow.saveButton;
                CallWaitForLoadState "networkidle"])%list
      with (([CallClick RepairOrdersWorkflow.createNewButton]
             ++ [CallWaitForTimeout 500])
            ++ RepairOrdersWorkflow.writes orderData
            ++ [CallClick RepairOrdersWorkflow.saveButton]
            ++ [CallWaitForLoadState "networkidle"])%list.
    apply adds_bind; [apply adds_bind; [apply adds_acting|]|].
    + intros _. apply adds_wait.
    + intros _. apply adds_bind; [apply fillRepairOrderForm_adds|].
      intros _. apply adds_bind; [apply adds_acting|].
      intros _. apply adds_waitForPageLoad.
  - destruct (click_first RepairOrdersWorkflow.createNewButton
                (bind (wait 500)
                   (fun _ =>
                      bind (RepairOrdersPage.fillRepairOrderForm orderData)
                        (fun _ =>
                           RepairOrdersWorkflow.saveForm networkIdleAfter))))
      as [Hstart Hfail].
    { apply respects_bind; [exact extends_trans | apply wait_extends|].
      intros _. apply respects_bind; [exact extends_trans | |].
      - intros b. eapply only_allowed_calls_extends.
        apply fillRepairOrderForm_calls.
      - intros _. apply saveForm_extends. }
    split.
    + intros b. destruct (Hstart b) as [rest Hrest]. exists rest.
      unfold RepairOrdersWorkflow.createRepairOrder,
        RepairOrdersWorkflow.clickCreateNew.
      now rewrite bind_assoc.
    + intros b Hno.
      unfold RepairOrdersWorkflow.createRepairOrder,
        RepairOrdersWorkflow.clickCreateNew.
      rewrite bind_assoc. now apply Hfail.
Qed.

Lemma saveAppointment_extends :
  respects extends (AppointmentsWorkflow.saveAppointment networkIdleAfter).
Proof.
  unfold AppointmentsWorkflow.saveAppointment.
  apply respects_bind; [exact extends_trans | apply acting_extends|].
  intros _. apply waitForPageLoad_extends.
Qed.

(** X12. [scheduleAppointment] is fail-fast and ordered in the same way:
    the click on the schedule button comes first, and when that control
    does not become actionable within the engine's timeout the workflow
    throws once the timeout is over with nothing typed; a run that returns
    has made the click, the 500 ms wait, one write per property that is
    present and not empty in the order of the form, the click on the save
    button and the wait for the network to be idle. *)
Theorem scheduleAppointment_trace
  (appointmentData : AppointmentsPage.AppointmentData) :
  adds_on_success
    (AppointmentsWorkflow.scheduleAppointment networkIdleAfter appointmentData)
    ([CallClick AppointmentsWorkflow.scheduleNewButton; CallWaitForTimeout 500]
     ++ AppointmentsWorkflow.writes appointmentData
     ++ [CallClick AppointmentsWorkflow.saveButton;
         CallWaitForLoadState "networkidle"])
  /\ starts_with
       (AppointmentsWorkflow.scheduleAppointment networkIdleAfter
          appointmentData)
       (CallClick AppointmentsWorkflow.scheduleNewButton)
  /\ (forall b,
         never_within (actionable AppointmentsWorkflow.scheduleNewButton)
           (app b) defaultTimeout ->
         AppointmentsWorkflow.scheduleAppointment networkIdleAfter
           appointmentData b
         = (Throw (TimeoutError "locator.click: Timeout exceeded."),
            mkBrowser (elapse defaultTimeout (app b))
              (calls b ++ [CallClick AppointmentsWorkflow.scheduleNewButton]))).
Proof.
  split.
  - unfold AppointmentsWorkflow.scheduleAppointment,
      AppointmentsWorkflow.clickScheduleNew,
      AppointmentsWorkflow.saveAppointment.
    change ([CallClick AppointmentsWorkflow.scheduleNewButton;
             CallWaitForTimeout 500]
            ++ AppointmentsWorkflow.writes appointmentData
            ++ [CallClick AppointmentsWorkflow.saveButton;
                CallWaitForLoadState "networkidle"])%list
      with (([CallClick AppointmentsWorkflow.scheduleNewButton]
             ++ [CallWaitForTimeout 500])
            ++ AppointmentsWorkflow.writes appointmentData
            ++ [CallClick AppointmentsWorkflow.saveButton]
            ++ [CallWaitForLoadState "networkidle"])%list.
    apply adds_bind; [apply adds_bind; [apply adds_acting|]|].
    + intros _. apply adds_wait.
    + intros _. apply adds_bind; [apply fillAppointmentForm_adds|].
      intros _. apply adds_bind; [apply adds_acting|].
      intros _. apply adds_waitForPageLoad.
  - destruct (click_first AppointmentsWorkflow.scheduleNewButton
                (bind (wait 500)
                   (fun _ =>
                      bind
                        (AppointmentsPage.fillAppointmentForm appointmentData)
                        (fun _ =>
                           AppointmentsWorkflow.saveAppointment
                             networkIdleAfter))))
      as [Hstart Hfail].
    { apply respects_bind; [exact extends_trans | apply wait_extends|].
      intros _. apply respects_bind; [exact extends_trans | |].
      - intros b. eapply only_allowed_calls_extends.
        apply fillAppointmentForm_calls.
      - intros _. apply saveAppointment_extends. }
    split.
    + intros b. destruct (Hstart b) as [rest Hrest]. exists rest.
      unfold AppointmentsWorkflow.scheduleAppointment,
        AppointmentsWorkflow.clickScheduleNew.
      now rewrite bind_assoc.
    + intros b Hno.
      unfold AppointmentsWorkflow.scheduleAppointment,
        AppointmentsWorkflow.clickScheduleNew.
      rewrite bind_assoc. now apply Hfail.
Qed.

(** X13. [login] types both credentials whatever they are, the empty
    string included: a run that returns has filled the username, filled
    the password, clicked the login button and waited for the network to
    be idle, in this order and nothing else; when the username input does
    not become actionable within the engine's timeout, [login] throws once
    the timeout is over, with the password not typed and the button not
    clicked. *)
Theorem login_trace (username password : string) :
  adds_on_success (LoginPage.login networkIdleAfter username password)
    [CallFill LoginPage.usernameInput username;
     CallFill LoginPage.passwordInput password;
     CallClick LoginPage.loginButton;
     CallWaitForLoadState "networkidle"]
  /\ (forall b,
         never_within (actionable LoginPage.usernameInput) (app b)
           defaultTimeout ->
         LoginPage.login networkIdleAfter username password b
         = (Throw (TimeoutError "locator.fill: Timeout exceeded."),
            mkBrowser (elapse defaultTimeout (app b))
              (calls b ++ [CallFill LoginPage.usernameInput username]))).
Proof.
  split.
  - unfold LoginPage.login.
    change [CallFill LoginPage.usernameInput username;
            CallFill LoginPage.passwordInput password;
            CallClick LoginPage.loginButton;
            CallWaitForLoadState "networkidle"]
      with ([CallFill LoginPage.usernameInput username]
            ++ [CallFill LoginPage.passwordInput password]
            ++ [CallClick LoginPage.loginButton]
            ++ [CallWaitForLoadState "networkidle"])%list.
    apply adds_bind; [apply adds_acting|]. intros _.
    apply adds_bind; [apply adds_acting|]. intros _.
    apply adds_bind; [apply adds_acting|]. intros _.
    apply adds_waitForPageLoad.
  - intros b Hno. unfold LoginPage.login, bind.
    now rewrite fill_result, (wait_until_never _ _ _ Hno).
Qed.

End WorkflowTraces.

(** A run that returns, on a form whose controls are enabled, and a run on
    a page whose opening controls are disabled. *)
Lemma createRepairOrder_trace_witness :
  BasePage.calls
    (snd (RepairOrdersWorkflow.createRepairOrder idleAtOnce newOrder
            formWithVin))
  = (BasePage.calls formWithVin
     ++ [BasePage.CallClick RepairOrdersWorkflow.createNewButton;
         BasePage.CallWaitForTimeout 500]
     ++ RepairOrdersWorkflow.writes newOrder
     ++ [BasePage.CallClick RepairOrdersWorkflow.saveButton;
         BasePage.CallWaitForLoadState "networkidle"])%list
  /\ RepairOrdersWorkflow.createRepairOrder idleAtOnce newOrder lockedForm
     = (Throw (TimeoutError "locator.click: Timeout exceeded."),
        BasePage.mkBrowser
          (BasePage.elapse (@BasePage.defaultTimeout Form _)
             (BasePage.app lockedForm))
          (BasePage.calls lockedForm
           ++ [BasePage.CallClick RepairOrdersWorkflow.createNewButton])).
Proof.
  split.
  - apply (proj1 (createRepairOrder_trace idleAtOnce newOrder) formWithVin tt).
    vm_compute. reflexivity.
  - apply (proj2 (proj2 (createRepairOrder_trace idleAtOnce newOrder))).
    split; [|intros t _]; vm_compute; reflexivity.
Defined.

Lemma scheduleAppointment_trace_witness :
  BasePage.calls
    (snd (AppointmentsWorkflow.scheduleAppointment idleAtOnce aliceOnly
            formWithVin))
  = (BasePage.calls formWithVin
     ++ [BasePage.CallClick AppointmentsWorkflow.scheduleNewButton;
         BasePage.CallWaitForTimeout 500]
     ++ AppointmentsWorkflow.writes aliceOnly
     ++ [BasePage.CallClick AppointmentsWorkflow.saveButton;
         BasePage.CallWaitForLoadState "networkidle"])%list
  /\ AppointmentsWorkflow.scheduleAppointment idleAtOnce aliceOnly lockedForm
     = (Throw (TimeoutError "locator.click: Timeout exceeded."),
        BasePage.mkBrowser
          (BasePage.elapse (@BasePage.defaultTimeout Form _)
             (BasePage.app lockedForm))
          (BasePage.calls lockedForm
           ++ [BasePage.CallClick AppointmentsWorkflow.scheduleNewButton])).
Proof.
  split.
  - apply (proj1 (scheduleAppointment_trace idleAtOnce aliceOnly)
             formWithVin tt).
    vm_compute. reflexivity.
  - apply (proj2 (proj2 (scheduleAppointment_trace idleAtOnce aliceOnly))).
    split; [|intros t _]; vm_compute; reflexivity.
Defined.

Lemma login_trace_witness :
  BasePage.calls
    (snd (LoginPage.login idleAtOnce "test.user@example.com" "password123"
            loginForm))
  = (BasePage.calls loginForm
     ++ [BasePage.CallFill LoginPage.usernameInput "test.user@example.com";
         BasePage.CallFill LoginPage.passwordInput "password123";
         BasePage.CallClick LoginPage.loginButton;
         BasePage.CallWaitForLoadState "networkidle"])%list
  /\ LoginPage.login idleAtOnce "test.user@example.com" "password123"
       lockedForm
     = (Throw (TimeoutError "locator.fill: Timeout exceeded."),
        BasePage.mkBrowser
          (BasePage.elapse (@BasePage.defaultTimeout Form _)
             (BasePage.app lockedForm))
          (BasePage.calls lockedForm
           ++ [BasePage.CallFill LoginPage.usernameInput
                 "test.user@example.com"])).
Proof.
  split.
  - apply (proj1 (login_trace idleAtOnce _ _) loginForm tt).
    vm_compute. reflexivity.
  - apply (proj2 (login_trace idleAtOnce _ _)).
    split; [|intros t _]; vm_compute; reflexivity.
Defined.

Example createRepairOrder_newOrder_calls :
  BasePage.calls
    (snd (RepairOrdersWorkflow.createRepairOrder idleAtOnce newOrder
            formWithVin))
  = [BasePage.CallClick RepairOrdersWorkflow.createNewButton;
     BasePage.CallWaitForTimeout 500;
     BasePage.CallFill RepairOrdersPage.customerNameInput "Jane Doe";
     BasePage.CallFill RepairOrdersPage.vehicleVinInput "1FADP3K29JL234567";
     BasePage.CallFill RepairOrdersPage.vehicleMakeInput "Ford";
     BasePage.CallFill RepairOrdersPage.vehicleModelInput "Fusion";
     BasePage.CallFill RepairOrdersPage.vehicleYearInput "2024";
     BasePage.CallFill RepairOrdersPage.descriptionInput
       "Oil change and tire rotation";
     BasePage.CallFill RepairOrdersPage.estimatedCostInput "150.00";
     BasePage.CallClick RepairOrdersWorkflow.saveButton;
     BasePage.CallWaitForLoadState "networkidle"].
Proof. vm_compute. reflexivity. Qed.

(** A button that is enabled two seconds after the call is clicked then:
    the click waits for it. *)
Example click_waits_for_the_control :
  BasePage.click "button"
    (BasePage.mkBrowser
       (Models.mkTimed
          (fun _ t => if (t <? 2000)%nat then BasePage.Hidden
                      else BasePage.Visible) 0) [])
  = (Ok tt,
     BasePage.mkBrowser
       (Models.mkTimed
          (fun _ t => if (t <? 2000)%nat then BasePage.Hidden
                      else BasePage.Visible) 2000)
       [BasePage.CallClick "button"]).
Proof. vm_compute. reflexivity. Qed.

(** ** Forms whose controls are enabled *)

Ltac distinct_locators :=
  let Heq := fresh "Heq" in
  intro Heq; vm_compute in Heq; discriminate Heq.

Section EnabledForms.
Import BasePage PageLoad.

Lemma bind_ok {X Y : Type} (m : Async Form X) (k : X -> Async Form Y)
  (b b1 : Browser Form) (x : X) :
  m b = (Ok x, b1) -> bind m k b = k x b1.
Proof. intros Hm. unfold bind. now rewrite Hm. Qed.

Lemma enabled_actionable (l : Locator) (b : Browser Form) :
  l ∉ disabled (app b) -> actionable l (app b) = true.
Proof. intros Hl. cbn [actionable form_application]. now apply bool_decide_eq_true. Qed.

(** A form does not change while the test waits: an action takes effect
    at once on an enabled control, and times out on a disabled one. *)
Lemma enabled_ready (l : Locator) (b : Browser Form) :
  l ∉ disabled (app b) ->
  wait_until (actionable l) (app b) defaultTimeout = Some (app b).
Proof. intros Hl. apply wait_until_now. now apply enabled_actionable. Qed.

Lemma disabled_never_ready (l : Locator) (b : Browser Form) :
  l ∈ disabled (app b) ->
  wait_until (actionable l) (app b) defaultTimeout = None.
Proof.
  intros Hl. rewrite wait_until_static by reflexivity.
  cbn [actionable form_application].
  rewrite bool_decide_eq_false_2; [reflexivity | auto].
Qed.

Lemma fill_enabled (l : Locator) (text : string) (b : Browser Form) :
  l ∉ disabled (app b) ->
  fill l text b
  = (Ok tt, mkBrowser (form_write l text (app b)) (calls b ++ [CallFill l text])).
Proof. intros Hl. now rewrite fill_result, enabled_ready. Qed.

Lemma click_enabled (l : Locator) (b : Browser Form) :
  l ∉ disabled (app b) ->
  click l b = (Ok tt, mkBrowser (app b) (calls b ++ [CallClick l])).
Proof. intros Hl. now rewrite click_result, enabled_ready. Qed.






End EnabledForms.



Section FormCompleteness.
Import BasePage.


End FormCompleteness.


Section LoginForm.
Import BasePage PageLoad.
Variable networkIdleAfter : Form -> option nat.

Lemma waitForPageLoad_form (b : Browser Form) :
  app (snd (waitForPageLoad networkIdleAfter b)) = app b
  /\ calls (snd (waitForPageLoad networkIdleAfter b))
     = (calls b ++ [CallWaitForLoadState "networkidle"])%list.
Proof.
  unfold waitForPageLoad, page_waitForLoadState, bind, record, observe,
    update, throw.
  cbn [app calls]. destruct (networkIdleAfter (app b)); split; reflexivity.
Qed.

(** X15. On a login form whose inputs and button are enabled, [login]
    leaves the username input holding the username and the password input
    holding the password, whatever they are (the empty string included, so
    that [login] can clear a field, unlike the guarded form helpers), and
    leaves every other control as it was; its engine calls are the two
    fills, the click on the login button and the wait for the network to
    be idle, whether or not that wait succeeds. *)
Theorem login_on_form (username password : string) (b : Browser Form) :
  LoginPage.usernameInput ∉ disabled (app b) ->
  LoginPage.passwordInput ∉ disabled (app b) ->
  LoginPage.loginButton ∉ disabled (app b) ->
  value_of LoginPage.usernameInput
    (app (snd (LoginPage.login networkIdleAfter username password b)))
  = Some username
  /\ value_of LoginPage.passwordInput
       (app (snd (LoginPage.login networkIdleAfter username password b)))
     = Some password
  /\ (forall l,
         l <> LoginPage.usernameInput -> l <> LoginPage.passwordInput ->
         value_of l
           (app (snd (LoginPage.login networkIdleAfter username password b)))
         = value_of l (app b))
  /\ calls (snd (LoginPage.login networkIdleAfter username password b))
     = (calls b ++ [CallFill LoginPage.usernameInput username;
                    CallFill LoginPage.passwordInput password;
                    CallClick LoginPage.loginButton;
                    CallWaitForLoadState "networkidle"])%list.
Proof.
  intros Hu Hp Hb. unfold LoginPage.login.
  erewrite bind_ok; [|now apply fill_enabled].
  erewrite bind_ok; [|now apply fill_enabled].
  erewrite bind_ok; [|now apply click_enabled].
  rewrite (proj1 (waitForPageLoad_form _)), (proj2 (waitForPageLoad_form _)).
  cbn [app calls].
  unfold value_of, form_write. cbn [values].
  repeat split.
  - rewrite lookup_insert_ne by distinct_locators. apply lookup_insert_eq.
  - apply lookup_insert_eq.
  - intros l Hlu Hlp. now rewrite !lookup_insert_ne by auto.
  - now rewrite <- !List.app_assoc.
Qed.

(** X16. On a login form whose inputs are enabled, [clearForm] returns
    normally and leaves both inputs holding the empty string and every
    other control as it was; when the username input is disabled it throws
    and the password input keeps its value. *)
Theorem clearForm_on_form (b : Browser Form) :
  (LoginPage.usernameInput ∉ disabled (app b) ->
   LoginPage.passwordInput ∉ disabled (app b) ->
   fst (LoginPage.clearForm b) = Ok tt
   /\ value_of LoginPage.usernameInput (app (snd (LoginPage.clearForm b)))
      = Some EmptyString
   /\ value_of LoginPage.passwordInput (app (snd (LoginPage.clearForm b)))
      = Some EmptyString
   /\ forall l,
        l <> LoginPage.usernameInput -> l <> LoginPage.passwordInput ->
        value_of l (app (snd (LoginPage.clearForm b))) = value_of l (app b))
  /\ (LoginPage.usernameInput ∈ disabled (app b) ->
      is_throw (fst (LoginPage.clearForm b)) = true
      /\ app (snd (LoginPage.clearForm b)) = app b).
Proof.
  unfold LoginPage.clearForm. split.
  - intros Hu Hp.
    erewrite bind_ok; [|now apply fill_enabled].
    rewrite fill_enabled by exact Hp.
    cbn [fst snd app].
    unfold value_of, form_write. cbn [values].
    repeat split.
    + rewrite lookup_insert_ne by distinct_locators. apply lookup_insert_eq.
    + apply lookup_insert_eq.
    + intros l Hlu Hlp. now rewrite !lookup_insert_ne by auto.
  - intros Hdis. unfold bind.
    rewrite fill_result, disabled_never_ready by exact Hdis.
    split; reflexivity.
Qed.

End LoginForm.

(** Logging in with empty credentials over a previous attempt empties
    both inputs. *)
Lemma login_on_form_witness :
  Models.value_of LoginPage.usernameInput
    (BasePage.app (snd (LoginPage.login idleAtOnce EmptyString EmptyString
                          loginForm)))
  = Some EmptyString.
Proof.
  apply (login_on_form idleAtOnce EmptyString EmptyString loginForm);
    apply not_elem_of_empty.
Defined.

Lemma clearForm_on_form_witness :
  Models.value_of LoginPage.passwordInput
    (BasePage.app (snd (LoginPage.clearForm loginForm)))
  = Some EmptyString.
Proof.
  apply (proj1 (clearForm_on_form loginForm)); apply not_elem_of_empty.
Defined.

(** ** The results table *)

Section TableProperties.
Import BasePage RepairOrdersWorkflow.
Context {A : Type} `{Application A}.
Variable rows_of : Locator -> A -> list Locator.
Variable String_trim : string -> string.

Lemma locator_textContent_result (l : Locator) (b : Browser A) :
  locator_textContent l b
  = match wait_until (fun a => attached (state_of l a)) (app b)
            defaultTimeout with
    | Some ready =>
        (Ok (text_of l ready),
         mkBrowser ready (calls b ++ [CallTextContent l]))
    | None =>
        (Throw (TimeoutError "locator.textContent: Timeout exceeded."),
         mkBrowser (elapse defaultTimeout (app b))
           (calls b ++ [CallTextContent l]))
    end.
Proof.
  unfold locator_textContent, bind, record, observe, update, throw.
  cbn [app calls].
  destruct (wait_until (fun a => attached (state_of l a)) (app b)
              defaultTimeout); reflexivity.
Qed.

(** An element that is in the page is read at once. *)
Lemma locator_textContent_attached (l : Locator) (b : Browser A) :
  attached (state_of l (app b)) = true ->
  locator_textContent l b
  = (Ok (text_of l (app b)),
     mkBrowser (app b) (calls b ++ [CallTextContent l])).
Proof.
  intros Hl. rewrite locator_textContent_result.
  now rewrite (wait_until_now (fun a => attached (state_of l a)) _ _ Hl).
Qed.

Lemma collectOrderNumbers_attached (rows : list Locator) :
  forall (orderNumbers : list string) (b : Browser A),
    (forall row, In row rows ->
                 attached (state_of (chain row "td:first-child") (app b))
                 = true) ->
    collectOrderNumbers String_trim rows orderNumbers b
    = (Ok (orderNumbers ++ kept_cells String_trim rows (app b))%list,
       mkBrowser (app b)
         (calls b
          ++ map (fun row => CallTextContent (chain row "td:first-child"))
               rows)).
Proof.
  induction rows as [|row rest IH]; intros orderNumbers b Hall;
    cbn [collectOrderNumbers kept_cells flat_map map].
  - unfold ret. rewrite !app_nil_r. now destruct b.
  - unfold bind.
    rewrite locator_textContent_attached by apply (Hall row (in_eq _ _)).
    rewrite IH by (intros r Hr; apply Hall; now apply in_cons).
    cbn [app calls]. fold (kept_cells String_trim rest (app b)).
    destruct (truthy (text_of (chain row "td:first-child") (app b)));
      now rewrite <- !List.app_assoc.
Qed.



(** X18. When the first cell of every row is in the page,
    [hasOrderNumber] answers [true] exactly when the trimmed, non-empty
    text of the first cell of some row is the order number asked for; on a
    table without rows it answers [false]. *)
Theorem hasOrderNumber_spec (orderNumber : string) (b : Browser A) :
  (forall row, In row (rows_of tableRows (app b)) ->
               attached (state_of (chain row "td:first-child") (app b))
               = true) ->
  exists found,
    fst (hasOrderNumber rows_of String_trim orderNumber b) = Ok found
    /\ (found = true <->
        exists row text,
          In row (rows_of tableRows (app b))
          /\ text_of (chain row "td:first-child") (app b) = Some text
          /\ text <> EmptyString
          /\ String_trim text = orderNumber)
    /\ (rows_of tableRows (app b) = [] -> found = false).
Proof.
  intros Hall. unfold hasOrderNumber, getAllOrderNumbers, locator_all, bind,
    observe.
  rewrite collectOrderNumbers_attached by exact Hall. unfold ret. cbn [fst].
  eexists. split; [reflexivity|]. split.
  - rewrite existsb_exists. split.
    + intros (x & Hin & Heq). apply String.eqb_eq in Heq. subst x.
      unfold kept_cells in Hin. apply in_flat_map in Hin.
      destruct Hin as (row & Hrow & Hcell).
      destruct (text_of (chain row "td:first-child") (app b)) as [text|] eqn:Ht;
        cbn [truthy] in Hcell; [|contradiction].
      destruct (String.eqb text EmptyString) eqn:Hempty; cbn [negb] in Hcell;
        [contradiction|].
      destruct Hcell as [Hcell|[]]. cbn [default] in Hcell.
      exists row, text. repeat split; auto. now apply String.eqb_neq.
    + intros (row & text & Hrow & Ht & Hne & Htrim).
      exists orderNumber. split; [|apply String.eqb_refl].
      unfold kept_cells. apply in_flat_map. exists row. split; [exact Hrow|].
      rewrite Ht. cbn [truthy]. apply String.eqb_neq in Hne. rewrite Hne.
      cbn [negb default]. left. exact Htrim.
  - intros Hnone. now rewrite Hnone.
Qed.

End TableProperties.


Lemma hasOrderNumber_spec_witness :
  exists found,
    fst (RepairOrdersWorkflow.hasOrderNumber (fun _ _ => twoRows)
           (fun s => s) "RO-9999-999" twoOrders) = Ok found.
Proof.
  destruct (hasOrderNumber_spec (fun _ _ => twoRows) (fun s => s)
              "RO-9999-999" twoOrders) as (found & Hfound & _).
  - intros row [<- | [<- | []]]; vm_compute; reflexivity.
  - exists found. exact Hfound.
Defined.

Example hasOrderNumber_unknown_order :
  fst (RepairOrdersWorkflow.hasOrderNumber (fun _ _ => twoRows)
         (fun s => s) "RO-9999-999" twoOrders) = Ok false
  /\ fst (RepairOrdersWorkflow.hasOrderNumber (fun _ _ => twoRows)
            (fun s => s) "RO-2024-002" twoOrders) = Ok true.
Proof. vm_compute. split; reflexivity. Qed.
